(** * Content repository layer: query builder, aggregate assembler, mutations

    A shallow embedding of [src/lib/server/services/content.ts] (the
    [ContentService] class) and of the function-style content module that
    follows it in the same source file ([create_content], [update_content],
    [update_content_tags], [delete_content], and the reads [get_content],
    [get_admin_content], [get_content_by_id], [get_content_by_ids],
    [add_tags], [add_user_liked_and_saved]).

    Conventions.
    - JavaScript strings are [string]; numbers that the code uses as row
      counts, limits and offsets are [Z] (NaN and fractions are not
      represented).
    - A value of type [any] pushed on a bound-parameter array is a [param].
    - An optional property [p?: T] is [option T]; JavaScript truthiness is
      written out where the code tests it ([truthy_str], [truthy_num]).
    - The store handle [db] is modelled by an explicit [store] threaded
      through a state-and-exception monad; every call that reaches the store
      ([exec], [prepare], [get], [all], [run]) is one [tick] that may throw
      according to the store's fault plan. *)

From Stdlib Require Import DecimalString.
From stdpp Require Import base option list strings numbers.

Local Open Scope string_scope.
Local Open Scope Z_scope.
Local Open Scope list_scope.

(** ** JavaScript values and helpers *)

Inductive param : Type :=
  | PStr (s : string)
  | PNum (n : Z)
  | PNull.

(** [x ?? null] as a bound value. *)
Definition str_or_null (o : option string) : param :=
  match o with
  | Some s => PStr s
  | None => PNull
  end.

Definition LF : string := String (Ascii.ascii_of_nat 10) EmptyString.
Definition TAB : string := String (Ascii.ascii_of_nat 9) EmptyString.

(** [Array.prototype.join] on an array of strings. *)
Definition join (sep : string) (l : list string) : string := String.concat sep l.

(** [xs.map(() => '?').join(',')] *)
Definition placeholders {A} (xs : list A) : string := join "," (map (fun _ => "?") xs).

(** Truthiness of an optional string property: [undefined] and [''] are
    falsy. *)
Definition truthy_str (o : option string) : bool :=
  match o with
  | Some s => negb (String.eqb s "")
  | None => false
  end.

(** Truthiness of an optional number property: [undefined] and [0] are
    falsy. *)
Definition truthy_num (o : option Z) : bool :=
  match o with
  | Some n => negb (n =? 0)%Z
  | None => false
  end.

(** ** Filter configuration ([ContentFilters]) *)

(** [tags?: string | string[]] *)
Inductive tags_filter : Type :=
  | TagOne (slug : string)
  | TagMany (slugs : list string).

Record ContentFilters : Type := mkFilters {
  search : option string;
  status : option string;
  type : option string;
  tags : option tags_filter;
  sort : option string;
  limit : option Z;
  offset : option Z
}.

(** [filters = {}] *)
Definition no_filters : ContentFilters :=
  mkFilters None None None None None None None.

(** Truthiness of [filters.tags]: a bare string is truthy when non-empty, an
    array always. *)
Definition truthy_tags (o : option tags_filter) : bool :=
  match o with
  | Some (TagOne s) => negb (String.eqb s "")
  | Some (TagMany _) => true
  | None => false
  end.

(** [Array.isArray(filters.tags) ? filters.tags : [filters.tags]] *)
Definition tags_array (t : tags_filter) : list string :=
  match t with
  | TagOne s => [s]
  | TagMany l => l
  end.

(** [filters.tags && Array.isArray(filters.tags) && filters.tags.length > 1] *)
Definition grouped (o : option tags_filter) : bool :=
  match o with
  | Some (TagMany l) => bool_decide (1 < length l)%nat
  | _ => false
  end.

(** ** The filter query builder

    The local variables [query], [params], [whereConditions] and
    [havingConditions] of [getFilteredContent] / [getFilteredContentCount]
    form the builder state; each [if] block of the source is one step. *)

Record builder : Type := mkBuilder {
  query : string;
  params : list param;
  whereConditions : list string;
  havingConditions : list string
}.

Definition list_select : string :=
  LF +:+ TAB +:+ TAB +:+ TAB +:+ "SELECT DISTINCT c.id" +:+
  LF +:+ TAB +:+ TAB +:+ TAB +:+ "FROM content c" +:+
  LF +:+ TAB +:+ TAB.

Definition count_select : string :=
  "SELECT COUNT(DISTINCT c.id) as total FROM content c".

Definition tags_join : string :=
  LF +:+ "          JOIN content_to_tags ctt ON c.id = ctt.content_id" +:+
  LF +:+ "          JOIN tags t ON ctt.tag_id = t.id" +:+
  LF +:+ "        ".

(** The text before the sub-query in the grouped count statement. *)
Definition count_groups_open : string :=
  "SELECT COUNT(" +:+ "*) as total FROM (".

Section Builder.

(** [String.prototype.trim], a built-in of the host language. *)
Variable trim : string -> string.

(** [filters.search?.trim()] as a condition. *)
Definition searching (filters : ContentFilters) : bool :=
  match search filters with
  | Some s => negb (String.eqb (trim s) "")
  | None => false
  end.

(** The query string handed to the search adapter. *)
Definition search_query (filters : ContentFilters) : string :=
  match search filters with
  | Some s => trim s
  | None => ""
  end.

(** [whereConditions.push(`c.id IN (...)`); params.push(...contentIds)] *)
Definition add_search (filters : ContentFilters) (contentIds : list string)
    (b : builder) : builder :=
  if searching filters then
    mkBuilder (query b)
      (params b ++ map PStr contentIds)
      (whereConditions b ++ ["c.id IN (" +:+ placeholders contentIds +:+ ")"])
      (havingConditions b)
  else b.

(** [if (filters.status !== 'all') { ... }] *)
Definition add_status (filters : ContentFilters) (b : builder) : builder :=
  if bool_decide (status filters = Some "all") then b
  else
    mkBuilder (query b)
      (if truthy_str (status filters)
       then params b ++ [PStr (default "" (status filters))]
       else params b)
      (whereConditions b ++
         [if truthy_str (status filters) then "c.status = ?"
          else "c.status = 'published'"])
      (havingConditions b).

(** [if (filters.type) { ... }] *)
Definition add_type (filters : ContentFilters) (b : builder) : builder :=
  if truthy_str (type filters) then
    mkBuilder (query b)
      (params b ++ [PStr (default "" (type filters))])
      (whereConditions b ++ ["c.type = ?"])
      (havingConditions b)
  else b.

(** [if (filters.tags) { const tags = ...; if (tags.length > 0) { ... } }] *)
Definition add_tags (filters : ContentFilters) (b : builder) : builder :=
  if truthy_tags (tags filters) then
    let tags := from_option tags_array [] (tags filters) in
    if bool_decide (0 < length tags)%nat then
      let b1 :=
        mkBuilder (query b +:+ tags_join)
          (params b ++ map PStr tags)
          (whereConditions b ++ ["t.slug IN (" +:+ placeholders tags +:+ ")"])
          (havingConditions b) in
      if bool_decide (1 < length tags)%nat then
        mkBuilder (query b1)
          (params b1 ++ [PNum (Z.of_nat (length tags))])
          (whereConditions b1)
          (havingConditions b1 ++ ["COUNT(DISTINCT t.slug) = ?"])
      else b1
    else b
  else b.

(** [if (whereConditions.length > 0) query += ' WHERE ' + ...] *)
Definition add_where (b : builder) : builder :=
  if bool_decide (0 < length (whereConditions b))%nat then
    mkBuilder (query b +:+ " WHERE " +:+ join " AND " (whereConditions b))
      (params b) (whereConditions b) (havingConditions b)
  else b.

(** The [GROUP BY] / [HAVING] block shared by both variants. *)
Definition add_group (filters : ContentFilters) (b : builder) : builder :=
  if grouped (tags filters) then
    let q := query b +:+ " GROUP BY c.id" in
    mkBuilder
      (if bool_decide (0 < length (havingConditions b))%nat
       then q +:+ " HAVING " +:+ join " AND " (havingConditions b)
       else q)
      (params b) (whereConditions b) (havingConditions b)
  else b.

(** The count variant wraps the grouped statement in an outer count over
    the sub-query, inside the same [if] as the grouping. *)
Definition wrap_count (filters : ContentFilters) (b : builder) : builder :=
  if grouped (tags filters) then
    mkBuilder (count_groups_open +:+ query b +:+ ")")
      (params b) (whereConditions b) (havingConditions b)
  else b.

Definition order_by (filters : ContentFilters) : string :=
  if bool_decide (sort filters = Some "latest") then
    "c.published_at DESC, c.created_at DESC"
  else if bool_decide (sort filters = Some "oldest") then
    "c.published_at ASC, c.created_at ASC"
  else if bool_decide (sort filters = Some "popular") then
    "c.likes DESC, c.saves DESC"
  else "c.published_at DESC, c.created_at DESC".

Definition add_order (filters : ContentFilters) (b : builder) : builder :=
  mkBuilder (query b +:+ " ORDER BY " +:+ order_by filters)
    (params b) (whereConditions b) (havingConditions b).

(** [if (filters.limit) { ...; if (filters.offset) { ... } }] *)
Definition add_pagination (filters : ContentFilters) (b : builder) : builder :=
  if truthy_num (limit filters) then
    let b1 :=
      mkBuilder (query b +:+ " LIMIT ?")
        (params b ++ [PNum (default 0%Z (limit filters))])
        (whereConditions b) (havingConditions b) in
    if truthy_num (offset filters) then
      mkBuilder (query b1 +:+ " OFFSET ?")
        (params b1 ++ [PNum (default 0%Z (offset filters))])
        (whereConditions b1) (havingConditions b1)
    else b1
  else b.

(** The builder after the four predicate blocks (search, status, type,
    tags), which the two variants share line for line; [select] is the
    text [query] starts from. *)
Definition conditions (select : string) (filters : ContentFilters)
    (contentIds : list string) : builder :=
  add_tags filters
    (add_type filters
      (add_status filters
        (add_search filters contentIds (mkBuilder select [] [] [])))).

(** The list statement up to and including [ORDER BY]. *)
Definition list_sorted (filters : ContentFilters) (contentIds : list string)
    : builder :=
  add_order filters
    (add_group filters (add_where (conditions list_select filters contentIds))).

(** The statement [getFilteredContent] prepares, or [None] when it returns
    [[]] before preparing one (search set, no candidate). *)
Definition list_query (filters : ContentFilters) (contentIds : list string)
    : option builder :=
  if searching filters && bool_decide (contentIds = []) then None
  else Some (add_pagination filters (list_sorted filters contentIds)).

(** The statement [getFilteredContentCount] prepares; its early return is
    taken before the builder starts (see [getFilteredContentCount]). *)
Definition count_query (filters : ContentFilters) (contentIds : list string)
    : builder :=
  wrap_count filters
    (add_group filters (add_where (conditions count_select filters contentIds))).

End Builder.

(** ** The store: state, journal and failures

    [db] is a handle on a relational store.  A [store T] holds the tables
    (of type [T]), whether a transaction is open, a journal of everything
    the code asked of the store, and a fault plan: the [k]-th request
    (counting from 0 over the lifetime of the handle) throws when
    [faults k = true].  The plan stands for every cause of a store-level
    failure that the tables of the model do not decide (I/O errors, locks,
    constraints of the schema that are not modelled); a request that throws
    leaves the tables unchanged. *)

(** The statements of the source; the text of the static ones is quoted
    where they are used, the built ones carry their text. *)
Inductive statement : Type :=
  | SelectContentById      (* SELECT * FROM content WHERE id = ? *)
  | SelectTagsOfContent    (* SELECT t.id, ... FROM tags t JOIN content_to_tags ctt
                              ON t.id = ctt.tag_id WHERE ctt.content_id = ? *)
  | SelectChildById        (* SELECT c.* FROM content c WHERE c.id = ? *)
  | SelectTagsOfChild      (* as SelectTagsOfContent, prepared for the children *)
  | InsertContent          (* INSERT INTO content (...) VALUES (...) *)
  | InsertContentTag       (* INSERT INTO content_to_tags (content_id, tag_id)
                              VALUES (?, ?) *)
  | UpdateContent          (* UPDATE content SET ... WHERE id = ? *)
  | DeleteContentTags      (* DELETE FROM content_to_tags WHERE content_id = ? *)
  | DeleteContent          (* DELETE FROM content WHERE id = ? *)
  | RemoveTags             (* DELETE FROM content_to_tags WHERE content_id =
                              @contentId AND tag_id NOT IN (?,...) *)
  | UpsertTags             (* INSERT INTO content_to_tags (content_id, tag_id)
                              SELECT @contentId, tags.id FROM tags
                              WHERE tags.id in (?,...) ON CONFLICT DO NOTHING *)
  | Built (sql : string).  (* a statement assembled by the query builder *)

Inductive txn_command : Type := BEGIN_TRANSACTION | COMMIT | ROLLBACK.

Inductive event : Type :=
  | EvExec (c : txn_command)                       (* db.exec(...) *)
  | EvPrepare (st : statement)                     (* db.prepare(...) *)
  | EvStep (st : statement) (args : list param)    (* stmt.get / all / run *)
  | EvSearch (q : string)                          (* searchService.search *)
  | EvRowInserted (content_id tag_id : param)      (* a content_to_tags row written *)
  | EvRowDeleted (content_id tag_id : param).      (* a content_to_tags row removed *)

Inductive exn : Type :=
  | StoreFailure (request : nat)    (* raised by the fault plan *)
  | ConstraintFailure               (* uniqueness of a content_to_tags pair *)
  | SyntaxError                     (* raised by JSON.parse *)
  | BindingFailure.                 (* a placeholder of a statement run without
                                       a value *)

Record store (T : Type) : Type := mkStore {
  tables : T;
  in_txn : bool;
  journal : list event;
  ticks : nat;
  faults : nat -> bool
}.
Arguments mkStore {T} _ _ _ _ _.
Arguments tables {T} _.
Arguments in_txn {T} _.
Arguments journal {T} _.
Arguments ticks {T} _.
Arguments faults {T} _.

Inductive outcome (A : Type) : Type :=
  | Ret (a : A)
  | Throw (e : exn).
Arguments Ret {A} _.
Arguments Throw {A} _.

(** Computations over the store that return or throw. *)
Definition M (T A : Type) : Type := store T -> outcome A * store T.

Definition ret {T A} (a : A) : M T A := fun s => (Ret a, s).

Definition bind {T A B} (m : M T A) (k : A -> M T B) : M T B :=
  fun s =>
    match m s with
    | (Ret a, s') => k a s'
    | (Throw e, s') => (Throw e, s')
    end.

Definition throw {T A} (e : exn) : M T A := fun s => (Throw e, s).

(** [try { body } catch (e) { handler }] *)
Definition try_catch {T A} (body : M T A) (handler : exn -> M T A) : M T A :=
  fun s =>
    match body s with
    | (Ret a, s') => (Ret a, s')
    | (Throw e, s') => handler e s'
    end.

Declare Scope store_scope.
Delimit Scope store_scope with M.
Notation "'let*' x ':=' m 'in' k" := (bind m (fun x => k))
  (at level 10, x name, m at level 100, k at level 200) : store_scope.
Notation "m '>>' k" := (bind m (fun _ => k))
  (at level 90, right associativity) : store_scope.

(** One request to the store: it is journalled, counted, and throws when
    the fault plan says so. *)
Definition tick {T} (ev : event) : M T unit :=
  fun s =>
    let s' := mkStore (tables s) (in_txn s) (journal s ++ [ev])
                (S (ticks s)) (faults s) in
    if faults s (ticks s) then (Throw (StoreFailure (ticks s)), s')
    else (Ret tt, s').

(** [db.exec('BEGIN TRANSACTION' | 'COMMIT' | 'ROLLBACK')].

    This is the behaviour on a handle that has no transaction open when the
    layer is entered: [BEGIN] opens one unless the fault plan fails it,
    [COMMIT] and [ROLLBACK] close it, and since the layer writes nothing
    between its [BEGIN] and the end of the transaction, ending it leaves the
    tables as they are.  On a handle on which the caller has a transaction
    open, the store refuses the [BEGIN] and the [ROLLBACK] of the handler
    discards what the caller wrote; the tables of the model do not show
    that, so a statement about the tables after a transaction of the layer
    is one about handles with [in_txn = false] on entry. *)
Definition exec {T} (c : txn_command) : M T unit :=
  (tick (EvExec c) >>
   fun s =>
     (Ret tt,
      mkStore (tables s)
        (match c with BEGIN_TRANSACTION => true | _ => false end)
        (journal s) (ticks s) (faults s)))%M.

(** [db.prepare(sql)] *)
Definition prepare {T} (st : statement) : M T unit := tick (EvPrepare st).

(** [stmt.get(...)] / [stmt.all(...)]: a read, answered from the tables. *)
Definition read {T A} (st : statement) (args : list param) (sem : T -> A) : M T A :=
  (tick (EvStep st args) >> fun s => (Ret (sem (tables s)), s))%M.

(** [stmt.run(...)]: a write.  [sem] gives the result, the new tables and the
    rows of content_to_tags it touched, or the failure the statement raises
    by itself. *)
Definition write {T A} (st : statement) (args : list param)
    (sem : T -> exn + (A * T * list event)) : M T A :=
  (tick (EvStep st args) >>
   fun s =>
     match sem (tables s) with
     | inl e => (Throw e, s)
     | inr (a, t', evs) =>
         (Ret a, mkStore t' (in_txn s) (journal s ++ evs) (ticks s) (faults s))
     end)%M.

(** The search adapter is an external collaborator, not the primary store:
    the call is journalled but is not a request to the store. *)
Definition search_call {T} (adapter : T -> string -> list string) (q : string)
    : M T (list string) :=
  fun s =>
    (Ret (adapter (tables s) q),
     mkStore (tables s) (in_txn s) (journal s ++ [EvSearch q]) (ticks s) (faults s)).

(** [for (const x of xs) { ... push ... }] and [xs.map(f)] with an effectful
    body. *)
Fixpoint for_each {T A B} (f : A -> M T B) (xs : list A) : M T (list B) :=
  match xs with
  | [] => ret []
  | x :: xs' => (let* y := f x in let* ys := for_each f xs' in ret (y :: ys))%M
  end.

(** An event is a request to the primary store. *)
Definition store_request (ev : event) : bool :=
  match ev with
  | EvExec _ | EvPrepare _ | EvStep _ _ => true
  | _ => false
  end.

(** ** [ContentService]: tables and aggregates *)

Module ContentService.

(** A row of [content] (identifiers are UUID strings on this path). *)
Record content_row : Type := mkRow {
  row_id : string;
  row_title : string;
  row_slug : string;
  row_description : string;
  row_type : string;
  row_status : string;
  row_body : string;
  row_children : option string;       (* serialized list, or NULL *)
  row_created_at : string;
  row_updated_at : string;
  row_published_at : option string;   (* NULL unless published *)
  row_likes : Z;
  row_saves : Z
}.

(** The columns of [tags] that the service selects. *)
Record Tag : Type := mkTag {
  tag_id : string;
  tag_name : string;
  tag_slug : string;
  tag_created_at : string;
  tag_updated_at : string
}.

Record db_tables : Type := mkTables {
  content : list content_row;
  tag_table : list Tag;
  content_to_tags : list (string * string)    (* (content_id, tag_id) *)
}.

(** [Content] as the service returns it: the row, [tags], and [children],
    which is either still the stored column value or the resolved array. *)
Inductive Content : Type :=
  | mkContent (row : content_row) (tags : list Tag) (children : children_value)
with children_value : Type :=
  | Stored (raw : option string)
  | Resolved (items : list Content).

Definition content_row_of (c : Content) : content_row :=
  match c with mkContent r _ _ => r end.
Definition content_tags (c : Content) : list Tag :=
  match c with mkContent _ t _ => t end.
Definition content_children (c : Content) : children_value :=
  match c with mkContent _ _ ch => ch end.
Definition content_id (c : Content) : string := row_id (content_row_of c).

(** What [JSON.parse(content.children)] can do. *)
Inductive parsed : Type :=
  | ParseThrows                        (* not JSON *)
  | ParsedOther                        (* JSON, but not an array *)
  | ParsedArray (ids : list string).   (* an array of identifiers *)

(** *** Meaning of the static statements on the tables *)

(** [SELECT * FROM content WHERE id = ?] with [.get]: the first match. *)
Definition select_content (id : string) (t : db_tables) : option content_row :=
  List.find (fun r => String.eqb (row_id r) id) (content t).

(** [SELECT t.* FROM tags t JOIN content_to_tags ctt ON t.id = ctt.tag_id
    WHERE ctt.content_id = ?] with [.all]; the order of the answer is the
    store's, here tags outermost. *)
Definition select_tags (id : string) (t : db_tables) : list Tag :=
  flat_map
    (fun tg =>
       map (fun _ => tg)
         (List.filter
            (fun p => String.eqb (fst p) id && String.eqb (snd p) (tag_id tg))
            (content_to_tags t)))
    (tag_table t).

Definition has_pair (c tg : string) (l : list (string * string)) : bool :=
  existsb (fun p => String.eqb (fst p) c && String.eqb (snd p) tg) l.

(** [INSERT INTO content (...) VALUES (...)] *)
Definition insert_content (r : content_row) (t : db_tables)
    : exn + (unit * db_tables * list event) :=
  inr (tt, mkTables (content t ++ [r]) (tag_table t) (content_to_tags t), []).

(** Modelled from the spec: the schema of [content_to_tags] is not in the
    source; the spec gives it "uniqueness on the pair", so inserting a
    pair that is present fails.

    [INSERT INTO content_to_tags (content_id, tag_id) VALUES (?, ?)] *)
Definition insert_content_tag (c tg : string) (t : db_tables)
    : exn + (unit * db_tables * list event) :=
  if has_pair c tg (content_to_tags t) then inl ConstraintFailure
  else
    inr (tt,
         mkTables (content t) (tag_table t) (content_to_tags t ++ [(c, tg)]),
         [EvRowInserted (PStr c) (PStr tg)]).

(** [DELETE FROM content_to_tags WHERE content_id = ?] *)
Definition delete_content_tags (c : string) (t : db_tables)
    : exn + (unit * db_tables * list event) :=
  inr (tt,
       mkTables (content t) (tag_table t)
         (List.filter (fun p => negb (String.eqb (fst p) c)) (content_to_tags t)),
       map (fun p => EvRowDeleted (PStr (fst p)) (PStr (snd p)))
         (List.filter (fun p => String.eqb (fst p) c) (content_to_tags t))).

(** The [CASE] of the [UPDATE]: column names on the right of [SET] denote
    the row before the update. *)
Definition published_at_case (old : content_row) (new_status now : string)
    : option string :=
  if negb (String.eqb (row_status old) "published")
     && String.eqb new_status "published"
  then Some now
  else if String.eqb (row_status old) "published"
          && negb (String.eqb new_status "published")
  then None
  else row_published_at old.

(** The data of [addContent] / [updateContent]. *)
Record content_data : Type := mkData {
  title : string;
  slug : string;
  description : string;
  data_type : string;
  data_status : string;
  body : string;
  data_tags : list string
}.

(** [UPDATE content SET title = ?, slug = ?, description = ?, type = ?,
    status = ?, body = ?, updated_at = ?, published_at = CASE ... END
    WHERE id = ?] *)
Definition update_row (id : string) (data : content_data) (now : string)
    (r : content_row) : content_row :=
  if String.eqb (row_id r) id then
    mkRow (row_id r) (title data) (slug data) (description data)
      (data_type data) (data_status data) (body data) (row_children r)
      (row_created_at r) now
      (published_at_case r (data_status data) now)
      (row_likes r) (row_saves r)
  else r.

Definition update_content_row (id : string) (data : content_data) (now : string)
    (t : db_tables) : exn + (unit * db_tables * list event) :=
  inr (tt,
       mkTables (map (update_row id data now) (content t)) (tag_table t)
         (content_to_tags t),
       []).

(** *** The methods of the class *)

Section Methods.

(** Built-ins and collaborators that are not code of the class. *)
Variable trim : string -> string.                     (* String.prototype.trim *)
Variable parse_children : string -> parsed.           (* JSON.parse *)
Variable search_adapter : db_tables -> string -> list string.
(** The store's answers to the statements assembled by the builder. *)
Variable eval_list_query : string -> list param -> db_tables -> list string.
Variable eval_count_query : string -> list param -> db_tables -> option Z.

Local Abbreviation SM := (M db_tables).
Local Open Scope store_scope.

(** The body of the [for (const childId of childrenIds)] loop: a child
    that is found gets its tags and an empty children array; one that is
    not found contributes nothing. *)
Definition load_child (childId : string) : SM (option Content) :=
  let* childContent :=
    read SelectChildById [PStr childId] (select_content childId) in
  match childContent with
  | Some r =>
      let* childTags :=
        read SelectTagsOfChild [PStr childId] (select_tags childId) in
      ret (Some (mkContent r childTags (Resolved [])))
  | None => ret None
  end.

(** The inner [try] block of [getContentById]; the result is the new
    value of [content.children]. *)
Definition load_children (raw : string) : SM children_value :=
  match parse_children raw with
  | ParseThrows => throw SyntaxError
  | ParsedOther => ret (Stored (Some raw))
  | ParsedArray childrenIds =>
      if bool_decide (0 < length childrenIds)%nat then
        prepare SelectChildById >>
        prepare SelectTagsOfChild >>
        let* found := for_each load_child childrenIds in
        ret (Resolved (omap id found))
      else ret (Stored (Some raw))
  end.

Definition getContentById (id : string) : SM (option Content) :=
  if String.eqb id "" then ret None
  else
    try_catch
      (exec BEGIN_TRANSACTION >>
       prepare SelectContentById >>
       let* content := read SelectContentById [PStr id] (select_content id) in
       match content with
       | None => exec ROLLBACK >> ret None
       | Some r =>
           prepare SelectTagsOfContent >>
           let* tags := read SelectTagsOfContent [PStr id] (select_tags id) in
           let* children :=
             match row_children r with
             | Some raw =>
                 if String.eqb (row_type r) "collection" then
                   try_catch (load_children raw) (fun _ => ret (Resolved []))
                 else ret (Stored (row_children r))
             | None => ret (Stored (row_children r))
             end in
           exec COMMIT >>
           ret (Some (mkContent r tags children))
       end)
      (fun _ =>
         try_catch (exec ROLLBACK) (fun _ => ret tt) >>
         ret None).

Definition getFilteredContent (filters : ContentFilters) : SM (list Content) :=
  let* contentIds :=
    if searching trim filters
    then search_call search_adapter (search_query trim filters)
    else ret [] in
  match list_query trim filters contentIds with
  | None => ret []
  | Some b =>
      prepare (Built (query b)) >>
      let* ids :=
        read (Built (query b)) (params b)
          (eval_list_query (query b) (params b)) in
      let* hydrated := for_each getContentById ids in
      ret (omap id hydrated)
  end.

Definition getFilteredContentCount (filters : ContentFilters) : SM Z :=
  let* contentIds :=
    if searching trim filters
    then search_call search_adapter (search_query trim filters)
    else ret [] in
  if searching trim filters && bool_decide (contentIds = []) then ret 0%Z
  else
    let b := count_query trim filters contentIds in
    prepare (Built (query b)) >>
    let* result :=
      read (Built (query b)) (params b)
        (eval_count_query (query b) (params b)) in
    ret (default 0%Z result).

(** [for (const tag of data.tags) insertTagStmt.run(id, tag)], guarded by
    [data.tags.length > 0]. *)
Definition insert_tags (id : string) (tags : list string) : SM unit :=
  if bool_decide (0 < length tags)%nat then
    prepare InsertContentTag >>
    let* _ :=
      for_each
        (fun tag =>
           write InsertContentTag [PStr id; PStr tag] (insert_content_tag id tag))
        tags in
    ret tt
  else ret tt.

(** [addContent]; [id] is the value of [crypto.randomUUID()] and [now]
    that of [new Date().toISOString()]. *)
Definition addContent (id now : string) (data : content_data) : SM string :=
  prepare InsertContent >>
  write InsertContent
    [PStr id; PStr (title data); PStr (slug data); PStr (description data);
     PStr (data_type data); PStr (data_status data); PStr (body data);
     PStr now; PStr now;
     if String.eqb (data_status data) "published" then PStr now else PNull]
    (insert_content
       (mkRow id (title data) (slug data) (description data)
          (data_type data) (data_status data) (body data) None now now
          (if String.eqb (data_status data) "published" then Some now else None)
          0 0)) >>
  insert_tags id (data_tags data) >>
  ret id.

(** [updateContent]; [now] is the value of [new Date().toISOString()]. *)
Definition updateContent (now : string) (id : string) (data : content_data)
    : SM unit :=
  prepare UpdateContent >>
  write UpdateContent
    [PStr (title data); PStr (slug data); PStr (description data);
     PStr (data_type data); PStr (data_status data); PStr (body data);
     PStr now; PStr (data_status data); PStr now; PStr (data_status data);
     PStr id]
    (update_content_row id data now) >>
  prepare DeleteContentTags >>
  write DeleteContentTags [PStr id] (delete_content_tags id) >>
  insert_tags id (data_tags data).

End Methods.

End ContentService.

(** ** The function-style content module

    The second half of the source: free functions over the module-level
    handle [db], with numeric identifiers (row ids). *)

Module Db.

Record content_row : Type := mkRow {
  row_id : Z;
  row_title : string;
  row_type : string;
  row_status : option string;
  row_body : option string;
  row_rendered_body : option string;
  row_slug : string;
  row_description : option string;
  row_metadata : option string;       (* serialized document, or NULL *)
  row_children : option string;       (* serialized list, or NULL *)
  row_created_at : string;
  row_updated_at : string;
  row_published_at : option string;
  row_likes : Z;
  row_saves : Z
}.

Record db_tables : Type := mkTables {
  content : list content_row;
  tag_ids : list Z;                        (* the [id] column of [tags] *)
  content_to_tags : list (Z * Z);          (* (content_id, tag_id) *)
  last_rowid : Z                           (* largest row id handed out *)
}.

(** [ContentInput]; [metadata] is kept as the text of the document. *)
Record ContentInput : Type := mkInput {
  title : string;
  type : string;
  status : option string;
  body : option string;
  rendered_body : option string;
  slug : string;
  description : option string;
  metadata : option string;
  children : option (list Z);
  tags : option (list Z)
}.

Definition has_pair (c tg : Z) (l : list (Z * Z)) : bool :=
  existsb (fun p => (fst p =? c)%Z && (snd p =? tg)%Z) l.

Definition mem (x : Z) (l : list Z) : bool := existsb (Z.eqb x) l.

(** *** Meaning of the statements on the tables *)

(** [DELETE FROM content WHERE id = ?]; the result is [changes]. *)
Definition delete_row (id : Z) (t : db_tables)
    : exn + (Z * db_tables * list event) :=
  inr (Z.of_nat (length (List.filter (fun r => (row_id r =? id)%Z) (content t))),
       mkTables (List.filter (fun r => negb (row_id r =? id)%Z) (content t))
         (tag_ids t) (content_to_tags t) (last_rowid t),
       []).

(** [DELETE FROM content_to_tags WHERE content_id = @contentId AND tag_id
    NOT IN (?,...)] *)
Definition remove_tags (contentId : Z) (tags : list Z) (t : db_tables)
    : exn + (unit * db_tables * list event) :=
  let stale p := (fst p =? contentId)%Z && negb (mem (snd p) tags) in
  inr (tt,
       mkTables (content t) (tag_ids t)
         (List.filter (fun p => negb (stale p)) (content_to_tags t))
         (last_rowid t),
       map (fun p => EvRowDeleted (PNum (fst p)) (PNum (snd p)))
         (List.filter stale (content_to_tags t))).

(** One row of the [INSERT ... SELECT ... ON CONFLICT DO NOTHING]: a pair
    that is present is left alone. *)
Definition upsert_pair (contentId : Z) (acc : list (Z * Z) * list event) (tg : Z)
    : list (Z * Z) * list event :=
  if has_pair contentId tg (fst acc) then acc
  else (fst acc ++ [(contentId, tg)],
        snd acc ++ [EvRowInserted (PNum contentId) (PNum tg)]).

(** Modelled from the spec: the schema of [content_to_tags] is not in the
    source; the spec gives it "uniqueness on the pair", which is the
    conflict that [ON CONFLICT DO NOTHING] skips.

    [INSERT INTO content_to_tags (content_id, tag_id) SELECT @contentId,
    tags.id FROM tags WHERE tags.id in (?,...) ON CONFLICT DO NOTHING]:
    the rows come from the [tags] table. *)
Definition upsert_tags (contentId : Z) (tags : list Z) (t : db_tables)
    : exn + (unit * db_tables * list event) :=
  let selected := List.filter (fun tg => mem tg tags) (tag_ids t) in
  let r := fold_left (upsert_pair contentId) selected (content_to_tags t, []) in
  inr (tt, mkTables (content t) (tag_ids t) (fst r) (last_rowid t), snd r).

(** [stmt.run({ contentId }, ...tags)].  [db] is a [Database] of
    [bun:sqlite] (line 2 of the source).  Its [run], given an object as
    first argument, binds the named parameters of the statement from that
    object and does not use the arguments that follow: [@contentId] gets its
    value, a positional placeholder of the text gets none, and the call
    then throws before the statement runs.  [positional] is the number of
    [?] in the text of the statement; this is behaviour of the library,
    which the source relies on. *)
Definition run_with_object {A} (positional : nat)
    (sem : db_tables -> exn + A) (t : db_tables) : exn + A :=
  if bool_decide (0 < positional)%nat then inl BindingFailure else sem t.

Section Functions.

(** Parts of the program and of its host that are not in the source. *)
Variable DRAFT : string.                       (* Status.DRAFT *)
Variable stringify_ids : list Z -> string.     (* JSON.stringify *)
(** The value of [CURRENT_TIMESTAMP] and the schema's defaults of the
    columns that the [INSERT] does not list. *)
Variable now : string.
Variable default_published_at : option string.
Variable default_likes default_saves : Z.

Local Abbreviation SM := (M db_tables).
Local Open Scope store_scope.

(** [INSERT INTO content (title, type, status, body, rendered_body, slug,
    description, metadata, children, created_at, updated_at) VALUES
    (...)]; the result is [lastInsertRowid]. *)
Definition insert_row (title type : string) (status body rendered_body : option string)
    (slug : string) (description metadata children : option string)
    (t : db_tables) : exn + (Z * db_tables * list event) :=
  let rowid := (last_rowid t + 1)%Z in
  inr (rowid,
       mkTables
         (content t ++
            [mkRow rowid title type status body rendered_body slug description
               metadata children now now default_published_at
               default_likes default_saves])
         (tag_ids t) (content_to_tags t) rowid,
       []).

(** [UPDATE content SET title = @title, ..., children = @children,
    updated_at = CURRENT_TIMESTAMP WHERE id = @id]; the result is
    [changes]. *)
Definition update_row (input : ContentInput) (id : Z) (r : content_row)
    : content_row :=
  if (row_id r =? id)%Z then
    mkRow (row_id r) (title input) (type input) (status input) (body input)
      (rendered_body input) (slug input) (description input)
      (metadata input) (stringify_ids <$> children input)
      (row_created_at r) now (row_published_at r)
      (row_likes r) (row_saves r)
  else r.

Definition update_rows (input : ContentInput) (id : Z) (t : db_tables)
    : exn + (Z * db_tables * list event) :=
  inr (Z.of_nat (length (List.filter (fun r => (row_id r =? id)%Z) (content t))),
       mkTables (map (update_row input id) (content t)) (tag_ids t)
         (content_to_tags t) (last_rowid t),
       []).

(** [update_content_tags]: both texts have one [?] for each tag
    ([tags.map((_) => '?')]), and both statements are run with the object
    [{ contentId }] followed by the tags. *)
Definition update_content_tags (contentId : Z) (tags : list Z) : SM unit :=
  prepare RemoveTags >>
  prepare UpsertTags >>
  try_catch
    (write RemoveTags (PNum contentId :: map PNum tags)
       (run_with_object (length tags) (remove_tags contentId tags)) >>
     write UpsertTags (PNum contentId :: map PNum tags)
       (run_with_object (length tags) (upsert_tags contentId tags)))
    (fun _ => ret tt).

Definition delete_content (id : Z) : SM bool :=
  prepare DeleteContent >>
  try_catch
    (let* changes := write DeleteContent [PNum id] (delete_row id) in
     ret (0 <? changes)%Z)
    (fun _ => ret false).

Definition create_content (input : ContentInput) : SM (option Z) :=
  let status := default DRAFT (status input) in
  prepare InsertContent >>
  try_catch
    (let* rowid :=
       write InsertContent
         [PStr (title input); PStr (type input); PStr status;
          str_or_null (body input); str_or_null (rendered_body input);
          PStr (slug input); str_or_null (description input);
          str_or_null (metadata input);
          str_or_null (stringify_ids <$> children input)]
         (insert_row (title input) (type input) (Some status) (body input)
            (rendered_body input) (slug input) (description input)
            (metadata input) (stringify_ids <$> children input)) in
     update_content_tags rowid (default [] (tags input)) >>
     ret (Some rowid))
    (fun _ => ret None).

Definition update_content (input : ContentInput) (id : Z) : SM bool :=
  prepare UpdateContent >>
  try_catch
    (let* changes :=
       write UpdateContent
         [PNum id; PStr (title input); PStr (type input);
          str_or_null (status input); str_or_null (body input);
          str_or_null (rendered_body input); PStr (slug input);
          str_or_null (description input); str_or_null (metadata input);
          str_or_null (stringify_ids <$> children input)]
         (update_rows input id) in
     update_content_tags id (default [] (tags input)) >>
     ret (0 <? changes)%Z)
    (fun _ => ret false).

End Functions.

End Db.

(** ** Vocabulary for the statements about the builder *)

(** The two variants of the builder. *)
Inductive variant : Type := ListVariant | CountVariant.

(** The statement a variant hands to the store for the candidate ids
    [contentIds] that the search adapter returned, or [None] when the variant
    returns before preparing one. *)
Definition statement_of (v : variant) (trim : string -> string)
    (filters : ContentFilters) (contentIds : list string) : option builder :=
  match v with
  | ListVariant => list_query trim filters contentIds
  | CountVariant =>
      if searching trim filters && bool_decide (contentIds = []) then None
      else Some (count_query trim filters contentIds)
  end.

Definition with_status (st : option string) (f : ContentFilters) : ContentFilters :=
  mkFilters (search f) st (type f) (tags f) (sort f) (limit f) (offset f).

Definition without_pagination (f : ContentFilters) : ContentFilters :=
  mkFilters (search f) (status f) (type f) (tags f) (sort f) None None.

(** The parts of the [WHERE] list and of the parameter list, in the order of
    the blocks that push them. *)
Definition search_conditions (trim : string -> string) (f : ContentFilters)
    (contentIds : list string) : list string :=
  if searching trim f then ["c.id IN (" +:+ placeholders contentIds +:+ ")"] else [].

Definition search_params (trim : string -> string) (f : ContentFilters)
    (contentIds : list string) : list param :=
  if searching trim f then map PStr contentIds else [].

Definition status_conditions (f : ContentFilters) : list string :=
  match status f with
  | None => ["c.status = 'published'"]
  | Some s =>
      if bool_decide (s = "all") then []
      else if bool_decide (s = "") then ["c.status = 'published'"]
      else ["c.status = ?"]
  end.

Definition status_params (f : ContentFilters) : list param :=
  match status f with
  | None => []
  | Some s =>
      if bool_decide (s = "all") then []
      else if bool_decide (s = "") then []
      else [PStr s]
  end.

Definition type_conditions (f : ContentFilters) : list string :=
  if truthy_str (type f) then ["c.type = ?"] else [].

Definition type_params (f : ContentFilters) : list param :=
  if truthy_str (type f) then [PStr (default "" (type f))] else [].

(** The tag slugs that take part in the statement. *)
Definition tag_slugs (f : ContentFilters) : list string :=
  if truthy_tags (tags f) then from_option tags_array [] (tags f) else [].

Definition tag_conditions (f : ContentFilters) : list string :=
  if bool_decide (0 < length (tag_slugs f))%nat
  then ["t.slug IN (" +:+ placeholders (tag_slugs f) +:+ ")"] else [].

Definition tag_params (f : ContentFilters) : list param :=
  map PStr (tag_slugs f) ++
  (if bool_decide (1 < length (tag_slugs f))%nat
   then [PNum (Z.of_nat (length (tag_slugs f)))] else []).

Definition join_text (f : ContentFilters) : string :=
  if bool_decide (0 < length (tag_slugs f))%nat then tags_join else "".

Definition where_text (conds : list string) : string :=
  if bool_decide (0 < length conds)%nat then " WHERE " +:+ join " AND " conds else "".

Definition group_text (f : ContentFilters) : string :=
  if bool_decide (1 < length (tag_slugs f))%nat
  then " GROUP BY c.id HAVING COUNT(DISTINCT t.slug) = ?" else "".

Definition pagination_text (f : ContentFilters) : string :=
  if truthy_num (limit f)
  then " LIMIT ?" +:+ (if truthy_num (offset f) then " OFFSET ?" else "")
  else "".

Definition pagination_params (f : ContentFilters) : list param :=
  if truthy_num (limit f)
  then PNum (default 0 (limit f)) ::
       (if truthy_num (offset f) then [PNum (default 0 (offset f))] else [])
  else [].

(** A condition of the [WHERE] list is a predicate on the status column. *)
Definition is_status_condition (c : string) : bool := String.prefix "c.status" c.

(** The text a variant starts from and the text and parameters it adds
    after the grouping. *)
Definition select_text (v : variant) : string :=
  match v with
  | ListVariant => list_select
  | CountVariant => count_select
  end.

Definition tail_text (v : variant) (f : ContentFilters) : string :=
  match v with
  | ListVariant => " ORDER BY " +:+ order_by f +:+ pagination_text f
  | CountVariant => ""
  end.

Definition tail_params (v : variant) (f : ContentFilters) : list param :=
  match v with
  | ListVariant => pagination_params f
  | CountVariant => []
  end.

(** *** The status switch

    [status_clause_emitted expected] says of the statement [b] built for
    [f]: it is the statement built for the same filters with
    [status = 'all'], which has no predicate on the status column, with the
    conditions and parameters [expected (status f)] put in after those of
    the search. *)
Definition status_clause_emitted
    (expected : option string -> list string * list param)
    (v : variant) (trim : string -> string) (f : ContentFilters)
    (contentIds : list string) (b : builder) : Prop :=
  exists b_all rest rest_params head tail,
    statement_of v trim (with_status (Some "all") f) contentIds = Some b_all /\
    whereConditions b_all = search_conditions trim f contentIds ++ rest /\
    params b_all = search_params trim f contentIds ++ rest_params /\
    Forall (fun c => is_status_condition c = false) (whereConditions b_all) /\
    query b_all = head +:+ where_text (whereConditions b_all) +:+ tail /\
    whereConditions b =
      search_conditions trim f contentIds ++ fst (expected (status f)) ++ rest /\
    params b =
      search_params trim f contentIds ++ snd (expected (status f)) ++ rest_params /\
    query b = head +:+ where_text (whereConditions b) +:+ tail.

(** The switch as the specification words it: unset, the sentinel, any other
    explicit value. *)
Definition status_clause_claimed (st : option string) : list string * list param :=
  match st with
  | None => (["c.status = 'published'"], [])
  | Some s =>
      if bool_decide (s = "all") then ([], [])
      else (["c.status = ?"], [PStr s])
  end.

(** The switch of the code: the empty string counts as unset. *)
Definition status_clause (st : option string) : list string * list param :=
  match st with
  | None => (["c.status = 'published'"], [])
  | Some s =>
      if bool_decide (s = "all") then ([], [])
      else if bool_decide (s = "") then (["c.status = 'published'"], [])
      else (["c.status = ?"], [PStr s])
  end.

(** *** The tags filter

    [tags_clause_emitted slugs] says of the statement [b] built for [f] that
    it filters on the tag slugs [slugs]: nothing when there is none; the
    join and the [IN] list when there is one; the join, the [IN] list, the
    grouping and the count of distinct slugs when there are several. *)
Definition tags_clause_emitted (slugs : list string)
    (v : variant) (trim : string -> string) (f : ContentFilters)
    (contentIds : list string) (b : builder) : Prop :=
  let before :=
    search_conditions trim f contentIds ++ status_conditions f ++ type_conditions f in
  let before_params :=
    search_params trim f contentIds ++ status_params f ++ type_params f in
  match slugs with
  | [] =>
      whereConditions b = before /\
      havingConditions b = [] /\
      params b = before_params ++ tail_params v f /\
      query b = select_text v +:+ where_text before +:+ tail_text v f
  | [s] =>
      whereConditions b = before ++ ["t.slug IN (?)"] /\
      havingConditions b = [] /\
      params b = before_params ++ [PStr s] ++ tail_params v f /\
      query b =
        select_text v +:+ tags_join
          +:+ " WHERE " +:+ join " AND " (before ++ ["t.slug IN (?)"])
          +:+ tail_text v f
  | _ =>
      let conds := before ++ ["t.slug IN (" +:+ placeholders slugs +:+ ")"] in
      let grouped_text :=
        select_text v +:+ tags_join
          +:+ " WHERE " +:+ join " AND " conds
          +:+ " GROUP BY c.id HAVING COUNT(DISTINCT t.slug) = ?" in
      whereConditions b = conds /\
      havingConditions b = ["COUNT(DISTINCT t.slug) = ?"] /\
      params b =
        before_params ++ map PStr slugs ++ [PNum (Z.of_nat (length slugs))]
          ++ tail_params v f /\
      query b =
        match v with
        | ListVariant => grouped_text +:+ tail_text v f
        | CountVariant => count_groups_open +:+ grouped_text +:+ ")"
        end
  end.

(** The value of [COUNT(DISTINCT t.slug)] in the group of one content, whose
    associated tag slugs are [content_slugs], after the filter
    [t.slug IN wanted]: the distinct slugs of the content among [wanted]. *)
Definition distinct_matching (wanted content_slugs : list string) : list string :=
  remove_dups (filter (fun x => x ∈ wanted) content_slugs).

(** The slugs the caller gave: a bare string is one slug. *)
Definition given_slugs (f : ContentFilters) : list string :=
  from_option tags_array [] (tags f).

(** *** Pagination

    [pagination_emitted text ps] says of the list statement [b] built for
    [f] that it is the statement built without [limit] and [offset] followed
    by the text [text] and the parameters [ps]. *)
Definition pagination_emitted (text : string) (ps : list param)
    (trim : string -> string) (f : ContentFilters) (contentIds : list string)
    (b : builder) : Prop :=
  exists b0,
    list_query trim (without_pagination f) contentIds = Some b0 /\
    query b = query b0 +:+ text /\
    params b = params b0 ++ ps /\
    whereConditions b = whereConditions b0 /\
    havingConditions b = havingConditions b0.

(** Pagination as the specification words it: by presence. *)
Definition pagination_text_claimed (f : ContentFilters) : string :=
  match limit f with
  | Some _ => " LIMIT ?" +:+ (match offset f with Some _ => " OFFSET ?" | None => "" end)
  | None => ""
  end.

Definition pagination_params_claimed (f : ContentFilters) : list param :=
  match limit f with
  | Some l => PNum l :: (match offset f with Some o => [PNum o] | None => [] end)
  | None => []
  end.

(** The text of a statement before and after its [WHERE] clause. *)
Definition head_text (v : variant) (f : ContentFilters) : string :=
  match v with
  | ListVariant => list_select +:+ join_text f
  | CountVariant =>
      if bool_decide (1 < length (tag_slugs f))%nat
      then count_groups_open +:+ count_select +:+ join_text f
      else count_select +:+ join_text f
  end.

Definition rest_text (v : variant) (f : ContentFilters) : string :=
  match v with
  | ListVariant => group_text f +:+ tail_text v f
  | CountVariant =>
      if bool_decide (1 < length (tag_slugs f))%nat
      then group_text f +:+ ")" else ""
  end.

(** An instance of [String.prototype.trim] on ASCII strings, for the
    examples. *)
Fixpoint trim_start (s : string) : string :=
  match s with
  | String a s' => if Ascii.is_space a then trim_start s' else s
  | EmptyString => EmptyString
  end.

Definition trim_ascii (s : string) : string :=
  String.rev (trim_start (String.rev (trim_start s))).

(** The character [?]. *)
Definition placeholder_char : Ascii.ascii := Ascii.ascii_of_nat 63.

(** The number of [?] in the text of a statement. *)
Fixpoint count_placeholders (s : string) : nat :=
  match s with
  | EmptyString => 0
  | String a s' =>
      ((if Ascii.eqb a placeholder_char then 1 else 0) + count_placeholders s')%nat
  end.

(** ** Vocabulary for the statements about the store *)

(** No request to the store fails. *)
Definition fault_free {T} (s : store T) : Prop := forall k, faults s k = false.

(** [s'] is a later state of the handle [s]: same fault plan, at least as
    many requests, a journal that extends that of [s]. *)
Definition later {T} (s s' : store T) : Prop :=
  faults s' = faults s /\
  (ticks s <= ticks s')%nat /\
  exists evs, journal s' = journal s ++ evs.

(** A later state with the same tables. *)
Definition read_only {T} (s s' : store T) : Prop :=
  tables s' = tables s /\ later s s'.

(** The postcondition [Q] holds of the outcome and final state of [m] run
    from [s]. *)
Definition wp {T A} (m : M T A) (s : store T)
    (Q : outcome A -> store T -> Prop) : Prop :=
  Q (fst (m s)) (snd (m s)).

(** [m] returns from every state. *)
Definition never_throws {T A} (m : M T A) : Prop :=
  forall s, exists a s', m s = (Ret a, s').

(** The store after one more request [ev] that did not touch the tables. *)
Definition requested {T} (ev : event) (s : store T) : store T :=
  mkStore (tables s) (in_txn s) (journal s ++ [ev]) (S (ticks s)) (faults s).

(** *** Statements about [ContentService] *)

Module ContentServiceSpec.
Import ContentService.

(** A child identifier resolves to a row. *)
Definition resolves (t : db_tables) (childId : string) : bool :=
  match select_content childId t with
  | Some _ => true
  | None => false
  end.

(** The aggregate of a child: its row, its own tags, no children. *)
Definition resolve_child (t : db_tables) (childId : string) : option Content :=
  (fun r => mkContent r (select_tags childId t) (Resolved []))
    <$> select_content childId t.

(** Modelled from the spec: the aggregate [c] of a collection whose stored
    list is [childrenIds] has one child aggregate for each identifier that
    resolves in [t], in the order of the list: its [children] is the array
    of them. *)
Definition children_as_claimed (t : db_tables) (childrenIds : list string)
    (c : Content) : Prop :=
  content_children c = Resolved (omap (resolve_child t) childrenIds).

(** [c] is an aggregate of the content [id] in the tables [t]: its row is
    the row of [id] and its tags are the tags associated with [id]. *)
Definition aggregate_of (t : db_tables) (id : string) (c : Content) : Prop :=
  content_id c = id /\
  select_content id t = Some (content_row_of c) /\
  content_tags c = select_tags id t.

(** The candidate ids of a filter configuration. *)
Definition candidates (trim : string -> string)
    (search_adapter : db_tables -> string -> list string)
    (f : ContentFilters) (t : db_tables) : list string :=
  if searching trim f then search_adapter t (search_query trim f) else [].

(** The ids that the list statement of [f] matches in the tables [t]. *)
Definition matched_ids (trim : string -> string)
    (search_adapter : db_tables -> string -> list string)
    (eval_list_query : string -> list param -> db_tables -> list string)
    (f : ContentFilters) (t : db_tables) : list string :=
  match list_query trim f (candidates trim search_adapter f t) with
  | Some b => eval_list_query (query b) (params b) t
  | None => []
  end.

(** The store after a call to the search adapter. *)
Definition searched (q : string) (s : store db_tables) : store db_tables :=
  mkStore (tables s) (in_txn s) (journal s ++ [EvSearch q]) (ticks s) (faults s).


(** The statement [b] is constrained to the candidate ids: the first
    condition of its [WHERE] clause is [c.id IN (?,...)], with the ids
    bound first. *)
Definition constrained_to (ids : list string) (b : builder) : Prop :=
  exists rest rest_params head tail,
    whereConditions b = ("c.id IN (" +:+ placeholders ids +:+ ")") :: rest /\
    params b = map PStr ids ++ rest_params /\
    query b = head +:+ " WHERE c.id IN (" +:+ placeholders ids +:+ ")" +:+ tail.

(** Run from [s], after the search for [q] the first request to the store
    was to prepare the statement [b], and the next one, if that succeeded,
    to run it with its parameters; [s'] is the final state. *)
Definition issues (q : string) (b : builder) (s s' : store db_tables) : Prop :=
  exists evs,
    journal s' = journal s ++ EvSearch q :: EvPrepare (Built (query b)) :: evs /\
    (faults s (ticks s) = false ->
     exists evs', evs = EvStep (Built (query b)) (params b) :: evs').

End ContentServiceSpec.

(** *** Statements about the mutations *)

(** The publication invariant of a row, on either path. *)
Definition published_iff_dated (status_is_published : bool)
    (published_at : option string) : Prop :=
  (is_Some published_at) <-> (status_is_published = true).

(** No row event of the pair [(c, t)] is among [evs]: the pair was neither
    deleted nor inserted. *)
Definition untouched (c t : param) (evs : list event) : Prop :=
  (EvRowDeleted c t ∉ evs) /\ (EvRowInserted c t ∉ evs).

(** After the update the tags associated with [c] are those of [new] that
    were associated before or are [available]; the pairs of other contents
    are the same. *)
Definition associations_replaced {I : Type} (c : I) (new : list I)
    (available : I -> Prop) (before after : list (I * I)) : Prop :=
  (forall t, (c, t) ∈ after <-> t ∈ new /\ ((c, t) ∈ before \/ available t)) /\
  (forall c' t, c' <> c -> ((c', t) ∈ after <-> (c', t) ∈ before)).

(** The pairs of [c] that are in the old and in the new set are left
    alone. *)
Definition common_pairs_untouched {I : Type} (inj : I -> param) (c : I)
    (new : list I) (before : list (I * I)) (evs : list event) : Prop :=
  forall t, (c, t) ∈ before -> t ∈ new -> untouched (inj c) (inj t) evs.

(** The pairs of [c] that are in the old and in the new set are deleted and
    inserted again. *)
Definition common_pairs_rewritten {I : Type} (inj : I -> param) (c : I)
    (new : list I) (before : list (I * I)) (evs : list event) : Prop :=
  forall t, (c, t) ∈ before -> t ∈ new ->
    EvRowDeleted (inj c) (inj t) ∈ evs /\ EvRowInserted (inj c) (inj t) ∈ evs.

(** The replacement as the specification words it: exactly the new set,
    common pairs untouched, other contents unchanged. *)
Definition upsert_and_prune {I : Type} (inj : I -> param) (c : I)
    (new : list I) (before after : list (I * I)) (evs : list event) : Prop :=
  associations_replaced c new (fun _ => True) before after /\
  common_pairs_untouched inj c new before evs.

(** The invariant on the rows of [ContentService]: [published_at] is set
    exactly on the published rows. *)
Definition publication_invariant (r : ContentService.content_row) : Prop :=
  published_iff_dated
    (String.eqb (ContentService.row_status r) "published")
    (ContentService.row_published_at r).

(** The same on the rows of the function-style module. *)
Definition db_publication_invariant (r : Db.content_row) : Prop :=
  published_iff_dated
    (bool_decide (Db.row_status r = Some "published"))
    (Db.row_published_at r).

(** ** Fixtures for the examples *)

Module Fixtures.

(** The characters of the JSON texts: the double quote, the backslash,
    the brackets and the comma. *)
Definition DQ : Ascii.ascii := Ascii.ascii_of_nat 34.
Definition BACKSLASH : Ascii.ascii := Ascii.ascii_of_nat 92.
Definition OPENING : Ascii.ascii := Ascii.ascii_of_nat 91.
Definition CLOSING : Ascii.ascii := Ascii.ascii_of_nat 93.
Definition COMMA : Ascii.ascii := Ascii.ascii_of_nat 44.

(** The text of a list of identifiers, as [JSON.stringify] writes it when
    no identifier needs an escape. *)
Definition ids_text (ids : list string) : string :=
  "[" +:+ join "," (map (fun id => String DQ id +:+ String DQ "") ids) +:+ "]".

Definition white_space (a : Ascii.ascii) : bool :=
  let n := Ascii.nat_of_ascii a in
  ((n =? 32) || (n =? 9) || (n =? 10) || (n =? 13))%nat.

(** Where the reader of an array of string literals stands. *)
Inductive scan : Type :=
  | AtStart                    (* the opening bracket must come *)
  | AtFirst                    (* a literal or the closing bracket must come *)
  | AtElement                  (* a literal must come *)
  | InLiteral (acc : string)   (* inside a literal *)
  | AfterElement               (* a comma or the closing bracket must come *)
  | AtEnd.                     (* nothing more must come *)

Fixpoint scan_ids (st : scan) (ids : list string) (text : string)
    : option (list string) :=
  match text with
  | EmptyString => match st with AtEnd => Some ids | _ => None end
  | String a rest =>
      match st with
      | InLiteral acc =>
          if Ascii.eqb a DQ then scan_ids AfterElement (ids ++ [acc]) rest
          else if Ascii.eqb a BACKSLASH || (Ascii.nat_of_ascii a <? 32)%nat then None
          else scan_ids (InLiteral (acc +:+ String a "")) ids rest
      | _ =>
          if white_space a then scan_ids st ids rest
          else
            match st with
            | AtStart =>
                if Ascii.eqb a OPENING then scan_ids AtFirst ids rest else None
            | AtFirst =>
                if Ascii.eqb a CLOSING then scan_ids AtEnd ids rest
                else if Ascii.eqb a DQ then scan_ids (InLiteral "") ids rest
                else None
            | AtElement =>
                if Ascii.eqb a DQ then scan_ids (InLiteral "") ids rest else None
            | AfterElement =>
                if Ascii.eqb a COMMA then scan_ids AtElement ids rest
                else if Ascii.eqb a CLOSING then scan_ids AtEnd ids rest
                else None
            | _ => None
            end
      end
  end.

(** A stand-in for [JSON.parse] on the stored lists of the examples.  It
    reads the arrays of string literals that have no escape, with or
    without white space, and the documents [null], [true], [false] and
    [{}]; a text outside these is not one of the examples and is taken for
    malformed. *)
Definition parse_children (raw : string) : ContentService.parsed :=
  if String.eqb raw "null" || String.eqb raw "true" || String.eqb raw "false"
     || String.eqb raw "{}"
  then ContentService.ParsedOther
  else
    match scan_ids AtStart [] raw with
    | Some ids => ContentService.ParsedArray ids
    | None => ContentService.ParseThrows
    end.

(** A search adapter that knows one word. *)
Definition search_adapter (t : ContentService.db_tables) (q : string) : list string :=
  if String.eqb q "svelte" then ["c1"; "k1"] else [].

(** A store that answers every list statement with all ids and every count
    statement with the number of rows. *)
Definition eval_list_query (sql : string) (ps : list param)
    (t : ContentService.db_tables) : list string :=
  map ContentService.row_id (ContentService.content t).

Definition eval_count_query (sql : string) (ps : list param)
    (t : ContentService.db_tables) : option Z :=
  Some (Z.of_nat (length (ContentService.content t))).

Definition row (id type status : string) (children published_at : option string)
    : ContentService.content_row :=
  ContentService.mkRow id "title" id "description" type status "body" children
    "2024-01-01" "2024-01-01" published_at 0 0.

Definition tag (id : string) : ContentService.Tag :=
  ContentService.mkTag id id id "2024-01-01" "2024-01-01".

(** The stored children of the collection [c1]: the JSON text of the list
    [k1], [gone], [k2]. *)
Definition c1_children : string := ids_text ["k1"; "gone"; "k2"].

(** A collection [c1] whose stored children list names two rows that exist
    and one that does not; [c1] has tags 1, 2, 3. *)
Definition service_tables : ContentService.db_tables :=
  ContentService.mkTables
    [row "c1" "collection" "draft" (Some c1_children) None;
     row "k1" "recipe" "published" None (Some "2024-01-02");
     row "k2" "recipe" "published" None (Some "2024-01-03")]
    [tag "1"; tag "2"; tag "3"; tag "4"]
    [("c1", "1"); ("c1", "2"); ("c1", "3"); ("k1", "1"); ("k2", "4")].

(** A handle on which no request fails. *)
Definition service_store : store ContentService.db_tables :=
  mkStore service_tables false [] 0%nat (fun _ => false).

(** A handle on which the request number [k] fails. *)
Definition service_store_failing (k : nat) : store ContentService.db_tables :=
  mkStore service_tables false [] 0%nat (Nat.eqb k).

(** A collection [c0] whose stored children list is empty. *)
Definition empty_collection_store : store ContentService.db_tables :=
  mkStore
    (ContentService.mkTables
       [row "c0" "collection" "draft" (Some "[]") None] [tag "1"] [("c0", "1")])
    false [] 0%nat (fun _ => false).

Definition service_data (status : string) (tags : list string)
    : ContentService.content_data :=
  ContentService.mkData "title" "c1" "description" "collection" status "body" tags.

(** The function-style module: one draft row, tags 1, 2, 3 associated. *)
Definition db_tables : Db.db_tables :=
  Db.mkTables
    [Db.mkRow 1 "title" "recipe" (Some "draft") None None "slug" None None None
       "2024-01-01" "2024-01-01" None 0 0]
    [1; 2; 3; 4]
    [(1, 1); (1, 2); (1, 3); (2, 1)]
    1.

Definition db_store : store Db.db_tables :=
  mkStore db_tables false [] 0%nat (fun _ => false).

Definition db_store_failing (k : nat) : store Db.db_tables :=
  mkStore db_tables false [] 0%nat (Nat.eqb k).

Definition db_input (status : option string) (tags : option (list Z))
    : Db.ContentInput :=
  Db.mkInput "title" "recipe" status None None "slug" None None None tags.

(** The decimal text of an integer. *)
Definition number_text (n : Z) : string := NilZero.string_of_int (Z.to_int n).

(** [JSON.stringify] on a list of integers. *)
Definition stringify_ids (ids : list Z) : string :=
  "[" +:+ join "," (map number_text ids) +:+ "]".

End Fixtures.

(** ** Vocabulary for further statements about the builder *)

(** *** What the text of a statement depends on

    Two filter configurations, with their candidate ids, have the same
    shape when they agree on which blocks of the builder run and on the
    lengths of the lists that are spliced in as placeholders; the values
    themselves (status, type, tag slugs, candidate ids, limit, offset) are
    free to differ. *)
Definition same_shape (trim : string -> string)
    (f : ContentFilters) (ids : list string)
    (f' : ContentFilters) (ids' : list string) : Prop :=
  searching trim f = searching trim f' /\
  length ids = length ids' /\
  (status f = Some "all" <-> status f' = Some "all") /\
  truthy_str (status f) = truthy_str (status f') /\
  truthy_str (type f) = truthy_str (type f') /\
  length (tag_slugs f) = length (tag_slugs f') /\
  order_by f = order_by f' /\
  truthy_num (limit f) = truthy_num (limit f') /\
  truthy_num (offset f) = truthy_num (offset f').

(** The filters [f] with other values for the fields that
    [getFilteredContentCount] omits from its parameter type. *)
Definition with_presentation (srt : option string) (lim off : option Z)
    (f : ContentFilters) : ContentFilters :=
  mkFilters (search f) (status f) (type f) (tags f) srt lim off.

(** ** [ContentService]: the methods built on the three above *)

Module ContentServiceReads.
Import ContentService.

(** The two statements of [getContentBySlug]. *)
Definition slug_query : string :=
  LF +:+ TAB +:+ TAB +:+ TAB +:+ TAB +:+ "SELECT * FROM content" +:+
  LF +:+ TAB +:+ TAB +:+ TAB +:+ TAB +:+ "WHERE slug = ? AND status = 'published'" +:+
  LF +:+ TAB +:+ TAB +:+ TAB.

Definition slug_type_query : string :=
  LF +:+ TAB +:+ TAB +:+ TAB +:+ TAB +:+ TAB +:+ "SELECT * FROM content" +:+
  LF +:+ TAB +:+ TAB +:+ TAB +:+ TAB +:+ TAB
     +:+ "WHERE slug = ? AND type = ? AND status = 'published'" +:+
  LF +:+ TAB +:+ TAB +:+ TAB +:+ TAB.

Section Methods.

Variable trim : string -> string.
Variable parse_children : string -> parsed.
Variable search_adapter : db_tables -> string -> list string.
Variable eval_list_query : string -> list param -> db_tables -> list string.

Local Abbreviation SM := (M db_tables).
Local Open Scope store_scope.

(** [SELECT * FROM content WHERE slug = ? [AND type = ?] AND status =
    'published'] with [.get]: the first match. *)
Definition select_by_slug (slug : string) (type : option string) (t : db_tables)
    : option content_row :=
  List.find
    (fun r =>
       String.eqb (row_slug r) slug
       && match type with
          | Some ty => String.eqb (row_type r) ty
          | None => true
          end
       && String.eqb (row_status r) "published")
    (content t).

Definition getContentBySlug (slug : string) (type : option string)
    : SM (option Content) :=
  if String.eqb slug "" then ret None
  else
    try_catch
      (let query := if truthy_str type then slug_type_query else slug_query in
       let params :=
         if truthy_str type then [PStr slug; PStr (default "" type)]
         else [PStr slug] in
       prepare (Built query) >>
       let* content :=
         read (Built query) params
           (select_by_slug slug (if truthy_str type then type else None)) in
       match content with
       | None => ret None
       | Some r => getContentById parse_children (row_id r)
       end)
      (fun _ => ret None).

(** [item.children || []]: [null] and [''] are falsy, an array never is. *)
Definition children_or_empty (children : children_value) : children_value :=
  match children with
  | Stored None => Resolved []
  | Stored (Some raw) => if String.eqb raw "" then Resolved [] else children
  | Resolved _ => children
  end.

(** [{ ...item, children: item.children || [] }] *)
Definition with_children_array (item : Content) : Content :=
  mkContent (content_row_of item) (content_tags item)
    (children_or_empty (content_children item)).

(** The filters of [getContentByTag(tagSlug, limit = 10, offset = 0)]. *)
Definition by_tag_filters (tagSlug : string) (limit offset : option Z)
    : ContentFilters :=
  mkFilters None None None (Some (TagOne tagSlug)) None
    (Some (default 10 limit)) (Some (default 0 offset)).

Definition getContentByTag (tagSlug : string) (limit offset : option Z)
    : SM (list Content) :=
  let* results :=
    getFilteredContent trim parse_children search_adapter eval_list_query
      (by_tag_filters tagSlug limit offset) in
  ret (map with_children_array results).

(** The filters of [getContentByType(type, limit = 10, offset = 0)]. *)
Definition by_type_filters (type : string) (limit offset : option Z)
    : ContentFilters :=
  mkFilters None None (Some type) None None
    (Some (default 10 limit)) (Some (default 0 offset)).

Definition getContentByType (type : string) (limit offset : option Z)
    : SM (list Content) :=
  let* results :=
    getFilteredContent trim parse_children search_adapter eval_list_query
      (by_type_filters type limit offset) in
  ret (map with_children_array results).

(** The filters of [searchBlogPosts(searchTerm, tags = [])]. *)
Definition blog_filters (searchTerm : string) (tags : option (list string))
    : ContentFilters :=
  let tags := default [] tags in
  mkFilters (Some searchTerm) None (Some "blog")
    (if bool_decide (0 < length tags)%nat then Some (TagMany tags) else None)
    (Some "latest") None None.

Definition searchBlogPosts (searchTerm : string) (tags : option (list string))
    : SM (list Content) :=
  getFilteredContent trim parse_children search_adapter eval_list_query
    (blog_filters searchTerm tags).

End Methods.

End ContentServiceReads.

(** *** Statements about the remaining methods *)

Module ContentServiceReadsSpec.
Import ContentService ContentServiceSpec ContentServiceReads.

(** The value [getContentById] gives to [children] of the row [r] when
    nothing fails at the store. *)
Definition resolve_children (parse_children : string -> parsed)
    (t : db_tables) (r : content_row) : children_value :=
  match row_children r with
  | Some raw =>
      if String.eqb (row_type r) "collection" then
        match parse_children raw with
        | ParseThrows => Resolved []
        | ParsedOther => Stored (Some raw)
        | ParsedArray childrenIds =>
            if bool_decide (0 < length childrenIds)%nat
            then Resolved (omap (resolve_child t) childrenIds)
            else Stored (Some raw)
        end
      else Stored (Some raw)
  | None => Stored None
  end.

(** The aggregate of [id] in the tables [t]. *)
Definition resolve (parse_children : string -> parsed) (t : db_tables)
    (id : string) : option Content :=
  if String.eqb id "" then None
  else
    (fun r => mkContent r (select_tags id t) (resolve_children parse_children t r))
      <$> select_content id t.

(** The events [evs] open a transaction first and close it last, with
    [closing]. *)
Definition transaction_bracket (closing : txn_command) (evs : list event) : Prop :=
  exists middle,
    evs = EvExec BEGIN_TRANSACTION :: middle ++ [EvExec closing].

(** How a call that returned [r] closes its transaction. *)
Definition closing_of (r : option Content) : txn_command :=
  match r with
  | Some _ => COMMIT
  | None => ROLLBACK
  end.

(** The store in which [getContentById] enters its children block: after
    [BEGIN], and the two statements on the content itself. *)
Definition at_children_block (id : string) (s : store db_tables)
    : store db_tables :=
  mkStore (tables s) true
    (journal s ++
       [EvExec BEGIN_TRANSACTION;
        EvPrepare SelectContentById; EvStep SelectContentById [PStr id];
        EvPrepare SelectTagsOfContent; EvStep SelectTagsOfContent [PStr id]])
    (5 + ticks s)%nat (faults s).

(** The row [r] with a later [updated_at] when it is the row [id]. *)
Definition touch (id now : string) (r : content_row) : content_row :=
  if String.eqb (row_id r) id then
    mkRow (row_id r) (row_title r) (row_slug r) (row_description r) (row_type r)
      (row_status r) (row_body r) (row_children r) (row_created_at r) now
      (row_published_at r) (row_likes r) (row_saves r)
  else r.

(** The first [n] requests from [s] on do not fail. *)
Definition next_succeed (n : nat) {T} (s : store T) : Prop :=
  forall k, (k < n)%nat -> faults s (ticks s + k)%nat = false.

End ContentServiceReadsSpec.

(** ** The function-style module: reads

    The statements of this half are quoted with their text; those of the
    module-level object [s] are prepared when the module is loaded, so a
    call only runs them. *)

(** A loop that threads a value through its iterations. *)
Fixpoint fold_m {T A B} (f : B -> A -> M T B) (xs : list A) (b : B) : M T B :=
  match xs with
  | [] => ret b
  | x :: xs' => bind (f b x) (fold_m f xs')
  end.

(** A line of a template literal: a line feed, the indentation, the text. *)
Definition tab_line (indent : nat) (text : string) : string :=
  LF +:+ String.concat "" (replicate indent TAB) +:+ text.

Definition space_line (indent : nat) (text : string) : string :=
  LF +:+ String.concat "" (replicate indent " ") +:+ text.

Module DbReads.
Import Db.

(** The columns that the listings select. *)
Record preview_columns : Type := mkColumns {
  col_title : string;
  col_type : string;
  col_slug : string;
  col_description : option string;
  col_children : option string;
  col_created_at : string;
  col_updated_at : string;
  col_published_at : option string;
  col_likes : Z;
  col_saves : Z
}.

(** [PreviewContent] as the listings return it: the selected columns, and
    the properties [tags], [liked] and [saved] once they are set.  A row of
    [tags] is known by its id; [None] among the tags is [undefined]. *)
Record PreviewContent : Type := mkPreview {
  preview_id : Z;
  preview_columns_of : preview_columns;
  preview_tags : option (list (option Z));
  liked : option bool;
  saved : option bool
}.

(** [{ ...c, tags }] *)
Definition with_tags (c : PreviewContent) (tags : list (option Z)) : PreviewContent :=
  mkPreview (preview_id c) (preview_columns_of c) (Some tags) (liked c) (saved c).

(** [likedContent.liked = ...], [savedContent.saved = ...] *)
Definition set_liked (b : bool) (c : PreviewContent) : PreviewContent :=
  mkPreview (preview_id c) (preview_columns_of c) (preview_tags c) (Some b) (saved c).

Definition set_saved (b : bool) (c : PreviewContent) : PreviewContent :=
  mkPreview (preview_id c) (preview_columns_of c) (preview_tags c) (liked c) (Some b).

(** [Content] as [get_content_by_id] returns it: the row with [metadata]
    and [children] parsed. *)
Record ParsedContent (J : Type) : Type := mkParsed {
  parsed_row : content_row;
  parsed_metadata : J;
  parsed_children : J
}.
Arguments mkParsed {J} _ _ _.
Arguments parsed_row {J} _.
Arguments parsed_metadata {J} _.
Arguments parsed_children {J} _.

(** *** Sanitizing the type filter *)

(** The class [[a-zA-Z0-9_-]]. *)
Definition type_char (a : Ascii.ascii) : bool :=
  let n := Ascii.nat_of_ascii a in
  ((97 <=? n) && (n <=? 122) || (65 <=? n) && (n <=? 90)
   || (48 <=? n) && (n <=? 57) || (n =? 95) || (n =? 45))%nat.

(** [type.replace(/[^a-zA-Z0-9_-]/g, '')] *)
Fixpoint sanitize_type (type : string) : string :=
  match type with
  | EmptyString => EmptyString
  | String a rest =>
      if type_char a then String a (sanitize_type rest) else sanitize_type rest
  end.

(** *** The statements *)

Definition preview_select (indent : nat) : string :=
  tab_line indent "SELECT" +:+
  tab_line (S indent) "id," +:+
  tab_line (S indent) "title," +:+
  tab_line (S indent) "type," +:+
  tab_line (S indent) "slug," +:+
  tab_line (S indent) "description," +:+
  tab_line (S indent) "children," +:+
  tab_line (S indent) "created_at," +:+
  tab_line (S indent) "updated_at," +:+
  tab_line (S indent) "published_at," +:+
  tab_line (S indent) "likes," +:+
  tab_line (S indent) "saves".

(** The statement of [get_content] with a type filter. *)
Definition typed_listing (sanitizedTypes : list string) : string :=
  preview_select 3 +:+
  tab_line 3 "FROM published_content" +:+
  tab_line 3 ("WHERE type IN (" +:+ placeholders sanitizedTypes +:+ ")") +:+
  tab_line 3 "ORDER BY published_at ASC" +:+
  tab_line 3 "LIMIT ? OFFSET ?" +:+
  tab_line 2 "".

(** The statement of [get_content] without one. *)
Definition plain_listing : string :=
  preview_select 3 +:+
  tab_line 3 "FROM published_content" +:+
  tab_line 3 "ORDER BY published_at ASC" +:+
  tab_line 3 "LIMIT ? OFFSET ?" +:+
  tab_line 2 "".

(** The statement of [get_admin_content]. *)
Definition admin_listing : string :=
  tab_line 2 "SELECT" +:+
  tab_line 3 "id," +:+
  tab_line 3 "title," +:+
  tab_line 3 "type," +:+
  tab_line 3 "slug," +:+
  tab_line 3 "description," +:+
  tab_line 3 "children," +:+
  tab_line 3 "created_at," +:+
  tab_line 3 "updated_at," +:+
  tab_line 3 "published_at," +:+
  tab_line 3 "status," +:+
  tab_line 3 "likes," +:+
  tab_line 3 "saves" +:+
  tab_line 2 "FROM content" +:+
  tab_line 2 "ORDER BY updated_at DESC" +:+
  tab_line 2 "LIMIT ? OFFSET ?" +:+
  tab_line 1 "".

(** The statement of [get_content_by_ids]. *)
Definition by_ids_listing (contentIds : list Z) : string :=
  space_line 8 "SELECT" +:+
  space_line 12 "id," +:+
  space_line 12 "title," +:+
  space_line 12 "type," +:+
  space_line 12 "slug," +:+
  space_line 12 "description," +:+
  space_line 12 "children," +:+
  space_line 12 "created_at," +:+
  space_line 12 "updated_at," +:+
  space_line 12 "published_at," +:+
  space_line 12 "likes," +:+
  space_line 12 "saves" +:+
  space_line 8 "FROM published_content" +:+
  space_line 8 ("WHERE id IN (" +:+ placeholders contentIds +:+ ")") +:+
  space_line 4 "".

(** The statement of [get_content_by_id]. *)
Definition by_id_query : string :=
  space_line 8 "SELECT *" +:+
  space_line 8 "FROM content" +:+
  space_line 8 "WHERE id = ?" +:+
  space_line 4 "".

(** Statements of the object [s]. *)
Definition get_user_has_liked_content : string :=
  "SELECT 1 FROM likes WHERE user_id = @user_id AND target_id = @target_id".

Definition get_user_has_saved_content : string :=
  "SELECT 1 FROM saves WHERE user_id = @user_id AND target_id = @target_id".

Definition get_tag_ids_for_content : string :=
  "SELECT ct.tag_id FROM content_to_tags ct WHERE ct.content_id = @content_id".

Definition get_tag_by_tag_id : string :=
  "SELECT * FROM tags WHERE tags.id = @tag_id".

(** *** Meaning of the statements on the tables *)

(** [get_tag_ids_for_content] with [.all], mapped to the [tag_id]s. *)
Definition select_tag_ids (content_id : Z) (t : db_tables) : list Z :=
  map snd (List.filter (fun p => (fst p =? content_id)%Z) (content_to_tags t)).

(** [get_tag_by_tag_id] with [.get]: the row, or [undefined]. *)
Definition select_tag (tag_id : Z) (t : db_tables) : option Z :=
  List.find (Z.eqb tag_id) (tag_ids t).

(** [SELECT * FROM content WHERE id = ?] with [.get]: the first match. *)
Definition select_by_id (id : Z) (t : db_tables) : option content_row :=
  List.find (fun r => (row_id r =? id)%Z) (content t).

(** [rows.find((c) => c.id === row.id)], as the position of the row
    found. *)
Fixpoint find_position (id : Z) (rows : list PreviewContent) : option nat :=
  match rows with
  | [] => None
  | c :: rows' =>
      if (preview_id c =? id)%Z then Some 0%nat
      else S <$> find_position id rows'
  end.

Section Functions.

(** The store's answers to the statements on tables and views that the
    model does not hold: the listings, and whether a row of [likes] or
    [saves] exists for a user and a content. *)
Variable eval_listing : string -> list param -> db_tables -> list PreviewContent.
Variable has_liked has_saved : string -> Z -> db_tables -> bool.
(** [JSON.parse], which returns or throws, and the value of [[]]. *)
Variable J : Type.
Variable parse : string -> option J.
Variable empty_array : J.

Local Abbreviation SM := (M db_tables).
Local Open Scope store_scope.

(** [add_tags]: one request for the tag ids of each row, one for each
    tag. *)
Definition add_tags (rows : list PreviewContent) : SM (list PreviewContent) :=
  for_each
    (fun c =>
       let* tag_ids :=
         read (Built get_tag_ids_for_content) [PNum (preview_id c)]
           (select_tag_ids (preview_id c)) in
       let* tags :=
         for_each
           (fun tag_id =>
              read (Built get_tag_by_tag_id) [PNum tag_id] (select_tag tag_id))
           tag_ids in
       ret (with_tags c tags))
    rows.

(** The body of the loop of [add_user_liked_and_saved] for the row whose
    id is [id].  The rows are objects that the loop mutates in place: the
    array is threaded through, and the object found is replaced at its
    position. *)
Definition flag_row (user_id : string) (rows : list PreviewContent) (id : Z)
    : SM (list PreviewContent) :=
  let* rows :=
    match find_position id rows with
    | Some likedContent =>
        let* hit :=
          read (Built get_user_has_liked_content) [PStr user_id; PNum id]
            (has_liked user_id id) in
        ret (alter (set_liked hit) likedContent rows)
    | None => ret rows
    end in
  match find_position id rows with
  | Some savedContent =>
      let* hit :=
        read (Built get_user_has_saved_content) [PStr user_id; PNum id]
          (has_saved user_id id) in
      ret (alter (set_saved hit) savedContent rows)
  | None => ret rows
  end.

(** [add_user_liked_and_saved]: the loop visits the rows in order; the id
    of a row does not change. *)
Definition add_user_liked_and_saved (user_id : string)
    (rows : list PreviewContent) : SM (list PreviewContent) :=
  if String.eqb user_id "" then ret rows
  else fold_m (flag_row user_id) (map preview_id rows) rows.

(** What [get_content] and [get_admin_content] do once the page window is
    accepted. *)
Definition decorate (user_id : option string) (content : list PreviewContent)
    : SM (list PreviewContent) :=
  let* content := add_tags content in
  if truthy_str user_id
  then add_user_liked_and_saved (default "" user_id) content
  else ret content.

(** [get_content({ limit = 15, offset = 0, types = [] }, user_id)].  An
    [Error] that the function throws itself is the left summand of the
    result, with its message.  [types] is an array of strings by its type,
    so the two checks on it do not throw. *)
Definition get_content (limit offset : option Z) (types : option (list string))
    (user_id : option string) : SM (string + list PreviewContent) :=
  let limit := default 15 limit in
  let offset := default 0 offset in
  let types := default [] types in
  if (limit <? 0) || (100 <? limit) then ret (inl "Invalid limit")
  else if offset <? 0 then ret (inl "Invalid offset")
  else
    let sanitizedTypes := map sanitize_type types in
    let* content :=
      if bool_decide (0 < length sanitizedTypes)%nat then
        prepare (Built (typed_listing sanitizedTypes)) >>
        read (Built (typed_listing sanitizedTypes))
          (map PStr sanitizedTypes ++ [PNum limit; PNum offset])
          (eval_listing (typed_listing sanitizedTypes)
             (map PStr sanitizedTypes ++ [PNum limit; PNum offset]))
      else
        prepare (Built plain_listing) >>
        read (Built plain_listing) [PNum limit; PNum offset]
          (eval_listing plain_listing [PNum limit; PNum offset]) in
    let* content := decorate user_id content in
    ret (inr content).

(** [get_admin_content({ limit = 50, offset = 0 }, user_id)] *)
Definition get_admin_content (limit offset : option Z) (user_id : option string)
    : SM (string + list PreviewContent) :=
  let limit := default 50 limit in
  let offset := default 0 offset in
  if (limit <? 0) || (200 <? limit) then ret (inl "Invalid limit")
  else if offset <? 0 then ret (inl "Invalid offset")
  else
    prepare (Built admin_listing) >>
    let* content :=
      read (Built admin_listing) [PNum limit; PNum offset]
        (eval_listing admin_listing [PNum limit; PNum offset]) in
    let* content := decorate user_id content in
    ret (inr content).

Definition get_content_by_ids (contentIds : list Z) : SM (list PreviewContent) :=
  if bool_decide (length contentIds = 0%nat) then ret []
  else
    prepare (Built (by_ids_listing contentIds)) >>
    try_catch
      (read (Built (by_ids_listing contentIds)) (map PNum contentIds)
         (eval_listing (by_ids_listing contentIds) (map PNum contentIds)))
      (fun _ => ret []).

Definition json_parse (text : string) : SM J :=
  match parse text with
  | Some j => ret j
  | None => throw SyntaxError
  end.

Definition get_content_by_id (id : Z) : SM (option (ParsedContent J)) :=
  prepare (Built by_id_query) >>
  try_catch
    (let* result := read (Built by_id_query) [PNum id] (select_by_id id) in
     match result with
     | None => ret None
     | Some r =>
         let* children :=
           if truthy_str (row_children r)
           then json_parse (default "" (row_children r))
           else ret empty_array in
         let* metadata := json_parse (default "{}" (row_metadata r)) in
         ret (Some (mkParsed r metadata children))
     end)
    (fun _ => ret None).

End Functions.

End DbReads.

(** *** Statements about the reads *)

Module DbReadsSpec.
Import Db DbReads.

(** The row at position [i] is the first of [rows] with its id. *)
Definition first_with_its_id (rows : list PreviewContent) (i : nat) : Prop :=
  exists c, rows !! i = Some c /\ find_position (preview_id c) rows = Some i.

(** The row [c] with the flags of the user [user_id]. *)
Definition flagged (has_liked has_saved : string -> Z -> db_tables -> bool)
    (user_id : string) (t : db_tables) (c : PreviewContent) : PreviewContent :=
  set_saved (has_saved user_id (preview_id c) t)
    (set_liked (has_liked user_id (preview_id c) t) c).

(** What [get_content_by_id] makes of the row it found. *)
Definition decode {J} (parse : string -> option J) (empty_array : J)
    (r : content_row) : option (ParsedContent J) :=
  match (if truthy_str (row_children r) then parse (default "" (row_children r))
         else Some empty_array) with
  | Some children =>
      match parse (default "{}" (row_metadata r)) with
      | Some metadata => Some (mkParsed r metadata children)
      | None => None
      end
  | None => None
  end.

(** The tags that [add_tags] gives the content [content_id]: one entry for
    each of its associations, [undefined] where the tag is missing. *)
Definition tags_of (content_id : Z) (t : db_tables) : list (option Z) :=
  map (fun tag_id => select_tag tag_id t) (select_tag_ids content_id t).

(** A row of a listing as [get_content] returns it. *)
Definition decorated (has_liked has_saved : string -> Z -> db_tables -> bool)
    (user_id : option string) (t : db_tables) (c : PreviewContent)
    : PreviewContent :=
  let c := with_tags c (tags_of (preview_id c) t) in
  if truthy_str user_id
  then flagged has_liked has_saved (default "" user_id) t c
  else c.

End DbReadsSpec.

(** ** Fixtures for the examples of the reads *)

Module ReadFixtures.
Import Db DbReads.

(** The documents of the examples: the empty object and the arrays of
    integers. *)
Inductive json : Type :=
  | EmptyObject
  | Numbers (ns : list Z).

(** An integer in the decimal form that [JSON.stringify] writes. *)
Definition parse_number (text : string) : option Z :=
  match NilZero.int_of_string text with
  | Some d =>
      let n := Z.of_int d in
      if String.eqb (Fixtures.number_text n) text then Some n else None
  | None => None
  end.

(** The elements of an array of integers, after its opening bracket. *)
Fixpoint scan_numbers (cur : string) (ns : list Z) (text : string)
    : option (list Z) :=
  match text with
  | EmptyString => None
  | String a rest =>
      if Ascii.eqb a Fixtures.COMMA then
        match parse_number cur with
        | Some n => scan_numbers "" (ns ++ [n]) rest
        | None => None
        end
      else if Ascii.eqb a Fixtures.CLOSING then
        match parse_number cur with
        | Some n => if String.eqb rest "" then Some (ns ++ [n]) else None
        | None => None
        end
      else scan_numbers (cur +:+ String a "") ns rest
  end.

(** The empty array. *)
Definition empty_array : json := Numbers [].

(** A stand-in for [JSON.parse] on the documents of the examples.  It
    reads [{}], [[]] and the arrays of integers as [JSON.stringify] writes
    them; a text outside these is not one of the examples and is taken for
    malformed. *)
Definition parse_json (text : string) : option json :=
  if String.eqb text "{}" then Some EmptyObject
  else if String.eqb text "[]" then Some (Numbers [])
  else
    match text with
    | String a rest =>
        if Ascii.eqb a Fixtures.OPENING then Numbers <$> scan_numbers "" [] rest else None
    | EmptyString => None
    end.

(** The user likes the content 7 and has saved nothing. *)
Definition has_liked (user_id : string) (id : Z) (t : db_tables) : bool :=
  (id =? 7)%Z.

Definition has_saved (user_id : string) (id : Z) (t : db_tables) : bool :=
  false.

Definition preview (id : Z) : PreviewContent :=
  mkPreview id
    (mkColumns "title" "recipe" "slug" None None "2024-01-01" "2024-01-01" None 0 0)
    None None None.

(** A store that answers every listing with the contents 7 and 8. *)
Definition eval_listing (sql : string) (ps : list param) (t : db_tables)
    : list PreviewContent :=
  [preview 7; preview 8].

(** One row whose [children] is not JSON. *)
Definition malformed_store : store db_tables :=
  mkStore
    (mkTables
       [mkRow 5 "title" "recipe" (Some "draft") None None "slug" None None
          (Some "oops") "2024-01-01" "2024-01-01" None 0 0]
       [] [] 5)
    false [] 0%nat (fun _ => false).

End ReadFixtures.

(** * Theorems *)

(** ** Strings *)

Lemma append_assoc (s1 s2 s3 : string) : (s1 +:+ s2) +:+ s3 = s1 +:+ s2 +:+ s3.
Proof.
  induction s1 as [|a s1 IH]; [reflexivity|].
  change (String a ((s1 +:+ s2) +:+ s3) = String a (s1 +:+ s2 +:+ s3)).
  by rewrite IH.
Qed.

Lemma append_nil_r (s : string) : s +:+ "" = s.
Proof.
  induction s as [|a s IH]; [reflexivity|].
  change (String a (s +:+ "") = String a s). by rewrite IH.
Qed.

Lemma append_nil_l (s : string) : "" +:+ s = s.
Proof. reflexivity. Qed.

Section BuilderFacts.
Variable trim : string -> string.

Lemma truthy_str_cases (o : option string) :
  truthy_str o = match o with Some s => bool_decide (s ≠ "") | None => false end.
Proof.
  destruct o as [s|]; [|done]. simpl.
  destruct (String.eqb_spec s ""); case_bool_decide; naive_solver.
Qed.

Lemma grouped_tag_slugs f :
  grouped (tags f) = bool_decide (1 < length (tag_slugs f))%nat.
Proof.
  unfold grouped, tag_slugs, truthy_tags.
  destruct (tags f) as [[s|l]|]; simpl; try done.
  destruct (negb _); reflexivity.
Qed.

Lemma builder_eta (b : builder) :
  b = mkBuilder (query b) (params b) (whereConditions b) (havingConditions b).
Proof. by destruct b. Qed.

Lemma add_search_normal_form f ids b :
  add_search trim f ids b =
  mkBuilder (query b) (params b ++ search_params trim f ids)
    (whereConditions b ++ search_conditions trim f ids) (havingConditions b).
Proof.
  unfold add_search, search_params, search_conditions.
  destruct (searching trim f); [done|].
  rewrite !app_nil_r. apply builder_eta.
Qed.

Lemma add_status_normal_form f b :
  add_status f b =
  mkBuilder (query b) (params b ++ status_params f)
    (whereConditions b ++ status_conditions f) (havingConditions b).
Proof.
  unfold add_status, status_params, status_conditions.
  rewrite truthy_str_cases.
  destruct (status f) as [st|].
  - destruct (decide (st = "all")) as [->|Hall].
    + rewrite !bool_decide_eq_true_2 by done.
      rewrite !app_nil_r. apply builder_eta.
    + rewrite (bool_decide_eq_false_2 (Some st = Some "all")) by congruence.
      rewrite (bool_decide_eq_false_2 (st = "all")) by done.
      destruct (decide (st = "")) as [->|Hne].
      * rewrite bool_decide_eq_false_2 by (intros H; by apply H).
        rewrite bool_decide_eq_true_2 by done. by rewrite app_nil_r.
      * rewrite bool_decide_eq_true_2 by done.
        by rewrite (bool_decide_eq_false_2 (st = "")) by done.
  - rewrite bool_decide_eq_false_2 by done. by rewrite app_nil_r.
Qed.

Lemma add_type_normal_form f b :
  add_type f b =
  mkBuilder (query b) (params b ++ type_params f)
    (whereConditions b ++ type_conditions f) (havingConditions b).
Proof.
  unfold add_type, type_params, type_conditions.
  destruct (truthy_str (type f)); [done|].
  rewrite !app_nil_r. apply builder_eta.
Qed.

Lemma add_tags_normal_form f b :
  add_tags f b =
  mkBuilder (query b +:+ join_text f) (params b ++ tag_params f)
    (whereConditions b ++ tag_conditions f)
    (havingConditions b ++
       if bool_decide (1 < length (tag_slugs f))%nat
       then ["COUNT(DISTINCT t.slug) = ?"] else []).
Proof.
  unfold add_tags, tag_params, tag_conditions, join_text, tag_slugs.
  destruct (truthy_tags (tags f)).
  - destruct (from_option tags_array [] (tags f)) as [|x [|y l]].
    + rewrite !bool_decide_eq_false_2 by (simpl; lia).
      rewrite !app_nil_r, append_nil_r. apply builder_eta.
    + rewrite bool_decide_eq_true_2 by (simpl; lia).
      rewrite !bool_decide_eq_false_2 by (simpl; lia).
      by rewrite !app_nil_r.
    + rewrite !bool_decide_eq_true_2 by (simpl; lia).
      cbv [params query whereConditions havingConditions].
      by rewrite <-app_assoc.
  - rewrite !bool_decide_eq_false_2 by (simpl; lia).
    rewrite !app_nil_r, append_nil_r. apply builder_eta.
Qed.

Lemma conditions_normal_form sel f ids :
  conditions trim sel f ids =
  mkBuilder (sel +:+ join_text f)
    (search_params trim f ids ++ status_params f ++ type_params f ++ tag_params f)
    (search_conditions trim f ids ++ status_conditions f ++ type_conditions f
       ++ tag_conditions f)
    (if bool_decide (1 < length (tag_slugs f))%nat
     then ["COUNT(DISTINCT t.slug) = ?"] else []).
Proof.
  unfold conditions.
  rewrite add_tags_normal_form, add_type_normal_form, add_status_normal_form,
    add_search_normal_form.
  cbv [params query whereConditions havingConditions].
  by rewrite !app_nil_l, <-!app_assoc.
Qed.

Lemma add_where_normal_form b :
  add_where b =
  mkBuilder (query b +:+ where_text (whereConditions b)) (params b)
    (whereConditions b) (havingConditions b).
Proof.
  unfold add_where, where_text. case_bool_decide; [done|].
  rewrite append_nil_r. apply builder_eta.
Qed.

Lemma add_group_normal_form f b :
  havingConditions b =
    (if bool_decide (1 < length (tag_slugs f))%nat
     then ["COUNT(DISTINCT t.slug) = ?"] else []) ->
  add_group f b =
  mkBuilder (query b +:+ group_text f) (params b) (whereConditions b)
    (havingConditions b).
Proof.
  intros Hh. unfold add_group, group_text.
  rewrite grouped_tag_slugs, Hh. case_bool_decide.
  - rewrite bool_decide_eq_true_2 by (simpl; lia).
    by rewrite append_assoc.
  - rewrite append_nil_r, <-Hh. apply builder_eta.
Qed.

Lemma add_pagination_normal_form f b :
  add_pagination f b =
  mkBuilder (query b +:+ pagination_text f) (params b ++ pagination_params f)
    (whereConditions b) (havingConditions b).
Proof.
  unfold add_pagination, pagination_text, pagination_params.
  destruct (truthy_num (limit f)).
  - destruct (truthy_num (offset f));
      cbv [params query whereConditions havingConditions].
    + by rewrite append_assoc, <-app_assoc.
    + by rewrite append_nil_r.
  - rewrite append_nil_r, app_nil_r. apply builder_eta.
Qed.

(** The list statement in full. *)
Lemma list_query_normal_form f ids b :
  list_query trim f ids = Some b ->
  b =
  mkBuilder
    (list_select +:+ join_text f
       +:+ where_text (search_conditions trim f ids ++ status_conditions f
                         ++ type_conditions f ++ tag_conditions f)
       +:+ group_text f +:+ " ORDER BY " +:+ order_by f +:+ pagination_text f)
    (search_params trim f ids ++ status_params f ++ type_params f
       ++ tag_params f ++ pagination_params f)
    (search_conditions trim f ids ++ status_conditions f ++ type_conditions f
       ++ tag_conditions f)
    (if bool_decide (1 < length (tag_slugs f))%nat
     then ["COUNT(DISTINCT t.slug) = ?"] else []).
Proof.
  unfold list_query, list_sorted, add_order.
  destruct (_ && _); [done|]. intros [= <-].
  rewrite add_pagination_normal_form.
  rewrite add_group_normal_form;
    rewrite add_where_normal_form, conditions_normal_form; [|done].
  cbv [params query whereConditions havingConditions].
  by rewrite !append_assoc, <-!app_assoc.
Qed.

(** The count statement in full. *)
Lemma count_query_normal_form f ids :
  count_query trim f ids =
  mkBuilder
    (let inner :=
       count_select +:+ join_text f
         +:+ where_text (search_conditions trim f ids ++ status_conditions f
                           ++ type_conditions f ++ tag_conditions f)
         +:+ group_text f in
     if bool_decide (1 < length (tag_slugs f))%nat
     then count_groups_open +:+ inner +:+ ")" else inner)
    (search_params trim f ids ++ status_params f ++ type_params f
       ++ tag_params f)
    (search_conditions trim f ids ++ status_conditions f ++ type_conditions f
       ++ tag_conditions f)
    (if bool_decide (1 < length (tag_slugs f))%nat
     then ["COUNT(DISTINCT t.slug) = ?"] else []).
Proof.
  unfold count_query, wrap_count.
  rewrite add_group_normal_form;
    rewrite add_where_normal_form, conditions_normal_form; [|done].
  cbv [params query whereConditions havingConditions].
  rewrite grouped_tag_slugs, !append_assoc.
  by case_bool_decide.
Qed.

(** Both variants at once. *)
Lemma statement_of_normal_form v f ids b :
  statement_of v trim f ids = Some b ->
  b =
  mkBuilder
    (head_text v f
       +:+ where_text (search_conditions trim f ids ++ status_conditions f
                         ++ type_conditions f ++ tag_conditions f)
       +:+ rest_text v f)
    (search_params trim f ids ++ status_params f ++ type_params f
       ++ tag_params f ++ tail_params v f)
    (search_conditions trim f ids ++ status_conditions f ++ type_conditions f
       ++ tag_conditions f)
    (if bool_decide (1 < length (tag_slugs f))%nat
     then ["COUNT(DISTINCT t.slug) = ?"] else []).
Proof.
  destruct v; simpl.
  - intros ->%list_query_normal_form. unfold head_text, rest_text, tail_text.
    by rewrite !append_assoc.
  - destruct (_ && _); [done|]. intros [= <-].
    rewrite count_query_normal_form. unfold head_text, rest_text, tail_params.
    rewrite !app_nil_r. cbv zeta. unfold group_text.
    case_bool_decide; by rewrite ?append_nil_r, ?append_assoc.
Qed.

Lemma statement_of_with_status v f ids st b :
  statement_of v trim f ids = Some b ->
  exists b', statement_of v trim (with_status st f) ids = Some b'.
Proof.
  destruct v; simpl; unfold list_query;
    change (searching trim (with_status st f)) with (searching trim f);
    destruct (_ && _); naive_solver.
Qed.

Lemma not_status_conditions f ids :
  Forall (fun c => is_status_condition c = false)
    (search_conditions trim f ids ++ type_conditions f ++ tag_conditions f).
Proof.
  unfold search_conditions, type_conditions, tag_conditions.
  rewrite !Forall_app. repeat split.
  - destruct (searching trim f); repeat constructor.
  - destruct (truthy_str (type f)); repeat constructor.
  - case_bool_decide; repeat constructor.
Qed.

Lemma status_clause_normal_form f :
  status_clause (status f) = (status_conditions f, status_params f).
Proof.
  unfold status_clause, status_conditions, status_params.
  destruct (status f) as [s|]; [|done].
  by repeat case_bool_decide.
Qed.

(** Claim C1, as amended.  In both variants of the builder the status
    predicate is a switch on [filters.status]: unset, or the empty string,
    the statement restricts to [c.status = 'published'] and binds nothing;
    the sentinel ['all'], no predicate on the status column is emitted; any
    other value, the statement restricts to [c.status = ?] with that value
    bound right after the search ids.  Everything else in the statement is
    as in the one built for [status = 'all']. *)
Theorem status_three_way_switch v f ids b :
  statement_of v trim f ids = Some b ->
  status_clause_emitted status_clause v trim f ids b.
Proof.
  intros Hb.
  destruct (statement_of_with_status v f ids (Some "all") b Hb) as [b_all Hall].
  pose proof (statement_of_normal_form _ _ _ _ Hb) as ->.
  pose proof (statement_of_normal_form _ _ _ _ Hall) as Eall.
  change (search_conditions trim (with_status (Some "all") f) ids)
    with (search_conditions trim f ids) in Eall.
  change (search_params trim (with_status (Some "all") f) ids)
    with (search_params trim f ids) in Eall.
  change (status_conditions (with_status (Some "all") f)) with (@nil string) in Eall.
  change (status_params (with_status (Some "all") f)) with (@nil param) in Eall.
  change (type_conditions (with_status (Some "all") f)) with (type_conditions f) in Eall.
  change (type_params (with_status (Some "all") f)) with (type_params f) in Eall.
  change (tag_conditions (with_status (Some "all") f)) with (tag_conditions f) in Eall.
  change (tag_params (with_status (Some "all") f)) with (tag_params f) in Eall.
  change (tag_slugs (with_status (Some "all") f)) with (tag_slugs f) in Eall.
  change (head_text v (with_status (Some "all") f)) with (head_text v f) in Eall.
  change (rest_text v (with_status (Some "all") f)) with (rest_text v f) in Eall.
  change (tail_params v (with_status (Some "all") f)) with (tail_params v f) in Eall.
  rewrite !app_nil_l in Eall. subst b_all.
  exists (mkBuilder
     (head_text v f
        +:+ where_text (search_conditions trim f ids ++ type_conditions f
                          ++ tag_conditions f)
        +:+ rest_text v f)
     (search_params trim f ids ++ type_params f ++ tag_params f ++ tail_params v f)
     (search_conditions trim f ids ++ type_conditions f ++ tag_conditions f)
     (if bool_decide (1 < length (tag_slugs f))%nat
      then ["COUNT(DISTINCT t.slug) = ?"] else [])),
    (type_conditions f ++ tag_conditions f),
    (type_params f ++ tag_params f ++ tail_params v f),
    (head_text v f), (rest_text v f).
  rewrite status_clause_normal_form.
  cbv [params query whereConditions havingConditions fst snd].
  split; [done|]. split; [done|]. split; [done|].
  split; [apply not_status_conditions|]. done.
Qed.

Lemma tag_slugs_cases f :
  match tags f with
  | Some (TagMany l) => tag_slugs f = l
  | Some (TagOne s) => tag_slugs f = if bool_decide (s = "") then [] else [s]
  | None => tag_slugs f = []
  end.
Proof.
  unfold tag_slugs, truthy_tags. destruct (tags f) as [[s|l]|]; simpl; try done.
  destruct (String.eqb_spec s ""); by case_bool_decide.
Qed.

Lemma tags_clause_of_slugs v f ids b :
  statement_of v trim f ids = Some b ->
  tags_clause_emitted (tag_slugs f) v trim f ids b.
Proof.
  intros ->%statement_of_normal_form.
  unfold tags_clause_emitted, tag_conditions, tag_params, head_text, rest_text,
    join_text, group_text, tail_text.
  cbv [params query whereConditions havingConditions].
  destruct (tag_slugs f) as [|x [|y l]]; cbv zeta.
  - rewrite !bool_decide_eq_false_2 by (simpl; lia).
    rewrite ?app_nil_r, ?append_nil_r.
    destruct v; simpl; repeat split;
      rewrite <-?app_assoc, ?append_nil_r; reflexivity.
  - rewrite bool_decide_eq_true_2 by (simpl; lia).
    rewrite !bool_decide_eq_false_2 by (simpl; lia).
    rewrite ?app_nil_r, ?append_nil_r, ?app_assoc.
    unfold where_text.
    rewrite bool_decide_eq_true_2 by (rewrite length_app; simpl; lia).
    destruct v; simpl; repeat split;
      rewrite <-?app_assoc, ?append_assoc, ?append_nil_r; reflexivity.
  - rewrite !bool_decide_eq_true_2 by (simpl; lia).
    rewrite !app_assoc.
    unfold where_text.
    rewrite bool_decide_eq_true_2 by (rewrite length_app; simpl; lia).
    destruct v; simpl; repeat split;
      rewrite <-?app_assoc, ?append_assoc, ?append_nil_r; reflexivity.
Qed.

(** Claim C2, as amended.  In both variants: a list of tag slugs of length
    [N > 1] joins [content_to_tags] and [tags], filters [t.slug IN (?,...)],
    groups by [c.id] and requires [COUNT(DISTINCT t.slug) = ?] with [N]
    bound after the slugs (the count variant counts over that sub-query); a
    one-element list or a non-empty bare string emits the same join and
    [IN] filter without [GROUP BY] / [HAVING]; an empty bare string, like
    no tags at all, emits no join and no filter. *)
Theorem tags_filter_clauses v f ids b :
  statement_of v trim f ids = Some b ->
  (forall l, tags f = Some (TagMany l) -> tags_clause_emitted l v trim f ids b) /\
  (forall s, tags f = Some (TagOne s) -> s <> "" ->
     tags_clause_emitted [s] v trim f ids b) /\
  (tags f = Some (TagOne "") \/ tags f = None ->
     tags_clause_emitted [] v trim f ids b).
Proof.
  intros Hb. pose proof (tags_clause_of_slugs _ _ _ _ Hb) as H.
  pose proof (tag_slugs_cases f) as Hc.
  split; [|split].
  - intros l Hl. rewrite Hl in Hc. by rewrite Hc in H.
  - intros s Hs Hne. rewrite Hs, bool_decide_eq_false_2 in Hc by done.
    by rewrite Hc in H.
  - intros [Ht|Ht]; rewrite Ht in Hc; simpl in Hc; by rewrite Hc in H.
Qed.

End BuilderFacts.

(** *** What the grouping means

    The statement is only text to this layer; these facts read its
    [HAVING] condition on the tag slugs of one content. *)

(** For distinct wanted slugs the [HAVING] condition holds of a content
    exactly when it is associated with all of them. *)
Lemma having_count_is_intersection (wanted content_slugs : list string) :
  NoDup wanted ->
  length (distinct_matching wanted content_slugs) = length wanted <->
  (forall x, x ∈ wanted -> x ∈ content_slugs).
Proof.
  intros Hnd. unfold distinct_matching.
  set (found := remove_dups (filter (fun x => x ∈ wanted) content_slugs)).
  assert (NoDup found) as Hfound by apply NoDup_remove_dups.
  assert (forall x, x ∈ found <-> x ∈ wanted /\ x ∈ content_slugs) as Hin.
  { intros x. unfold found. by rewrite elem_of_remove_dups, list_elem_of_filter. }
  assert (found ⊆+ wanted) as Hsub.
  { apply NoDup_submseteq; [done|]. intros x Hx. by apply Hin in Hx as [? _]. }
  split.
  - intros Hlen x Hx.
    assert (found ≡ₚ wanted) as Hperm.
    { apply submseteq_length_Permutation; [done|]. by rewrite Hlen. }
    rewrite <-Hperm in Hx. by apply Hin in Hx as [_ ?].
  - intros Hall. apply Permutation_length, NoDup_Permutation; [done..|].
    intros x. rewrite Hin. split; [by intros [? _]|]. intros Hx. split; [done|by apply Hall].
Qed.

Lemma remove_dups_length (l : list string) : (length (remove_dups l) <= length l)%nat.
Proof.
  induction l as [|x l IH]; [done|]. simpl.
  destruct (decide_rel elem_of x l); simpl; lia.
Qed.

(** With a repeated slug the count can never reach the length of the list. *)
Lemma having_count_with_duplicates (wanted content_slugs : list string) :
  ~ NoDup wanted ->
  (length (distinct_matching wanted content_slugs) < length wanted)%nat.
Proof.
  intros Hdup. unfold distinct_matching.
  set (found := remove_dups (filter (fun x => x ∈ wanted) content_slugs)).
  assert (found ⊆+ remove_dups wanted) as Hsub.
  { apply NoDup_submseteq; [apply NoDup_remove_dups|].
    intros x. unfold found.
    rewrite !elem_of_remove_dups, list_elem_of_filter. by intros [? _]. }
  apply submseteq_length in Hsub.
  assert (length (remove_dups wanted) < length wanted)%nat; [|lia].
  clear -Hdup. induction wanted as [|x l IH]; [by destruct Hdup; constructor|].
  simpl. destruct (decide_rel elem_of x l) as [Hx|Hx].
  - pose proof (remove_dups_length l) as H. simpl. lia.
  - simpl. assert (~ NoDup l) as Hl.
    { intros H. apply Hdup. by constructor. }
    apply IH in Hl. lia.
Qed.

(** *** Instances and counterexamples *)

(** An instance of [status_three_way_switch]. *)
Lemma status_three_way_switch_witness :
  let f := mkFilters (Some " svelte ") (Some "draft") (Some "recipe")
             (Some (TagOne "ui")) None (Some 5) None in
  exists b,
    statement_of CountVariant trim_ascii f ["c1"; "c2"] = Some b /\
    status_clause_emitted status_clause CountVariant trim_ascii f ["c1"; "c2"] b.
Proof.
  intros f. eexists. split; [reflexivity|].
  apply (status_three_way_switch trim_ascii CountVariant f ["c1"; "c2"]).
  reflexivity.
Defined.

(** Claim C1 as stated fails on the explicit value [''], which is treated
    as unset: the statement restricts to published rows instead of rows
    whose status is the empty string. *)
Lemma status_empty_string_counterexample :
  let f := mkFilters None (Some "") None None None None None in
  exists b,
    statement_of ListVariant trim_ascii f [] = Some b /\
    ~ status_clause_emitted status_clause_claimed ListVariant trim_ascii f [] b.
Proof.
  intros f. eexists. split; [reflexivity|].
  intros (b_all & rest & rest_params & head & tail
          & _ & _ & _ & _ & _ & Hw & _ & _).
  vm_compute in Hw. discriminate Hw.
Qed.

(** An instance of [tags_filter_clauses]. *)
Lemma tags_filter_clauses_witness :
  let f := mkFilters None None None (Some (TagMany ["a"; "b"])) (Some "popular")
             (Some 10) (Some 20) in
  exists b,
    statement_of ListVariant trim_ascii f [] = Some b /\
    tags_clause_emitted ["a"; "b"] ListVariant trim_ascii f [] b.
Proof.
  intros f. eexists. split; [reflexivity|].
  apply (tags_filter_clauses trim_ascii ListVariant f []); reflexivity.
Defined.

(** Claim C2 as stated fails on the bare string ['']: it is falsy, so the
    statement has neither the join nor the [IN] filter. *)
Lemma bare_empty_tag_counterexample :
  let f := mkFilters None None None (Some (TagOne "")) None None None in
  exists b,
    statement_of ListVariant trim_ascii f [] = Some b /\
    given_slugs f = [""] /\
    ~ tags_clause_emitted (given_slugs f) ListVariant trim_ascii f [] b.
Proof.
  intros f. eexists. split; [reflexivity|]. split; [reflexivity|].
  intros (Hw & _). vm_compute in Hw. discriminate Hw.
Qed.



(** ** The store monad *)

(** The combinators are reasoned about through the rules below. *)
Global Arguments ret : simpl never.
Global Arguments throw : simpl never.
Global Arguments bind : simpl never.
Global Arguments try_catch : simpl never.
Global Arguments tick : simpl never.
Global Arguments exec : simpl never.
Global Arguments prepare : simpl never.
Global Arguments read : simpl never.
Global Arguments write : simpl never.
Global Arguments search_call : simpl never.

Section StoreFacts.
Context {T : Type}.
Implicit Types s : store T.

Lemma later_refl s : later s s.
Proof. repeat split; [lia|]. exists []. by rewrite app_nil_r. Qed.

Lemma later_trans s1 s2 s3 : later s1 s2 -> later s2 s3 -> later s1 s3.
Proof.
  intros (Hf1 & Ht1 & evs1 & Hj1) (Hf2 & Ht2 & evs2 & Hj2).
  repeat split; [congruence|lia|].
  exists (evs1 ++ evs2). by rewrite Hj2, Hj1, app_assoc.
Qed.

Lemma read_only_refl s : read_only s s.
Proof. split; [done|apply later_refl]. Qed.

Lemma read_only_trans s1 s2 s3 :
  read_only s1 s2 -> read_only s2 s3 -> read_only s1 s3.
Proof.
  intros [Ht1 Hl1] [Ht2 Hl2]. split; [congruence|by eapply later_trans].
Qed.

Lemma later_requested ev s : later s (requested ev s).
Proof. repeat split; simpl; [lia|by eexists]. Qed.

Lemma read_only_requested ev s : read_only s (requested ev s).
Proof. split; [done|apply later_requested]. Qed.

Lemma read_only_step ev s s1 : read_only s s1 -> read_only s (requested ev s1).
Proof. intros H. eapply read_only_trans; [exact H|apply read_only_requested]. Qed.

Lemma read_only_exec ev b s s1 :
  read_only s s1 ->
  read_only s (mkStore (tables s1) b (journal s1 ++ [ev]) (S (ticks s1)) (faults s1)).
Proof.
  intros H. eapply read_only_trans; [exact H|].
  repeat split; simpl; [lia|by eexists].
Qed.

Lemma read_only_search ev s s1 :
  read_only s s1 ->
  read_only s (mkStore (tables s1) (in_txn s1) (journal s1 ++ [ev]) (ticks s1) (faults s1)).
Proof.
  intros H. eapply read_only_trans; [exact H|].
  repeat split; simpl; [lia|by eexists].
Qed.

Lemma fault_free_later s s' : later s s' -> fault_free s -> fault_free s'.
Proof. intros (Hf & _) H k. by rewrite Hf. Qed.

(** *** Rules for [wp] *)

Lemma wp_ret {A} (a : A) s Q : Q (Ret a) s -> wp (ret a) s Q.
Proof. done. Qed.

Lemma wp_throw {A} e s (Q : outcome A -> store T -> Prop) :
  Q (Throw e) s -> wp (throw e) s Q.
Proof. done. Qed.

Lemma wp_bind {A B} (m : M T A) (k : A -> M T B) s Q :
  wp m s (fun o s' =>
    match o with
    | Ret a => wp (k a) s' Q
    | Throw e => Q (Throw e) s'
    end) ->
  wp (bind m k) s Q.
Proof. unfold wp, bind. by destruct (m s) as [[a|e] s']. Qed.

Lemma wp_try_catch {A} (m : M T A) (h : exn -> M T A) s Q :
  wp m s (fun o s' =>
    match o with
    | Ret a => Q (Ret a) s'
    | Throw e => wp (h e) s' Q
    end) ->
  wp (try_catch m h) s Q.
Proof. unfold wp, try_catch. by destruct (m s) as [[a|e] s']. Qed.

Lemma wp_mono {A} (m : M T A) s (Q Q' : outcome A -> store T -> Prop) :
  (forall o s', Q o s' -> Q' o s') -> wp m s Q -> wp m s Q'.
Proof. unfold wp. auto. Qed.

Lemma wp_tick ev s (Q : outcome unit -> store T -> Prop) :
  (if faults s (ticks s)
   then Q (Throw (StoreFailure (ticks s))) (requested ev s)
   else Q (Ret tt) (requested ev s)) ->
  wp (tick ev) s Q.
Proof. unfold wp, tick, requested. by destruct (faults s (ticks s)). Qed.

Lemma wp_prepare st s (Q : outcome unit -> store T -> Prop) :
  (if faults s (ticks s)
   then Q (Throw (StoreFailure (ticks s))) (requested (EvPrepare st) s)
   else Q (Ret tt) (requested (EvPrepare st) s)) ->
  wp (prepare st) s Q.
Proof. apply wp_tick. Qed.

Lemma wp_exec c s (Q : outcome unit -> store T -> Prop) :
  (if faults s (ticks s)
   then Q (Throw (StoreFailure (ticks s))) (requested (EvExec c) s)
   else Q (Ret tt)
          (mkStore (tables s)
             (match c with BEGIN_TRANSACTION => true | _ => false end)
             (journal s ++ [EvExec c]) (S (ticks s)) (faults s))) ->
  wp (exec c) s Q.
Proof.
  intros H. unfold exec. apply wp_bind, wp_tick.
  by destruct (faults s (ticks s)).
Qed.

Lemma wp_read {A} st args (sem : T -> A) s Q :
  (if faults s (ticks s)
   then Q (Throw (StoreFailure (ticks s))) (requested (EvStep st args) s)
   else Q (Ret (sem (tables s))) (requested (EvStep st args) s)) ->
  wp (read st args sem) s Q.
Proof.
  intros H. unfold read. apply wp_bind, wp_tick.
  by destruct (faults s (ticks s)).
Qed.

Lemma wp_write {A} st args (sem : T -> exn + (A * T * list event)) s Q :
  (if faults s (ticks s)
   then Q (Throw (StoreFailure (ticks s))) (requested (EvStep st args) s)
   else match sem (tables s) with
        | inl e => Q (Throw e) (requested (EvStep st args) s)
        | inr (a, t', evs) =>
            Q (Ret a)
              (mkStore t' (in_txn s) ((journal s ++ [EvStep st args]) ++ evs)
                 (S (ticks s)) (faults s))
        end) ->
  wp (write st args sem) s Q.
Proof.
  intros H. unfold write. apply wp_bind, wp_tick.
  destruct (faults s (ticks s)); [done|].
  unfold wp, requested; simpl.
  by destruct (sem (tables s)) as [e|[[a t'] evs]].
Qed.

Lemma wp_search_call adapter q s (Q : outcome (list string) -> store T -> Prop) :
  Q (Ret (adapter (tables s) q))
    (mkStore (tables s) (in_txn s) (journal s ++ [EvSearch q]) (ticks s) (faults s)) ->
  wp (search_call adapter q) s Q.
Proof. done. Qed.

(** A loop whose body keeps an invariant keeps it. *)
Lemma wp_for_each {A B} (f : A -> M T B) (I : store T -> Prop) xs s :
  (forall x s1, I s1 -> wp (f x) s1 (fun _ s2 => I s2)) ->
  I s ->
  wp (for_each f xs) s (fun _ s' => I s').
Proof.
  intros Hf. revert s. induction xs as [|x xs IH]; intros s Hs; simpl.
  - by apply wp_ret.
  - apply wp_bind. eapply wp_mono; [|by apply Hf].
    intros [y|e] s1 H1; [|done].
    apply wp_bind. eapply wp_mono; [|by apply IH].
    intros [ys|e] s2 H2; [|done]. by apply wp_ret.
Qed.

(** *** Requests that do not fail *)

Lemma bind_ret_eq {A B} (m : M T A) (k : A -> M T B) s a s1 :
  m s = (Ret a, s1) -> bind m k s = k a s1.
Proof. unfold bind. by intros ->. Qed.

Lemma bind_throw_eq {A B} (m : M T A) (k : A -> M T B) s e s1 :
  m s = (Throw e, s1) -> bind m k s = (Throw e, s1).
Proof. unfold bind. by intros ->. Qed.

Lemma try_catch_ret_eq {A} (m : M T A) h s a s1 :
  m s = (Ret a, s1) -> try_catch m h s = (Ret a, s1).
Proof. unfold try_catch. by intros ->. Qed.

Lemma try_catch_throw_eq {A} (m : M T A) h s e s1 :
  m s = (Throw e, s1) -> try_catch m h s = h e s1.
Proof. unfold try_catch. by intros ->. Qed.

Lemma tick_ok ev s :
  faults s (ticks s) = false -> tick ev s = (Ret tt, requested ev s).
Proof. unfold tick, requested. by intros ->. Qed.

Lemma tick_fails ev s :
  faults s (ticks s) = true ->
  tick ev s = (Throw (StoreFailure (ticks s)), requested ev s).
Proof. unfold tick, requested. by intros ->. Qed.

Lemma prepare_ok st s :
  faults s (ticks s) = false ->
  prepare st s = (Ret tt, requested (EvPrepare st) s).
Proof. apply tick_ok. Qed.

Lemma prepare_fails st s :
  faults s (ticks s) = true ->
  prepare st s = (Throw (StoreFailure (ticks s)), requested (EvPrepare st) s).
Proof. apply tick_fails. Qed.

Lemma exec_ok c s :
  faults s (ticks s) = false ->
  exec c s =
  (Ret tt,
   mkStore (tables s) (match c with BEGIN_TRANSACTION => true | _ => false end)
     (journal s ++ [EvExec c]) (S (ticks s)) (faults s)).
Proof. intros H. unfold exec. by rewrite (bind_ret_eq _ _ _ _ _ (tick_ok _ _ H)). Qed.

Lemma read_ok {A} st args (sem : T -> A) s :
  faults s (ticks s) = false ->
  read st args sem s = (Ret (sem (tables s)), requested (EvStep st args) s).
Proof. intros H. unfold read. by rewrite (bind_ret_eq _ _ _ _ _ (tick_ok _ _ H)). Qed.

Lemma read_fails {A} st args (sem : T -> A) s :
  faults s (ticks s) = true ->
  read st args sem s =
  (Throw (StoreFailure (ticks s)), requested (EvStep st args) s).
Proof. intros H. unfold read. by rewrite (bind_throw_eq _ _ _ _ _ (tick_fails _ _ H)). Qed.

Lemma write_ok {A} st args (sem : T -> exn + (A * T * list event)) s a t' evs :
  faults s (ticks s) = false ->
  sem (tables s) = inr (a, t', evs) ->
  write st args sem s =
  (Ret a,
   mkStore t' (in_txn s) ((journal s ++ [EvStep st args]) ++ evs)
     (S (ticks s)) (faults s)).
Proof.
  intros H Hsem. unfold write.
  rewrite (bind_ret_eq _ _ _ _ _ (tick_ok _ _ H)). simpl. by rewrite Hsem.
Qed.

Lemma write_fails {A} st args (sem : T -> exn + (A * T * list event)) s :
  faults s (ticks s) = true ->
  write st args sem s =
  (Throw (StoreFailure (ticks s)), requested (EvStep st args) s).
Proof. intros H. unfold write. by rewrite (bind_throw_eq _ _ _ _ _ (tick_fails _ _ H)). Qed.

Lemma wp_run {A} (m : M T A) s Q :
  wp m s Q -> exists o s', m s = (o, s') /\ Q o s'.
Proof. unfold wp. intros H. exists (m s).1, (m s).2. by destruct (m s). Qed.

Lemma wp_elim {A} (m : M T A) s Q o s' : wp m s Q -> m s = (o, s') -> Q o s'.
Proof. unfold wp. intros H E. by rewrite E in H. Qed.

End StoreFacts.

(** Steps through a computation, one construct at a time. *)
Ltac wp_step :=
  cbv beta iota;
  lazymatch goal with
  | |- wp (bind _ _) _ _ => apply wp_bind
  | |- wp (try_catch _ _) _ _ => apply wp_try_catch
  | |- wp (ret _) _ _ => apply wp_ret
  | |- wp (throw _) _ _ => apply wp_throw
  | |- wp (exec _) _ _ => apply wp_exec
  | |- wp (prepare _) _ _ => apply wp_prepare
  | |- wp (read _ _ _) _ _ => apply wp_read
  | |- wp (write _ _ _) _ _ => apply wp_write
  | |- wp (search_call _ _) _ _ => apply wp_search_call
  end.

(** Closes [read_only s s'] when [s'] is [s] after some requests, possibly
    behind later states known from the context. *)
Ltac solve_read_only :=
  first
    [ eassumption
    | apply read_only_refl
    | apply read_only_step; solve_read_only
    | apply read_only_exec; solve_read_only
    | apply read_only_search; solve_read_only
    | split; [reflexivity|];
      split; [reflexivity|];
      split; [simpl; lia|];
      simpl; rewrite <-?app_assoc; eexists; reflexivity
    | eapply read_only_trans; [|eassumption]; solve_read_only
    | eapply read_only_trans; [eassumption|]; solve_read_only ].

Section ContentServiceFacts.
Import ContentService ContentServiceSpec.

Variable trim : string -> string.
Variable parse_children : string -> parsed.
Variable search_adapter : db_tables -> string -> list string.
Variable eval_list_query : string -> list param -> db_tables -> list string.
Variable eval_count_query : string -> list param -> db_tables -> option Z.

Local Abbreviation getContentById := (getContentById parse_children).
Local Abbreviation load_children := (load_children parse_children).
Local Abbreviation getFilteredContent :=
  (getFilteredContent trim parse_children search_adapter eval_list_query).
Local Abbreviation getFilteredContentCount :=
  (getFilteredContentCount trim search_adapter eval_count_query).

Lemma select_content_id id t r : select_content id t = Some r -> row_id r = id.
Proof.
  unfold select_content. intros H%find_some.
  destruct H as [_ H]. by apply String.eqb_eq in H.
Qed.

(** *** Reads keep the tables *)

Lemma load_child_read_only childId s :
  wp (load_child childId) s (fun _ s' => read_only s s' /\ in_txn s' = in_txn s).
Proof.
  unfold load_child. wp_step. wp_step.
  destruct (faults s (ticks s)); [split; [solve_read_only|done]|].
  destruct (select_content childId _); simpl.
  - wp_step. wp_step. simpl.
    destruct (faults s (S (ticks s))); [split; [solve_read_only|done]|].
    wp_step. split; [solve_read_only|done].
  - wp_step. split; [solve_read_only|done].
Qed.

Lemma load_children_read_only raw s :
  wp (load_children raw) s (fun _ s' => read_only s s' /\ in_txn s' = in_txn s).
Proof.
  unfold ContentService.load_children.
  destruct (parse_children raw) as [| |childrenIds].
  - wp_step. split; [apply read_only_refl|done].
  - wp_step. split; [apply read_only_refl|done].
  - case_bool_decide; [|wp_step; split; [apply read_only_refl|done]].
    wp_step. wp_step.
    destruct (faults s (ticks s)); [split; [solve_read_only|done]|].
    wp_step. wp_step. simpl.
    destruct (faults s (S (ticks s))); [split; [solve_read_only|done]|].
    wp_step.
    eapply wp_mono;
      [|apply (wp_for_each load_child
                 (fun s2 => read_only s s2 /\ in_txn s2 = in_txn s))].
    + intros [found|e] s2 [H1 H2]; [|done]. by wp_step.
    + intros x s1 [H1 H2].
      eapply wp_mono; [|apply load_child_read_only].
      intros _ s2 [H3 H4]. split; [solve_read_only|congruence].
    + split; [solve_read_only|done].
Qed.

(** The [catch] block of [getContentById] returns [null] whatever the
    rollback does. *)
Lemma rollback_and_null s (Q : outcome (option Content) -> store db_tables -> Prop) :
  (forall s', read_only s s' -> Q (Ret None) s') ->
  wp (bind (try_catch (exec ROLLBACK) (fun _ => ret tt)) (fun _ => ret None)) s Q.
Proof.
  intros HQ. wp_step. wp_step. wp_step.
  destruct (faults s (ticks s)); repeat wp_step; apply HQ; solve_read_only.
Qed.

Lemma getContentById_spec id s :
  wp (getContentById id) s (fun o s' =>
    read_only s s' /\
    exists r, o = Ret r /\ forall c, r = Some c -> aggregate_of (tables s) id c).
Proof.
  unfold ContentService.getContentById.
  destruct (String.eqb id "").
  { wp_step. split; [apply read_only_refl|]. by exists None. }
  assert (forall s', read_only s s' ->
            read_only s s' /\
            exists r : option Content, Ret None = Ret r /\
              forall c, r = Some c -> aggregate_of (tables s) id c) as Hnull.
  { intros s' H. split; [done|]. by exists None. }
  wp_step. wp_step. wp_step.
  destruct (faults s (ticks s));
    [apply rollback_and_null; intros; apply Hnull; solve_read_only|].
  wp_step. wp_step. simpl.
  destruct (faults s (S (ticks s)));
    [apply rollback_and_null; intros; apply Hnull; solve_read_only|].
  wp_step. wp_step. simpl.
  destruct (faults s (S (S (ticks s))));
    [apply rollback_and_null; intros; apply Hnull; solve_read_only|].
  destruct (select_content id (tables s)) as [r|] eqn:Hr.
  - wp_step. wp_step. simpl.
    destruct (faults s (S (S (S (ticks s)))));
      [apply rollback_and_null; intros; apply Hnull; solve_read_only|].
    wp_step. wp_step. simpl.
    destruct (faults s (S (S (S (S (ticks s))))));
      [apply rollback_and_null; intros; apply Hnull; solve_read_only|].
    wp_step.
    match goal with
    | |- wp ?m ?s1 _ =>
        assert (wp m s1 (fun o s2 =>
                  read_only s1 s2 /\ exists ch, o = Ret ch)) as Hch
    end.
    { destruct (row_children r) as [raw|];
        [destruct (String.eqb (row_type r) "collection")|].
      - wp_step. eapply wp_mono; [|apply load_children_read_only].
        intros [ch|e] s2 [H1 H2]; [by eauto|].
        wp_step. by eauto.
      - wp_step. split; [apply read_only_refl|by eauto].
      - wp_step. split; [apply read_only_refl|by eauto]. }
    eapply wp_mono; [|exact Hch].
    intros o s2 [H2 [ch ->]].
    wp_step. wp_step.
    assert (read_only s s2) as Hs2 by solve_read_only.
    destruct (faults s2 (ticks s2));
      [apply rollback_and_null; intros; apply Hnull; solve_read_only|].
    wp_step. split.
    + solve_read_only.
    + eexists. split; [done|]. intros c [= <-].
      repeat split; simpl; [by eapply select_content_id|done].
  - wp_step. wp_step. simpl.
    destruct (faults s (S (S (S (ticks s)))));
      [apply rollback_and_null; intros; apply Hnull; solve_read_only|].
    wp_step. apply Hnull. solve_read_only.
Qed.

(** [getContentById] returns from every state, and what it returns is an
    aggregate of the content it was asked for. *)
Lemma getContentById_returns id s :
  exists r s',
    getContentById id s = (Ret r, s') /\ read_only s s' /\
    forall c, r = Some c -> aggregate_of (tables s) id c.
Proof.
  pose proof (getContentById_spec id s) as H. unfold wp in H.
  destruct (getContentById id s) as [o s'] eqn:E. simpl in H.
  destruct H as (Hro & r & -> & Hr). by exists r, s'.
Qed.

(** The hydration loop of [getFilteredContent]. *)
Lemma hydrate_all ids s :
  exists hydrated s',
    for_each getContentById ids s = (Ret hydrated, s') /\ read_only s s' /\
    Forall2
      (fun id h =>
         exists s1 s2, read_only s s1 /\ getContentById id s1 = (Ret h, s2))
      ids hydrated.
Proof.
  revert s. induction ids as [|x ids IH]; intros s.
  - exists [], s. split; [done|]. split; [apply read_only_refl|constructor].
  - destruct (getContentById_returns x s) as (h & s1 & Eh & Hs1 & _).
    destruct (IH s1) as (hs & s2 & Ehs & Hs2 & Hall).
    exists (h :: hs), s2. split; [|split].
    + simpl. unfold bind at 1. rewrite Eh. unfold bind at 1. by rewrite Ehs.
    + solve_read_only.
    + constructor.
      * exists s, s1. split; [apply read_only_refl|done].
      * eapply Forall2_impl; [|exact Hall].
        intros id h' (s3 & s4 & H3 & H4). exists s3, s4.
        split; [solve_read_only|done].
Qed.

Lemma hydrated_ids ids hydrated s :
  Forall2
    (fun id h =>
       exists s1 s2, read_only s s1 /\ getContentById id s1 = (Ret h, s2))
    ids hydrated ->
  map content_id (omap id hydrated) `sublist_of` ids /\
  Forall
    (fun c =>
       exists s1 s2,
         read_only s s1 /\
         getContentById (content_id c) s1 = (Ret (Some c), s2) /\
         aggregate_of (tables s) (content_id c) c)
    (omap id hydrated) /\
  (forall x, x ∈ ids -> x ∉ map content_id (omap id hydrated) ->
     exists s1 s2, read_only s s1 /\ getContentById x s1 = (Ret None, s2)).
Proof.
  induction 1 as [|x h ids hs (s1 & s2 & Hs1 & Eh) Hall (IH1 & IH2 & IH3)].
  - split; [apply sublist_nil|]. split; [constructor|].
    intros x Hx. by apply elem_of_nil in Hx.
  - destruct (getContentById_returns x s1) as (h' & s2' & Eh' & _ & Hagg).
    rewrite Eh in Eh'. injection Eh' as <- <-.
    destruct h as [c|]; simpl.
    + destruct (Hagg c eq_refl) as (Hid & Hrow & Htags).
      destruct Hs1 as [Ht Hl].
      split; [|split].
      * rewrite Hid. by apply sublist_skip.
      * constructor; [|done]. exists s1, s2.
        rewrite Hid. split; [by split|]. split; [done|].
        rewrite <-Ht. by repeat split.
      * intros y Hy Hny. rewrite Hid in Hny.
        apply not_elem_of_cons in Hny as [Hne Hny].
        apply elem_of_cons in Hy as [->|Hy]; [done|]. by apply IH3.
    + split; [|split].
      * by apply sublist_cons.
      * done.
      * intros y Hy Hny.
        apply elem_of_cons in Hy as [->|Hy]; [by exists s1, s2|]. by apply IH3.
Qed.

(** Claim C10.  When the statement of the builder is prepared and run
    without failure, [getFilteredContent] returns a list each element of
    which is the aggregate that [getContentById] returned for its id (its
    row and its tags are those of that id); the ids of the list are a
    sub-sequence of the ids that the statement matched, in the same order;
    and a matched id that is missing from the list is one for which
    [getContentById] returned [null]. *)
Theorem filtered_content_hydrated f s :
  faults s (ticks s) = false ->
  faults s (S (ticks s)) = false ->
  let matched := matched_ids trim search_adapter eval_list_query f (tables s) in
  exists cs s',
    getFilteredContent f s = (Ret cs, s') /\
    read_only s s' /\
    map content_id cs `sublist_of` matched /\
    Forall
      (fun c =>
         exists s1 s2,
           read_only s s1 /\
           getContentById (content_id c) s1 = (Ret (Some c), s2) /\
           aggregate_of (tables s) (content_id c) c)
      cs /\
    (forall x, x ∈ matched -> x ∉ map content_id cs ->
       exists s1 s2, read_only s s1 /\ getContentById x s1 = (Ret None, s2)).
Proof.
  intros H0 H1 matched.
  set (s0 := if searching trim f
             then searched (search_query trim f) s else s).
  assert (read_only s s0 /\ ticks s0 = ticks s) as [Hs0 Ht0].
  { unfold s0. destruct (searching trim f); split; try done; solve_read_only. }
  assert (forall A (k : list string -> M db_tables A),
            bind (if searching trim f
                  then search_call search_adapter (search_query trim f)
                  else ret []) k s
            = k (candidates trim search_adapter f (tables s)) s0) as Hfirst.
  { intros A k. unfold s0, candidates. by destruct (searching trim f). }
  unfold ContentService.getFilteredContent. rewrite Hfirst.
  clearbody s0. unfold matched, matched_ids.
  destruct (list_query trim f _) as [b|].
  - pose proof Hs0 as [Htab (Hf & _ & _)].
    assert (faults s0 (ticks s0) = false) as H0' by (by rewrite Hf, Ht0).
    rewrite (bind_ret_eq _ _ _ _ _ (prepare_ok _ _ H0')).
    assert (faults (requested (EvPrepare (Built (query b))) s0)
              (ticks (requested (EvPrepare (Built (query b))) s0)) = false)
      as H1' by (by simpl; rewrite Hf, Ht0).
    rewrite (bind_ret_eq _ _ _ _ _ (read_ok _ _ _ _ H1')).
    match goal with
    | |- context [bind (for_each _ ?ids) _ ?s2] =>
        destruct (hydrate_all ids s2) as (hydrated & s3 & Eh & Hs3 & Hall);
        assert (read_only s s2) as Hs2 by solve_read_only
    end.
    rewrite (bind_ret_eq _ _ _ _ _ Eh).
    exists (omap id hydrated), s3. split; [done|].
    split; [solve_read_only|].
    change (tables (requested (EvPrepare (Built (query b))) s0))
      with (tables s0) in Hall.
    rewrite Htab in Hall.
    apply hydrated_ids. eapply Forall2_impl; [|exact Hall].
    intros x h (s4 & s5 & H4 & H5). exists s4, s5. split; [solve_read_only|done].
  - exists [], s0. split; [done|]. split; [done|].
    split; [apply sublist_nil|]. split; [constructor|].
    intros x Hx. by apply elem_of_nil in Hx.
Qed.

Lemma join_cons sep x l :
  join sep (x :: l) = x +:+ match l with [] => "" | _ => sep +:+ join sep l end.
Proof. destruct l; simpl; by rewrite ?append_nil_r. Qed.

Lemma statement_constrained v f ids b :
  searching trim f = true ->
  statement_of v trim f ids = Some b ->
  constrained_to ids b.
Proof.
  intros Hs ->%statement_of_normal_form.
  unfold constrained_to, search_conditions, search_params. rewrite Hs.
  cbv [params query whereConditions havingConditions].
  eexists _, _, (head_text v f), _. split; [reflexivity|]. split; [reflexivity|].
  unfold where_text. rewrite bool_decide_eq_true_2 by (simpl; lia).
  simpl app. rewrite join_cons, !append_assoc. reflexivity.
Qed.

(** Claim C9.  On a falsy identifier (identifiers are strings, so: on the
    empty string) [getContentById] returns [null] and leaves the handle as
    it was: no transaction is opened, nothing is asked of the store, the
    journal and the count of requests are unchanged. *)
Theorem getContentById_falsy_id id s :
  truthy_str (Some id) = false ->
  getContentById id s = (Ret None, s).
Proof.
  intros Hfalsy. apply negb_false_iff, String.eqb_eq in Hfalsy. by subst id.
Qed.

(** Claim C5.  When [search] is set and not blank: if the search adapter
    returns no candidate, [getFilteredContent] returns the empty list and
    [getFilteredContentCount] returns 0, and the only thing either did is
    the call to the adapter (no request to the store, the same number of
    requests as before); otherwise the statement that either variant
    prepares, and runs if the preparation succeeded, has
    [c.id IN (?,...)] over the candidates as the first condition of its
    [WHERE] clause, with the candidates bound first. *)
Theorem search_short_circuit f s :
  searching trim f = true ->
  let q := search_query trim f in
  let ids := search_adapter (tables s) q in
  (ids = [] ->
     getFilteredContent f s = (Ret [], searched q s) /\
     getFilteredContentCount f s = (Ret 0, searched q s) /\
     ticks (searched q s) = ticks s /\
     List.filter store_request (journal (searched q s))
       = List.filter store_request (journal s)) /\
  (ids <> [] ->
     exists bl bc,
       statement_of ListVariant trim f ids = Some bl /\
       statement_of CountVariant trim f ids = Some bc /\
       constrained_to ids bl /\
       constrained_to ids bc /\
       issues q bl s (snd (getFilteredContent f s)) /\
       issues q bc s (snd (getFilteredContentCount f s))).
Proof.
  intros Hs q ids.
  assert (forall A (k : list string -> M db_tables A),
            bind (if searching trim f
                  then search_call search_adapter (search_query trim f)
                  else ret []) k s
            = k ids (searched q s)) as Hfirst.
  { intros A k. by rewrite Hs. }
  unfold ContentService.getFilteredContent,
    ContentService.getFilteredContentCount.
  rewrite !Hfirst. split.
  - intros Hids. unfold list_query. rewrite Hs, Hids. simpl.
    repeat split. unfold searched; simpl.
    by rewrite List.filter_app, app_nil_r.
  - intros Hids.
    assert (searching trim f && bool_decide (ids = []) = false) as Hgo.
    { rewrite Hs. simpl. by apply bool_decide_eq_false_2. }
    assert (statement_of ListVariant trim f ids
            = Some (add_pagination f (list_sorted trim f ids))) as Hl.
    { simpl. unfold list_query. by rewrite Hgo. }
    assert (statement_of CountVariant trim f ids
            = Some (count_query trim f ids)) as Hc.
    { simpl. by rewrite Hgo. }
    exists (add_pagination f (list_sorted trim f ids)), (count_query trim f ids).
    split; [exact Hl|]. split; [exact Hc|].
    split; [by apply (statement_constrained ListVariant f)|].
    split; [by apply (statement_constrained CountVariant f)|].
    simpl in Hl. rewrite Hl, Hgo.
    set (s0 := searched q s).
    assert (faults s0 = faults s /\ ticks s0 = ticks s
            /\ journal s0 = journal s ++ [EvSearch q]) as (Hf & Ht & Hj) by done.
    clearbody s0. split.
    + unfold issues. set (b := add_pagination f (list_sorted trim f ids)).
      destruct (faults s0 (ticks s0)) eqn:F0.
      { rewrite (bind_throw_eq _ _ _ _ _ (prepare_fails _ _ F0)). simpl.
        exists []. split; [by rewrite Hj, <-app_assoc|].
        rewrite Hf, Ht in F0. congruence. }
      rewrite (bind_ret_eq _ _ _ _ _ (prepare_ok _ _ F0)).
      set (s1 := requested (EvPrepare (Built (query b))) s0).
      destruct (faults s1 (ticks s1)) eqn:F1.
      { rewrite (bind_throw_eq _ _ _ _ _ (read_fails _ _ _ _ F1)). simpl.
        eexists. split; [by rewrite Hj, <-!app_assoc|]. by eexists. }
      rewrite (bind_ret_eq _ _ _ _ _ (read_ok _ _ _ _ F1)).
      match goal with
      | |- context [bind (for_each _ ?xs) _ ?s2] =>
          destruct (hydrate_all xs s2)
            as (hydrated & s3 & Eh & (_ & _ & _ & evs & Hj3) & _)
      end.
      rewrite (bind_ret_eq _ _ _ _ _ Eh). simpl. rewrite Hj3. simpl.
      eexists. split; [by rewrite Hj, <-!app_assoc|]. by eexists.
    + unfold issues. set (b := count_query trim f ids).
      destruct (faults s0 (ticks s0)) eqn:F0.
      { rewrite (bind_throw_eq _ _ _ _ _ (prepare_fails _ _ F0)). simpl.
        exists []. split; [by rewrite Hj, <-app_assoc|].
        rewrite Hf, Ht in F0. congruence. }
      rewrite (bind_ret_eq _ _ _ _ _ (prepare_ok _ _ F0)).
      set (s1 := requested (EvPrepare (Built (query b))) s0).
      destruct (faults s1 (ticks s1)) eqn:F1.
      { rewrite (bind_throw_eq _ _ _ _ _ (read_fails _ _ _ _ F1)). simpl.
        eexists. split; [by rewrite Hj, <-!app_assoc|]. by eexists. }
      rewrite (bind_ret_eq _ _ _ _ _ (read_ok _ _ _ _ F1)). simpl.
      eexists. split; [by rewrite Hj, <-!app_assoc|]. by eexists.
Qed.

(** *** Collections *)

Lemma omap_id_map {A B} (g : A -> option B) (l : list A) :
  omap id (map g l) = omap g l.
Proof.
  induction l as [|x l IH]; [done|].
  change (map g (x :: l)) with (g x :: map g l).
  change (omap id (g x :: map g l))
    with (match g x with Some y => y :: omap id (map g l) | None => omap id (map g l) end).
  change (omap g (x :: l))
    with (match g x with Some y => y :: omap g l | None => omap g l end).
  by rewrite IH.
Qed.

Lemma load_child_ok childId s :
  fault_free s ->
  wp (load_child childId) s (fun o s' =>
    o = Ret (resolve_child (tables s) childId) /\
    read_only s s' /\ in_txn s' = in_txn s).
Proof.
  intros Hff. unfold load_child, resolve_child.
  wp_step. wp_step. rewrite Hff.
  destruct (select_content childId (tables s)) as [r|]; simpl.
  - wp_step. wp_step. simpl. rewrite Hff. wp_step.
    repeat split; solve_read_only.
  - wp_step. repeat split; solve_read_only.
Qed.

Lemma children_loop_ok childrenIds s :
  fault_free s ->
  wp (for_each load_child childrenIds) s (fun o s' =>
    o = Ret (map (resolve_child (tables s)) childrenIds) /\
    read_only s s' /\ in_txn s' = in_txn s).
Proof.
  revert s. induction childrenIds as [|x xs IH]; intros s Hff; simpl.
  - wp_step. repeat split; solve_read_only.
  - wp_step. eapply wp_mono; [|by apply load_child_ok].
    intros o s1 (-> & Hs1 & Ht1).
    wp_step. eapply wp_mono; [|apply IH].
    + intros o s2 (-> & Hs2 & Ht2). wp_step.
      destruct Hs1 as [Htab Hl1]. rewrite Htab.
      split; [done|]. split; [|congruence].
      eapply read_only_trans; [|exact Hs2]. by split.
    + eapply fault_free_later; [|exact Hff]. by destruct Hs1.
Qed.

Lemma resolved_child_ids t childrenIds :
  map content_id (omap (resolve_child t) childrenIds)
  = List.filter (resolves t) childrenIds.
Proof.
  induction childrenIds as [|x xs IH]; [done|].
  change (omap (resolve_child t) (x :: xs))
    with (match resolve_child t x with
          | Some y => y :: omap (resolve_child t) xs
          | None => omap (resolve_child t) xs
          end).
  unfold resolve_child at 1. simpl. unfold resolves at 1.
  destruct (select_content x t) as [r|] eqn:Hr; simpl; [|done].
  rewrite IH. f_equal. unfold content_id. simpl. by eapply select_content_id.
Qed.

Lemma resolved_children_shape t childrenIds :
  Forall
    (fun k =>
       content_children k = Resolved [] /\
       content_tags k = select_tags (content_id k) t)
    (omap (resolve_child t) childrenIds).
Proof.
  apply list.Forall_forall. intros k (x & _ & Hk)%list_elem_of_omap.
  unfold resolve_child in Hk.
  destruct (select_content x t) as [r|] eqn:Hr; simplify_eq/=.
  split; [done|]. unfold content_id. simpl.
  by rewrite (select_content_id _ _ _ Hr).
Qed.

(** Claim C6, as amended.  For a collection whose stored [children] parses
    to the list [childrenIds], when no request fails [getContentById]
    returns the aggregate of the row and commits.  When the list is not
    empty, [children] is the array of one child aggregate for each
    identifier that resolves to a row: as many as resolve, in the order of
    the stored list, the others dropped; each child carries its own tags
    and an empty children array.  When the list is empty, [children] is not
    an array: it stays the stored text. *)
Theorem collection_children_resolved id s r raw childrenIds :
  id <> "" ->
  fault_free s ->
  select_content id (tables s) = Some r ->
  row_type r = "collection" ->
  row_children r = Some raw ->
  parse_children raw = ParsedArray childrenIds ->
  let t := tables s in
  let kids := omap (resolve_child t) childrenIds in
  exists c s',
    getContentById id s = (Ret (Some c), s') /\
    read_only s s' /\ in_txn s' = false /\
    content_row_of c = r /\
    content_tags c = select_tags id t /\
    (childrenIds <> [] -> children_as_claimed t childrenIds c) /\
    (childrenIds = [] -> content_children c = Stored (Some raw)) /\
    length kids = length (List.filter (resolves t) childrenIds) /\
    map content_id kids = List.filter (resolves t) childrenIds /\
    Forall
      (fun k =>
         content_children k = Resolved [] /\
         content_tags k = select_tags (content_id k) t)
      kids.
Proof.
  intros Hid Hff Hr Hty Hch Hparse t kids.
  set (ch := if bool_decide (childrenIds = []) then Stored (Some raw)
             else Resolved kids).
  assert (wp (getContentById id) s (fun o s' =>
            o = Ret (Some (mkContent r (select_tags id t) ch)) /\
            read_only s s' /\ in_txn s' = false)) as Hwp.
  { unfold ContentService.getContentById.
    apply String.eqb_neq in Hid. rewrite Hid.
    wp_step. wp_step. wp_step. rewrite Hff.
    wp_step. wp_step. simpl. rewrite Hff.
    wp_step. wp_step. simpl. rewrite Hff, Hr.
    wp_step. wp_step. simpl. rewrite Hff.
    wp_step. wp_step. simpl. rewrite Hff.
    wp_step. rewrite Hch, Hty. simpl.
    match goal with
    | |- wp _ ?s1 _ =>
        assert (wp (load_children raw) s1 (fun o s2 =>
                  o = Ret ch /\ read_only s1 s2 /\ in_txn s2 = true)) as Hload
    end.
    { unfold ContentService.load_children. rewrite Hparse.
      unfold ch. destruct (decide (childrenIds = [])) as [->|Hne].
      - rewrite bool_decide_eq_false_2 by (simpl; lia).
        rewrite bool_decide_eq_true_2 by done.
        wp_step. repeat split; solve_read_only.
      - rewrite bool_decide_eq_true_2 by (destruct childrenIds; [done|simpl; lia]).
        rewrite bool_decide_eq_false_2 by done.
        wp_step. wp_step. cbn [faults ticks requested]. rewrite Hff.
        wp_step. wp_step. cbn [faults ticks requested]. rewrite Hff.
        wp_step. eapply wp_mono; [|apply children_loop_ok; intros k; apply Hff].
        intros o s2 (-> & Hs2 & Ht2). wp_step.
        rewrite omap_id_map. split; [done|]. split; [solve_read_only|done]. }
    wp_step. eapply wp_mono; [|exact Hload].
    intros o s2 (-> & Hs2 & Ht2).
    wp_step. wp_step.
    assert (faults s2 (ticks s2) = false) as Hf2.
    { destruct Hs2 as (_ & -> & _). apply Hff. }
    rewrite Hf2. wp_step.
    split; [done|]. split; [solve_read_only|done]. }
  apply wp_run in Hwp as (o & s' & E & -> & Hro & Htx).
  eexists _, s'. split; [exact E|]. split; [exact Hro|]. split; [exact Htx|].
  split; [done|]. split; [done|].
  split.
  { intros Hne. unfold children_as_claimed, ch. simpl.
    by rewrite bool_decide_eq_false_2. }
  split.
  { intros Hnil. unfold ch. simpl. by rewrite bool_decide_eq_true_2. }
  split; [by rewrite <-resolved_child_ids, length_map|].
  split; [apply resolved_child_ids|apply resolved_children_shape].
Qed.
End ContentServiceFacts.

(** ** Placeholders and parameters *)

Lemma count_placeholders_app (s1 s2 : string) :
  count_placeholders (s1 +:+ s2)
  = (count_placeholders s1 + count_placeholders s2)%nat.
Proof.
  induction s1 as [|a s1 IH]; [done|].
  change (count_placeholders (String a (s1 +:+ s2))
          = (count_placeholders (String a s1) + count_placeholders s2)%nat).
  simpl. rewrite IH. lia.
Qed.

Lemma count_placeholders_join_and (conds1 conds2 : list string) :
  count_placeholders (join " AND " (conds1 ++ conds2))
  = (count_placeholders (join " AND " conds1)
     + count_placeholders (join " AND " conds2))%nat.
Proof.
  induction conds1 as [|c conds1 IH]; [done|].
  change ((c :: conds1) ++ conds2) with (c :: (conds1 ++ conds2)).
  rewrite !join_cons, !count_placeholders_app.
  destruct conds1 as [|c' conds1].
  - simpl app. destruct conds2 as [|c2 conds2]; [done|].
    rewrite count_placeholders_app. simpl. lia.
  - change ((c' :: conds1) ++ conds2) with (c' :: (conds1 ++ conds2)) in *.
    rewrite !count_placeholders_app, IH. simpl. lia.
Qed.

Lemma count_placeholders_list {A} (xs : list A) :
  count_placeholders (placeholders xs) = length xs.
Proof.
  unfold placeholders. induction xs as [|x xs IH]; [done|].
  destruct xs as [|x' xs]; [done|].
  change (count_placeholders
            ("?" +:+ "," +:+ join "," (map (fun _ : A => "?") (x' :: xs)))
          = S (length (x' :: xs))).
  by rewrite !count_placeholders_app, IH.
Qed.

Lemma count_placeholders_order_by (f : ContentFilters) :
  count_placeholders (order_by f) = 0%nat.
Proof. unfold order_by. by repeat case_bool_decide. Qed.

Section Alignment.
Variable trim : string -> string.

(** Every [?] of a built statement has its parameter, and conversely. *)
Lemma placeholders_match_params v f ids b :
  statement_of v trim f ids = Some b ->
  count_placeholders (query b) = length (params b).
Proof.
  intros ->%statement_of_normal_form.
  cbv [params query whereConditions havingConditions].
  rewrite !count_placeholders_app, !length_app.
  assert (count_placeholders
            (where_text (search_conditions trim f ids ++ status_conditions f
                           ++ type_conditions f ++ tag_conditions f))
          = (length (search_params trim f ids) + length (status_params f)
             + length (type_params f) + length (tag_slugs f))%nat) as ->.
  { assert (forall conds,
              count_placeholders (where_text conds)
              = count_placeholders (join " AND " conds)) as Hwhere.
    { intros conds. unfold where_text. case_bool_decide as Hlen.
      - by rewrite count_placeholders_app.
      - destruct conds; [done|]. simpl in Hlen. lia. }
    rewrite Hwhere, !count_placeholders_join_and.
    unfold search_conditions, search_params, status_conditions, status_params,
      type_conditions, type_params, tag_conditions.
    destruct (searching trim f), (status f) as [st|], (truthy_str (type f));
      repeat case_bool_decide; simpl;
      rewrite ?count_placeholders_app, ?count_placeholders_list, ?length_map;
      simpl; try lia.
    all: destruct (tag_slugs f); simpl in *; try lia. }
  unfold tag_params, head_text, rest_text, tail_text, tail_params, group_text,
    join_text, pagination_text, pagination_params.
  rewrite length_app, length_map.
  assert (count_placeholders list_select = 0%nat) as Hl by reflexivity.
  assert (count_placeholders count_select = 0%nat) as Hc by reflexivity.
  assert (count_placeholders tags_join = 0%nat) as Hj by reflexivity.
  assert (count_placeholders count_groups_open = 0%nat) as Hg by reflexivity.
  destruct v, (truthy_num (limit f)), (truthy_num (offset f));
    repeat case_bool_decide;
    rewrite ?count_placeholders_app, ?count_placeholders_order_by, ?Hl, ?Hc, ?Hj, ?Hg;
    simpl; lia.
Qed.
End Alignment.

(** ** Lists *)

Lemma filter_elem {A} (p : A -> bool) (l : list A) (x : A) :
  x ∈ List.filter p l <-> x ∈ l /\ p x = true.
Proof. by rewrite !list_elem_of_In, filter_In. Qed.

Lemma map_elem {A B} (g : A -> B) (l : list A) (y : B) :
  y ∈ map g l <-> exists x, g x = y /\ x ∈ l.
Proof.
  rewrite list_elem_of_In, in_map_iff.
  by setoid_rewrite list_elem_of_In.
Qed.

(** ** The function-style module: tag replacement, failures *)

Section DbFacts.
Import Db.

Variable DRAFT : string.
Variable stringify_ids : list Z -> string.
Variable now : string.
Variable default_published_at : option string.
Variable default_likes default_saves : Z.

Local Abbreviation create_content :=
  (create_content DRAFT stringify_ids now default_published_at
     default_likes default_saves).
Local Abbreviation update_content := (update_content stringify_ids now).

Lemma filter_nothing {A} (l : list A) : List.filter (fun _ => false) l = [].
Proof. by induction l. Qed.

(** *** Tag replacement *)

(** With a tag list that is not empty the statement is run with a
    placeholder left without a value: the run throws, the handler of
    [update_content_tags] returns, and nothing has been written, whatever
    else the store does. *)
Lemma update_content_tags_writes_nothing contentId tag tags s :
  wp (update_content_tags contentId (tag :: tags)) s (fun _ s' =>
    tables s' = tables s /\
    exists evs,
      journal s' = journal s ++ evs /\
      Forall (fun ev => store_request ev = true) evs).
Proof.
  unfold update_content_tags.
  wp_step. wp_step. destruct (faults s (ticks s)).
  { split; [done|]. eexists. split; [reflexivity|]. by repeat constructor. }
  wp_step. wp_step. simpl. destruct (faults s (S (ticks s))).
  { split; [done|]. eexists. split; [by rewrite <-app_assoc|]. by repeat constructor. }
  wp_step. wp_step. wp_step. simpl.
  destruct (faults s (S (S (ticks s)))); wp_step; simpl;
    (split; [done|]; eexists; split; [by rewrite <-!app_assoc|];
     by repeat constructor).
Qed.

(** With the empty list both statements run: every pair of the content is
    removed and none is inserted. *)
Lemma update_content_tags_clears c s :
  fault_free s ->
  exists s',
    update_content_tags c [] s = (Ret tt, s') /\
    content (tables s') = content (tables s) /\
    content_to_tags (tables s')
      = List.filter (fun p => negb (fst p =? c)) (content_to_tags (tables s)).
Proof.
  intros Hff. unfold update_content_tags.
  rewrite (bind_ret_eq _ _ _ _ _ (prepare_ok _ _ (Hff _))).
  set (s1 := requested (EvPrepare RemoveTags) s).
  assert (faults s1 (ticks s1) = false) as F1 by apply Hff.
  rewrite (bind_ret_eq _ _ _ _ _ (prepare_ok _ _ F1)).
  set (s2 := requested (EvPrepare UpsertTags) s1).
  assert (faults s2 (ticks s2) = false) as F2 by apply Hff.
  erewrite try_catch_ret_eq; cycle 1.
  { erewrite bind_ret_eq; cycle 1.
    { apply write_ok; [exact F2|reflexivity]. }
    apply write_ok; [apply Hff|reflexivity]. }
  eexists. split; [reflexivity|].
  cbn [journal tables in_txn ticks faults requested s1 s2
       content tag_ids content_to_tags last_rowid fst snd].
  split; [done|].
  rewrite filter_nothing. simpl.
  apply filter_ext. intros p. by rewrite andb_true_r.
Qed.

(** *** Failures *)

Lemma catch_all_returns {T A} (m : M T A) (a : A) s :
  exists r s', try_catch m (fun _ => ret a) s = (Ret r, s').
Proof.
  unfold try_catch. destruct (m s) as [[r|e] s']; by eauto.
Qed.

Lemma update_content_tags_returns contentId tags s :
  faults s (ticks s) = false ->
  faults s (S (ticks s)) = false ->
  exists s', update_content_tags contentId tags s = (Ret tt, s').
Proof.
  intros F0 F1. unfold update_content_tags.
  rewrite (bind_ret_eq _ _ _ _ _ (prepare_ok _ _ F0)).
  assert (faults (requested (EvPrepare RemoveTags) s)
            (ticks (requested (EvPrepare RemoveTags) s)) = false) as F1' by done.
  rewrite (bind_ret_eq _ _ _ _ _ (prepare_ok _ _ F1')).
  match goal with
  | |- context [try_catch ?m _ ?s2] =>
      destruct (catch_all_returns m tt s2) as ([] & s' & E)
  end.
  by exists s'.
Qed.

Lemma delete_content_returns id s :
  faults s (ticks s) = false ->
  (exists b s', delete_content id s = (Ret b, s')) /\
  (faults s (S (ticks s)) = true ->
   exists s', delete_content id s = (Ret false, s')).
Proof.
  intros F0. unfold delete_content.
  rewrite (bind_ret_eq _ _ _ _ _ (prepare_ok _ _ F0)). split.
  - apply catch_all_returns.
  - intros F1. erewrite try_catch_throw_eq; [by eexists|].
    apply bind_throw_eq. by apply write_fails.
Qed.

Lemma create_content_returns input s :
  faults s (ticks s) = false ->
  (exists r s', create_content input s = (Ret r, s')) /\
  (faults s (S (ticks s)) = true ->
   exists s', create_content input s = (Ret None, s')).
Proof.
  intros F0. unfold Db.create_content.
  rewrite (bind_ret_eq _ _ _ _ _ (prepare_ok _ _ F0)). split.
  - apply catch_all_returns.
  - intros F1. erewrite try_catch_throw_eq; [by eexists|].
    apply bind_throw_eq. by apply write_fails.
Qed.

Lemma update_content_returns input id s :
  faults s (ticks s) = false ->
  (exists b s', update_content input id s = (Ret b, s')) /\
  (faults s (S (ticks s)) = true ->
   exists s', update_content input id s = (Ret false, s')).
Proof.
  intros F0. unfold Db.update_content.
  rewrite (bind_ret_eq _ _ _ _ _ (prepare_ok _ _ F0)). split.
  - apply catch_all_returns.
  - intros F1. erewrite try_catch_throw_eq; [by eexists|].
    apply bind_throw_eq. by apply write_fails.
Qed.

(** *** [published_at] on this path *)

Lemma update_content_tags_keeps_content contentId tags s :
  wp (update_content_tags contentId tags) s (fun _ s' =>
    content (tables s') = content (tables s)).
Proof.
  unfold update_content_tags.
  wp_step. wp_step. destruct (faults s (ticks s)); [done|].
  wp_step. wp_step. simpl. destruct (faults s (S (ticks s))); [done|].
  wp_step. wp_step. wp_step. simpl.
  destruct (faults s (S (S (ticks s)))); [by wp_step|].
  unfold run_with_object. case_bool_decide; [by wp_step|].
  simpl. wp_step. simpl.
  destruct (faults s (S (S (S (ticks s))))); try wp_step; done.
Qed.

(** [update_content] never writes [published_at]. *)
Lemma update_content_keeps_published_at input id s :
  wp (update_content input id) s (fun _ s' =>
    map row_published_at (content (tables s'))
    = map row_published_at (content (tables s))).
Proof.
  unfold Db.update_content.
  wp_step. wp_step. destruct (faults s (ticks s)); [done|].
  wp_step. wp_step. wp_step. simpl.
  destruct (faults s (S (ticks s))); [by wp_step|].
  wp_step. eapply wp_mono; [|apply update_content_tags_keeps_content].
  intros o s' E. simpl in E.
  assert (map row_published_at (content (tables s'))
          = map row_published_at (content (tables s))) as Hkeep.
  { rewrite E, map_map. apply map_ext. intros r. unfold update_row.
    by destruct (row_id r =? id). }
  destruct o; by wp_step.
Qed.

(** The row that [create_content] inserts has the schema's default
    [published_at], whatever its status. *)
Lemma create_content_published_at input s :
  wp (create_content input) s (fun o s' =>
    forall id, o = Ret (Some id) ->
      exists r,
        content (tables s') = content (tables s) ++ [r] /\
        row_id r = id /\
        row_status r = Some (default DRAFT (status input)) /\
        row_published_at r = default_published_at).
Proof.
  unfold Db.create_content.
  wp_step. wp_step. destruct (faults s (ticks s)); [done|].
  wp_step. wp_step. wp_step. simpl.
  destruct (faults s (S (ticks s))); [by wp_step|].
  wp_step. eapply wp_mono; [|apply update_content_tags_keeps_content].
  intros o s' E. simpl in E.
  destruct o; wp_step; [|done].
  intros id [= <-]. eexists. by rewrite E.
Qed.

(** [update_content] with a tag list that is not empty leaves every
    association as it is. *)
Lemma update_content_writes_no_pair input id s :
  default [] (tags input) <> [] ->
  wp (update_content input id) s (fun _ s' =>
    content_to_tags (tables s') = content_to_tags (tables s)).
Proof.
  intros Hne. unfold Db.update_content.
  destruct (default [] (tags input)) as [|tag new]; [done|].
  wp_step. wp_step. destruct (faults s (ticks s)); [done|].
  wp_step. wp_step. wp_step. simpl.
  destruct (faults s (S (ticks s))); [by wp_step|].
  wp_step. eapply wp_mono; [|apply update_content_tags_writes_nothing].
  intros o s' [E _]. simpl in E.
  destruct o; wp_step; by rewrite E.
Qed.

End DbFacts.

(** ** [ContentService]: mutations *)

Section ContentServiceMutations.
Import ContentService.

Lemma has_pair_elem_str c tg l : has_pair c tg l = true <-> (c, tg) ∈ l.
Proof.
  unfold has_pair. rewrite existsb_exists, list_elem_of_In. split.
  - intros ([c' t'] & Hin & H). simpl in H.
    apply andb_true_iff in H as [?%String.eqb_eq ?%String.eqb_eq]. by subst.
  - intros Hin. exists (c, tg). split; [done|]. simpl.
    by rewrite !String.eqb_refl.
Qed.

(** *** [published_at] *)

Lemma published_at_case_spec old new_status now :
  (row_status old <> "published" -> new_status = "published" ->
   published_at_case old new_status now = Some now) /\
  (row_status old = "published" -> new_status <> "published" ->
   published_at_case old new_status now = None) /\
  ((row_status old = "published" <-> new_status = "published") ->
   published_at_case old new_status now = row_published_at old).
Proof.
  unfold published_at_case.
  destruct (String.eqb_spec (row_status old) "published") as [Ho|Ho],
    (String.eqb_spec new_status "published") as [Hn|Hn]; simpl;
    repeat split; try done; intros; tauto.
Qed.

Lemma update_row_keeps_invariant id data now r :
  publication_invariant r -> publication_invariant (update_row id data now r).
Proof.
  unfold update_row. destruct (String.eqb (row_id r) id); [|done].
  unfold publication_invariant, published_iff_dated, published_at_case. simpl.
  destruct (String.eqb_spec (row_status r) "published") as [Ho|Ho],
    (String.eqb_spec (data_status data) "published") as [Hn|Hn]; simpl;
    intros H; done.
Qed.

Lemma insert_tags_keeps_content id tags s :
  wp (insert_tags id tags) s (fun _ s' => content (tables s') = content (tables s)).
Proof.
  unfold insert_tags. case_bool_decide; [|by wp_step].
  wp_step. wp_step. destruct (faults s (ticks s)); [done|].
  wp_step.
  eapply wp_mono;
    [|apply (wp_for_each _ (fun s2 => content (tables s2) = content (tables s)))].
  - intros [?|?] s2 E; [by wp_step|done].
  - intros tag s1 E. wp_step.
    destruct (faults s1 (ticks s1)); [done|].
    unfold insert_content_tag. by destruct (has_pair _ _ _).
  - done.
Qed.

(** Both mutations of the class keep the publication invariant, whatever
    fails. *)
Lemma updateContent_keeps_invariant now id data s :
  Forall publication_invariant (content (tables s)) ->
  wp (updateContent now id data) s (fun _ s' =>
    Forall publication_invariant (content (tables s'))).
Proof.
  intros Hinv. unfold updateContent.
  wp_step. wp_step. destruct (faults s (ticks s)); [done|].
  wp_step. wp_step. simpl. destruct (faults s (S (ticks s))); [done|].
  assert (Forall publication_invariant
            (map (update_row id data now) (content (tables s)))) as Hinv'.
  { induction Hinv; simpl; constructor;
      auto using update_row_keeps_invariant. }
  wp_step. wp_step. simpl. destruct (faults s (S (S (ticks s)))); [done|].
  wp_step. wp_step. simpl. destruct (faults s (S (S (S (ticks s))))); [done|].
  eapply wp_mono; [|apply insert_tags_keeps_content].
  intros o s' E. simpl in E. by rewrite E.
Qed.

Lemma addContent_keeps_invariant id now data s :
  Forall publication_invariant (content (tables s)) ->
  wp (addContent id now data) s (fun _ s' =>
    Forall publication_invariant (content (tables s'))).
Proof.
  intros Hinv. unfold addContent.
  wp_step. wp_step. destruct (faults s (ticks s)); [done|].
  wp_step. wp_step. simpl. destruct (faults s (S (ticks s))); [done|].
  wp_step. eapply wp_mono; [|apply insert_tags_keeps_content].
  intros o s' E. simpl in E.
  assert (Forall publication_invariant (content (tables s'))) as Hinv'.
  { rewrite E. apply Forall_app. split; [done|]. constructor; [|done].
    unfold publication_invariant, published_iff_dated. simpl.
    destruct (String.eqb (data_status data) "published"); split; try done.
    all: by intros [? ?]. }
  destruct o; [by wp_step|done].
Qed.

(** *** Tag replacement *)

(** The loop [for (const tag of data.tags) insertTagStmt.run(id, tag)]
    when no request fails and no pair is present. *)
Lemma insert_loop_ok id tags s :
  fault_free s ->
  NoDup tags ->
  (forall tag, tag ∈ tags -> (id, tag) ∉ content_to_tags (tables s)) ->
  exists s' evs,
    for_each
      (fun tag =>
         write InsertContentTag [PStr id; PStr tag] (insert_content_tag id tag))
      tags s
    = (Ret (map (fun _ => tt) tags), s') /\
    content (tables s') = content (tables s) /\
    content_to_tags (tables s') = content_to_tags (tables s) ++ map (pair id) tags /\
    faults s' = faults s /\
    journal s' = journal s ++ evs /\
    (forall tag, tag ∈ tags -> EvRowInserted (PStr id) (PStr tag) ∈ evs).
Proof.
  revert s. induction tags as [|tag tags IH]; intros s Hff Hnd Hfresh.
  - exists s, []. simpl. rewrite !app_nil_r. repeat split; try done.
    intros tag Htag. by apply elem_of_nil in Htag.
  - apply list.NoDup_cons in Hnd as [Hnotin Hnd].
    assert (has_pair id tag (content_to_tags (tables s)) = false) as Hp.
    { apply not_true_is_false. intros H%has_pair_elem_str.
      eapply Hfresh; [|exact H]. by apply elem_of_cons; left. }
    set (s1 := mkStore
                 (mkTables (content (tables s)) (tag_table (tables s))
                    (content_to_tags (tables s) ++ [(id, tag)]))
                 (in_txn s)
                 ((journal s ++ [EvStep InsertContentTag [PStr id; PStr tag]])
                    ++ [EvRowInserted (PStr id) (PStr tag)])
                 (S (ticks s)) (faults s)).
    assert (write InsertContentTag [PStr id; PStr tag]
              (insert_content_tag id tag) s = (Ret tt, s1)) as E1.
    { apply write_ok; [apply Hff|]. unfold insert_content_tag. by rewrite Hp. }
    destruct (IH s1) as (s' & evs & E & Hc & Hp' & Hf & Hj & Hev).
    + intros k. apply Hff.
    + done.
    + intros tag' Htag' Hin. simpl in Hin.
      apply elem_of_app in Hin as [Hin|Hin].
      * eapply Hfresh; [|exact Hin]. by apply elem_of_cons; right.
      * apply list_elem_of_singleton in Hin as [= <-]. done.
    + exists s', ([EvStep InsertContentTag [PStr id; PStr tag];
                  EvRowInserted (PStr id) (PStr tag)] ++ evs).
      split.
      { simpl. rewrite (bind_ret_eq _ _ _ _ _ E1).
        by rewrite (bind_ret_eq _ _ _ _ _ E). }
      split; [done|]. split; [by rewrite Hp'; simpl; rewrite <-app_assoc|].
      split; [done|]. split; [by rewrite Hj; simpl; rewrite <-!app_assoc|].
      intros tag' Htag'. apply elem_of_cons in Htag' as [->|Htag'].
      * apply elem_of_cons; right. by apply elem_of_cons; left.
      * apply elem_of_cons; right. apply elem_of_cons; right. by apply Hev.
Qed.

(** [updateContent] replaces the tags by deleting and inserting.  When no
    request fails and the new tags are distinct, the tags associated with
    the content afterwards are exactly the new ones and the pairs of other
    contents are unchanged; every pair of the content is deleted first, so
    a pair that is in the old and in the new set is deleted and inserted
    again. *)
Theorem updateContent_deletes_then_inserts now id data s :
  fault_free s ->
  NoDup (data_tags data) ->
  exists s' evs,
    updateContent now id data s = (Ret tt, s') /\
    journal s' = journal s ++ evs /\
    associations_replaced id (data_tags data) (fun _ => True)
      (content_to_tags (tables s)) (content_to_tags (tables s')) /\
    common_pairs_rewritten PStr id (data_tags data)
      (content_to_tags (tables s)) evs.
Proof.
  intros Hff Hnd. unfold updateContent.
  rewrite (bind_ret_eq _ _ _ _ _ (prepare_ok _ _ (Hff _))).
  erewrite bind_ret_eq; cycle 1.
  { apply write_ok; [apply Hff|reflexivity]. }
  erewrite bind_ret_eq; cycle 1.
  { apply prepare_ok. apply Hff. }
  erewrite bind_ret_eq; cycle 1.
  { apply write_ok; [apply Hff|reflexivity]. }
  set (pairs := content_to_tags (tables s)).
  set (kept := List.filter (fun p : string * string => negb (String.eqb (fst p) id)) pairs).
  set (gone := List.filter (fun p : string * string => String.eqb (fst p) id) pairs).
  assert (forall c t, (c, t) ∈ kept <-> (c, t) ∈ pairs /\ c <> id) as Hkept.
  { intros c t. unfold kept. rewrite filter_elem. simpl.
    by rewrite negb_true_iff, String.eqb_neq. }
  assert (forall t, (id, t) ∈ pairs ->
            EvRowDeleted (PStr id) (PStr t)
            ∈ map (fun p : string * string =>
                     EvRowDeleted (PStr (fst p)) (PStr (snd p))) gone) as Hgone.
  { intros t Hin. apply map_elem. exists (id, t). split; [done|].
    unfold gone. apply filter_elem. split; [done|]. simpl.
    apply String.eqb_refl. }
  match goal with
  | |- context [insert_tags _ _ ?st] => set (s4 := st)
  end.
  assert (fault_free s4) as Hff4 by (intros k; apply Hff).
  assert (content_to_tags (tables s4) = kept) as Hp4 by done.
  assert (journal s4 =
          journal s ++
            [EvPrepare UpdateContent;
             EvStep UpdateContent
               [PStr (title data); PStr (slug data); PStr (description data);
                PStr (data_type data); PStr (data_status data);
                PStr (body data); PStr now; PStr (data_status data);
                PStr now; PStr (data_status data); PStr id];
             EvPrepare DeleteContentTags;
             EvStep DeleteContentTags [PStr id]] ++
            map (fun p : string * string =>
                   EvRowDeleted (PStr (fst p)) (PStr (snd p))) gone) as Hj4.
  { unfold s4. simpl. by rewrite <-!app_assoc. }
  clearbody s4.
  unfold insert_tags. case_bool_decide as Hlen.
  - rewrite (bind_ret_eq _ _ _ _ _ (prepare_ok _ _ (Hff4 _))).
    set (s5 := requested (EvPrepare InsertContentTag) s4).
    destruct (insert_loop_ok id (data_tags data) s5)
      as (s' & evs & E & _ & Hp' & _ & Hj & Hev).
    + intros k. apply Hff4.
    + done.
    + intros tag _ Hin. simpl in Hin. rewrite Hp4 in Hin.
      apply Hkept in Hin as [_ ?]. done.
    + rewrite (bind_ret_eq _ _ _ _ _ E).
      eexists s', _. split; [reflexivity|].
      split; [rewrite Hj; simpl; rewrite Hj4, <-!app_assoc; reflexivity|].
      split; [split|].
      * intros t. rewrite Hp'. simpl. rewrite Hp4, elem_of_app, Hkept, map_elem.
        split.
        -- intros [[_ ?]|(t' & [= <-] & Ht')]; [done|]. by auto.
        -- intros [Ht _]. right. by exists t.
      * intros c t Hne. rewrite Hp'. simpl. rewrite Hp4, elem_of_app, Hkept, map_elem.
        split.
        -- intros [[? _]|(t' & [= -> <-] & _)]; done.
        -- intros Hin. by left.
      * intros t Hin Hnew. split.
        -- apply elem_of_app; right. apply elem_of_app; left. by apply Hgone.
        -- apply elem_of_app; right. apply elem_of_app; right.
           apply elem_of_cons; right. by apply Hev.
  - assert (data_tags data = []) as Hnil.
    { destruct (data_tags data); [done|]. simpl in Hlen. lia. }
    eexists s4, _. split; [reflexivity|]. split; [exact Hj4|].
    rewrite Hp4, Hnil. split; [split|].
    + intros t. rewrite Hkept. split.
      * intros [_ ?]. done.
      * intros [Ht _]. by apply elem_of_nil in Ht.
    + intros c t Hne. rewrite Hkept. split; [by intros [? _]|by intros ?].
    + intros t _ Ht. by apply elem_of_nil in Ht.
Qed.

(** *** Failures reach the caller *)

Lemma addContent_propagates id now data s :
  faults s (ticks s) = false ->
  faults s (S (ticks s)) = true ->
  exists s', addContent id now data s = (Throw (StoreFailure (S (ticks s))), s').
Proof.
  intros F0 F1. unfold addContent.
  rewrite (bind_ret_eq _ _ _ _ _ (prepare_ok _ _ F0)).
  erewrite bind_throw_eq; [by eexists|]. by apply write_fails.
Qed.

Lemma updateContent_propagates now id data s :
  faults s (ticks s) = false ->
  faults s (S (ticks s)) = true ->
  exists s', updateContent now id data s = (Throw (StoreFailure (S (ticks s))), s').
Proof.
  intros F0 F1. unfold updateContent.
  rewrite (bind_ret_eq _ _ _ _ _ (prepare_ok _ _ F0)).
  erewrite bind_throw_eq; [by eexists|]. by apply write_fails.
Qed.
End ContentServiceMutations.

(** ** Examples on the fixtures *)

Section Examples.
Import ContentService ContentServiceSpec.

(** An instance of [getContentById_falsy_id], on a handle whose next
    request would fail: it is never made. *)
Lemma getContentById_falsy_id_witness :
  let s := Fixtures.service_store_failing 0 in
  truthy_str (Some "") = false /\
  getContentById Fixtures.parse_children "" s = (Ret None, s).
Proof.
  intros s. split; [reflexivity|].
  apply (getContentById_falsy_id Fixtures.parse_children "" s). reflexivity.
Defined.

(** An instance of [collection_children_resolved]: of the three stored
    identifiers the two that resolve come back, in order. *)
Lemma collection_children_resolved_witness :
let s := Fixtures.service_store in
let t := tables s in
Fixtures.parse_children Fixtures.c1_children = ParsedArray ["k1"; "gone"; "k2"] /\
exists c s' kids,
  getContentById Fixtures.parse_children "c1" s = (Ret (Some c), s') /\
  read_only s s' /\ in_txn s' = false /\
  content_children c = Resolved kids /\
  map content_id kids = ["k1"; "k2"] /\
  Forall
    (fun k =>
       content_children k = Resolved [] /\
       content_tags k = select_tags (content_id k) t)
    kids.
Proof.
intros s t. split; [reflexivity|].
destruct (collection_children_resolved Fixtures.parse_children "c1" s
            (Fixtures.row "c1" "collection" "draft" (Some Fixtures.c1_children) None)
            Fixtures.c1_children ["k1"; "gone"; "k2"])
  as (c & s' & E & Hro & Htx & _ & _ & Hkids & _ & _ & Hids & Hshape);
  [done|by intros k|reflexivity..|].
exists c, s', (omap (resolve_child t) ["k1"; "gone"; "k2"]).
split; [exact E|]. split; [exact Hro|]. split; [exact Htx|].
split; [by apply Hkids|]. split; [exact Hids|exact Hshape].
Defined.

(** Claim C6 as stated fails on a collection whose stored list is empty:
    no identifier is listed and none resolves, yet [children] is not the
    empty array of child aggregates, it is the stored text. *)
Lemma empty_children_list_counterexample :
let s := Fixtures.empty_collection_store in
Fixtures.parse_children "[]" = ParsedArray [] /\
exists c s',
  getContentById Fixtures.parse_children "c0" s = (Ret (Some c), s') /\
  content_children c = Stored (Some "[]") /\
  ~ children_as_claimed (tables s) [] c.
Proof.
intros s. split; [reflexivity|].
eexists _, _. split; [vm_compute; reflexivity|]. split; [reflexivity|].
intros H. discriminate H.
Qed.

(** An instance of [filtered_content_hydrated], on a handle whose request
    number 4 fails. *)
Lemma filtered_content_hydrated_witness :
let s := Fixtures.service_store_failing 4 in
faults s (ticks s) = false /\
faults s (S (ticks s)) = false /\
exists cs s',
  getFilteredContent trim_ascii Fixtures.parse_children Fixtures.search_adapter
    Fixtures.eval_list_query no_filters s = (Ret cs, s') /\
  map content_id cs `sublist_of` ["c1"; "k1"; "k2"].
Proof.
intros s. split; [reflexivity|]. split; [reflexivity|].
destruct (filtered_content_hydrated trim_ascii Fixtures.parse_children
            Fixtures.search_adapter Fixtures.eval_list_query no_filters s)
  as (cs & s' & E & _ & Hsub & _); [reflexivity..|].
exists cs, s'. split; [exact E|exact Hsub].
Defined.

(** A matched id whose hydration fails is dropped: the list is shorter than
  the ids that the statement matched. *)
Lemma failed_hydration_is_dropped :
let s := Fixtures.service_store_failing 4 in
matched_ids trim_ascii Fixtures.search_adapter Fixtures.eval_list_query
  no_filters (tables s) = ["c1"; "k1"; "k2"] /\
map content_id
  (match fst (getFilteredContent trim_ascii Fixtures.parse_children
                Fixtures.search_adapter Fixtures.eval_list_query no_filters s)
   with Ret cs => cs | Throw _ => [] end)
= ["k1"; "k2"].
Proof. split; vm_compute; reflexivity. Qed.

(** An instance of [search_short_circuit], on a handle whose next request
    would fail: it is never made. *)
Lemma search_short_circuit_witness :
let f := mkFilters (Some "  nothing ") None None None None None None in
let s := Fixtures.service_store_failing 0 in
searching trim_ascii f = true /\
getFilteredContent trim_ascii Fixtures.parse_children Fixtures.search_adapter
  Fixtures.eval_list_query f s = (Ret [], searched "nothing" s) /\
getFilteredContentCount trim_ascii Fixtures.search_adapter
  Fixtures.eval_count_query f s = (Ret 0, searched "nothing" s).
Proof.
intros f s. split; [reflexivity|].
destruct (search_short_circuit trim_ascii Fixtures.parse_children
            Fixtures.search_adapter Fixtures.eval_list_query
            Fixtures.eval_count_query f s) as [Hempty _]; [reflexivity|].
destruct Hempty as (Hl & Hc & _); [reflexivity|]. split; [exact Hl|exact Hc].
Defined.

(** *** Mutations *)

(** Claim C4, at the failing input.  The content 1 has the tags 1, 2, 3 and
    the tags 1 to 4 exist.  [update_content] with the new tags 2, 3, 4
    returns [true] and leaves the tags 1, 2, 3 associated: tag 1 is not
    removed and tag 4 is not added, so the associations are not replaced.
    It is so for every tag list that is not empty and on every handle: the
    two statements of [update_content_tags] are run with their placeholders
    left without a value, the failure is swallowed, and the tables are as
    they were. *)
Theorem update_content_keeps_old_tags :
let s := Fixtures.db_store in
let input := Fixtures.db_input (Some "draft") (Some [2; 3; 4]) in
(exists s',
   Db.update_content Fixtures.stringify_ids "2024-02-02" input 1 s = (Ret true, s') /\
   Db.content_to_tags (tables s') = [(1, 1); (1, 2); (1, 3); (2, 1)] /\
   ~ upsert_and_prune PNum 1 [2; 3; 4]
       (Db.content_to_tags (tables s)) (Db.content_to_tags (tables s'))
       (journal s')) /\
(forall contentId tag tags (s0 : store Db.db_tables),
   wp (Db.update_content_tags contentId (tag :: tags)) s0 (fun _ s' =>
     tables s' = tables s0 /\
     exists evs,
       journal s' = journal s0 ++ evs /\
       Forall (fun ev => store_request ev = true) evs)).
Proof.
intros s input. split.
- eexists. split; [vm_compute; reflexivity|]. split; [reflexivity|].
  intros [[Hown _] _].
  assert ((1, 4) ∈ [(1, 1); (1, 2); (1, 3); (2, 1)]) as Hin.
  { apply (Hown 4). split; [by repeat constructor|by right]. }
  repeat (apply elem_of_cons in Hin as [Hin|Hin]; [discriminate Hin|]).
  by apply elem_of_nil in Hin.
- intros. apply update_content_tags_writes_nothing.
Qed.

(** Going from the tags 1, 2, 3 to 2, 3, 4, [ContentService.updateContent]
    deletes the pair of tag 2 and inserts it again: its replacement is not
    the upsert-and-prune of the specification. *)
Lemma blind_delete_insert_example :
let s := Fixtures.service_store in
let new := ["2"; "3"; "4"] in
exists s',
  updateContent "2024-02-02" "c1" (Fixtures.service_data "draft" new) s = (Ret tt, s') /\
  ~ upsert_and_prune PStr "c1" new
      (content_to_tags (tables s)) (content_to_tags (tables s')) (journal s').
Proof.
intros s new. eexists. split; [vm_compute; reflexivity|].
intros [_ Hcommon].
destruct (Hcommon "2") as [Hdeleted _].
- unfold s. simpl. repeat constructor.
- unfold new. repeat constructor.
- apply Hdeleted. simpl. repeat constructor.
Qed.

(** Claim C8, as amended.  Once its own statement is prepared,
    [delete_content], [create_content] and [update_content] return whatever
    fails afterwards, and a failure of the statement they run is reported
    as [false], [null] and [false]; [update_content_tags] returns once its
    two statements are prepared.  [ContentService.addContent] and
    [updateContent] have no handler: a failure of the statement they run
    reaches the caller as an exception. *)
Theorem store_failures_by_path :
(forall DRAFT stringify_ids now default_published_at default_likes default_saves,
   (forall id (s : store Db.db_tables),
      faults s (ticks s) = false ->
      (exists b s', Db.delete_content id s = (Ret b, s')) /\
      (faults s (S (ticks s)) = true ->
       exists s', Db.delete_content id s = (Ret false, s'))) /\
   (forall input (s : store Db.db_tables),
      faults s (ticks s) = false ->
      (exists r s',
         Db.create_content DRAFT stringify_ids now default_published_at
           default_likes default_saves input s = (Ret r, s')) /\
      (faults s (S (ticks s)) = true ->
       exists s',
         Db.create_content DRAFT stringify_ids now default_published_at
           default_likes default_saves input s = (Ret None, s'))) /\
   (forall input id (s : store Db.db_tables),
      faults s (ticks s) = false ->
      (exists b s', Db.update_content stringify_ids now input id s = (Ret b, s')) /\
      (faults s (S (ticks s)) = true ->
       exists s', Db.update_content stringify_ids now input id s = (Ret false, s'))) /\
   (forall contentId tags (s : store Db.db_tables),
      faults s (ticks s) = false ->
      faults s (S (ticks s)) = false ->
      exists s', Db.update_content_tags contentId tags s = (Ret tt, s'))) /\
(forall id now data (s : store db_tables),
   faults s (ticks s) = false ->
   faults s (S (ticks s)) = true ->
   exists s', addContent id now data s = (Throw (StoreFailure (S (ticks s))), s')) /\
(forall now id data (s : store db_tables),
   faults s (ticks s) = false ->
   faults s (S (ticks s)) = true ->
   exists s', updateContent now id data s = (Throw (StoreFailure (S (ticks s))), s')).
Proof.
split; [|split].
- intros. split; [|split; [|split]].
  + apply delete_content_returns.
  + apply create_content_returns.
  + apply update_content_returns.
  + apply update_content_tags_returns.
- apply addContent_propagates.
- apply updateContent_propagates.
Qed.

(** An instance of [store_failures_by_path], on handles whose request
    number 1 (the statement run) fails. *)
Lemma store_failures_by_path_witness :
let s := Fixtures.db_store_failing 1 in
let t := Fixtures.service_store_failing 1 in
(faults s (ticks s) = false /\ faults s (S (ticks s)) = true /\
 exists s', Db.delete_content 1 s = (Ret false, s')) /\
(faults t (ticks t) = false /\ faults t (S (ticks t)) = true /\
 exists t',
   addContent "c9" "2024-02-02" (Fixtures.service_data "draft" []) t
   = (Throw (StoreFailure 1), t')).
Proof.
intros s t.
destruct store_failures_by_path as (Hdb & Hadd & _).
split.
- split; [reflexivity|]. split; [reflexivity|].
  destruct (Hdb "draft" Fixtures.stringify_ids "2024-02-02" None 0 0) as (Hdel & _).
  destruct (Hdel 1 s) as [_ Hfalse]; [reflexivity|].
  apply Hfalse. reflexivity.
- split; [reflexivity|]. split; [reflexivity|].
  apply (Hadd "c9" "2024-02-02" (Fixtures.service_data "draft" []) t); reflexivity.
Defined.

(** Claim C8 as stated fails on [ContentService.addContent]: when its
    [INSERT] fails the exception reaches the caller. *)
Lemma addContent_throws_counterexample :
~ never_throws (addContent "c9" "2024-02-02" (Fixtures.service_data "draft" [])).
Proof.
intros H. destruct (H (Fixtures.service_store_failing 1)) as (a & s' & E).
vm_compute in E. discriminate E.
Qed.

(** Claim C3, at the failing input.  [update_content] on a draft row with
    a null [published_at], given the status ['published'], succeeds and
    leaves a published row whose [published_at] is still null: the
    publication invariant held before the call and does not hold after
    it. *)
Theorem update_content_publish_leaves_published_at_null :
let s := Fixtures.db_store in
let input := Fixtures.db_input (Some "published") None in
Forall db_publication_invariant (Db.content (tables s)) /\
exists s',
  Db.update_content Fixtures.stringify_ids "2024-02-02" input 1 s = (Ret true, s') /\
  map (fun r => (Db.row_status r, Db.row_published_at r)) (Db.content (tables s'))
  = [(Some "published", None)] /\
  ~ Forall db_publication_invariant (Db.content (tables s')).
Proof.
intros s input. split.
- repeat constructor; simpl; [by intros [? ?]|done].
- eexists. split; [vm_compute; reflexivity|]. split; [reflexivity|].
  intros H. inversion H as [|r l [_ Hr] _]; subst.
  by destruct (Hr eq_refl).
Qed.

End Examples.

(** ** More on the builder *)

Section BuilderMore.
Variable trim : string -> string.

Lemma placeholders_length {A B} (xs : list A) (ys : list B) :
  length xs = length ys -> placeholders xs = placeholders ys.
Proof.
  unfold placeholders. intros H. f_equal.
  revert ys H. induction xs as [|x xs IH]; intros [|y ys] H; simplify_eq/=; [done|].
  f_equal. by apply IH.
Qed.

Lemma status_conditions_shape f f' :
  (status f = Some "all" <-> status f' = Some "all") ->
  truthy_str (status f) = truthy_str (status f') ->
  status_conditions f = status_conditions f'.
Proof.
  unfold status_conditions. rewrite !truthy_str_cases.
  intros Hall Htr.
  destruct (status f) as [st|], (status f') as [st'|];
    repeat case_bool_decide; simplify_eq/=; try done;
    exfalso; destruct Hall as [Ha1 Ha2];
    try (specialize (Ha1 eq_refl); congruence);
    try (specialize (Ha2 eq_refl); congruence).
Qed.

(** The text of a built statement is decided by the shape of the filters:
    no value supplied by the caller is spliced into it. *)
Theorem statement_text_ignores_values v f ids f' ids' b b' :
  same_shape trim f ids f' ids' ->
  statement_of v trim f ids = Some b ->
  statement_of v trim f' ids' = Some b' ->
  query b = query b'.
Proof.
  intros (Hs & Hids & Hall & Hst & Hty & Htags & Hord & Hlim & Hoff)
    ->%statement_of_normal_form ->%statement_of_normal_form.
  cbv [query].
  assert (search_conditions trim f ids = search_conditions trim f' ids') as ->.
  { unfold search_conditions. rewrite Hs, (placeholders_length ids ids') by done.
    done. }
  rewrite (status_conditions_shape f f') by done.
  assert (type_conditions f = type_conditions f') as ->.
  { unfold type_conditions. by rewrite Hty. }
  assert (tag_conditions f = tag_conditions f') as ->.
  { unfold tag_conditions.
    by rewrite Htags, (placeholders_length (tag_slugs f) (tag_slugs f')). }
  assert (head_text v f = head_text v f') as ->.
  { unfold head_text, join_text. by rewrite Htags. }
  assert (rest_text v f = rest_text v f') as ->; [|done].
  unfold rest_text, group_text, tail_text, pagination_text.
  by rewrite Htags, Hord, Hlim, Hoff.
Qed.

(** The count statement mirrors the list statement: it exists exactly when
    the list statement does, has the same conditions, binds the same
    parameters up to the pagination, and does not depend on [sort],
    [limit] and [offset]. *)
Theorem count_mirrors_list f ids bl :
  list_query trim f ids = Some bl ->
  let bc := count_query trim f ids in
  statement_of CountVariant trim f ids = Some bc /\
  whereConditions bc = whereConditions bl /\
  havingConditions bc = havingConditions bl /\
  params bl = params bc ++ pagination_params f /\
  forall srt lim off,
    count_query trim (with_presentation srt lim off f) ids = bc.
Proof.
  intros Hl bc. subst bc.
  assert (statement_of CountVariant trim f ids = Some (count_query trim f ids))
    as Hc.
  { unfold list_query in Hl. simpl.
    by destruct (searching trim f && bool_decide (ids = [])). }
  split; [done|].
  assert (forall srt lim off,
            count_query trim (with_presentation srt lim off f) ids
            = count_query trim f ids) as Hsame by reflexivity.
  apply list_query_normal_form in Hl as ->.
  rewrite (count_query_normal_form trim f ids) in Hsame |- *.
  cbv [whereConditions havingConditions params].
  split; [done|]. split; [done|].
  split; [by rewrite <-!app_assoc|done].
Qed.

End BuilderMore.

(** The statement built for a draft listing and the one built for hostile
    values of the same shape have the same text. *)
Lemma statement_text_ignores_values_witness :
  let f := mkFilters (Some "svelte") (Some "draft") (Some "recipe")
             (Some (TagMany ["a"; "b"])) None (Some 10) (Some 20) in
  let f' := mkFilters (Some "x") (Some "' OR 1=1 --") (Some "'; DROP TABLE content; --")
              (Some (TagMany ["?"; "')"])) (Some "latest") (Some 1) (Some (-1)) in
  exists b b',
    same_shape trim_ascii f ["c1"] f' ["' --"] /\
    statement_of ListVariant trim_ascii f ["c1"] = Some b /\
    statement_of ListVariant trim_ascii f' ["' --"] = Some b' /\
    query b = query b'.
Proof.
  eexists _, _.
  assert (same_shape trim_ascii
            (mkFilters (Some "svelte") (Some "draft") (Some "recipe")
               (Some (TagMany ["a"; "b"])) None (Some 10) (Some 20)) ["c1"]
            (mkFilters (Some "x") (Some "' OR 1=1 --")
               (Some "'; DROP TABLE content; --")
               (Some (TagMany ["?"; "')"])) (Some "latest") (Some 1) (Some (-1)))
            ["' --"]) as Hshape.
  { repeat split; try reflexivity; intros [=]. }
  split; [exact Hshape|].
  split; [reflexivity|]. split; [reflexivity|].
  exact (statement_text_ignores_values trim_ascii ListVariant _ _ _ _ _ _
           Hshape eq_refl eq_refl).
Defined.

Lemma count_mirrors_list_witness :
  let f := mkFilters None (Some "draft") None (Some (TagMany ["a"; "b"]))
             (Some "popular") (Some 10) (Some 20) in
  exists bl,
    list_query trim_ascii f [] = Some bl /\
    params bl = params (count_query trim_ascii f []) ++ [PNum 10; PNum 20].
Proof.
  intros f. eexists. split; [reflexivity|].
  exact (proj1 (proj2 (proj2 (proj2
           (count_mirrors_list trim_ascii f [] _ eq_refl))))).
Defined.

(** ** [ContentService]: the remaining methods *)

Section ServiceReadsFacts.
Import ContentService ContentServiceSpec ContentServiceReads ContentServiceReadsSpec.

Variable trim : string -> string.
Variable parse_children : string -> parsed.
Variable search_adapter : db_tables -> string -> list string.
Variable eval_list_query : string -> list param -> db_tables -> list string.

Local Abbreviation getContentById := (getContentById parse_children).
Local Abbreviation load_children := (load_children parse_children).
Local Abbreviation getFilteredContent :=
  (getFilteredContent trim parse_children search_adapter eval_list_query).
Local Abbreviation getContentBySlug := (getContentBySlug parse_children).
Local Abbreviation getContentByTag :=
  (getContentByTag trim parse_children search_adapter eval_list_query).
Local Abbreviation getContentByType :=
  (getContentByType trim parse_children search_adapter eval_list_query).
Local Abbreviation searchBlogPosts :=
  (searchBlogPosts trim parse_children search_adapter eval_list_query).

(** *** [getContentById] on a store without failures *)

Lemma children_block_ok raw s :
  fault_free s ->
  wp (try_catch (load_children raw) (fun _ => ret (Resolved []))) s (fun o s' =>
    o = Ret (match parse_children raw with
             | ParseThrows => Resolved []
             | ParsedOther => Stored (Some raw)
             | ParsedArray childrenIds =>
                 if bool_decide (0 < length childrenIds)%nat
                 then Resolved (omap (resolve_child (tables s)) childrenIds)
                 else Stored (Some raw)
             end) /\
    read_only s s' /\ in_txn s' = in_txn s).
Proof.
  intros Hff. unfold ContentService.load_children.
  destruct (parse_children raw) as [| |childrenIds].
  - repeat wp_step. split; [done|]. split; [apply read_only_refl|done].
  - repeat wp_step. split; [done|]. split; [apply read_only_refl|done].
  - case_bool_decide;
      [|repeat wp_step; split; [done|]; split; [apply read_only_refl|done]].
    wp_step. wp_step. wp_step. rewrite Hff.
    wp_step. wp_step. simpl. rewrite Hff. wp_step.
    eapply wp_mono; [|apply children_loop_ok].
    + intros o s2 (-> & H1 & H2). wp_step. simpl. rewrite omap_id_map.
      split; [done|]. split; [solve_read_only|done].
    + intros k. apply Hff.
Qed.

Lemma getContentById_fault_free id s :
  fault_free s ->
  exists s',
    getContentById id s = (Ret (resolve parse_children (tables s) id), s') /\
    read_only s s' /\
    (id <> "" -> in_txn s' = false).
Proof.
  intros Hff.
  cut (wp (getContentById id) s (fun o s' =>
         o = Ret (resolve parse_children (tables s) id) /\
         read_only s s' /\ (id <> "" -> in_txn s' = false))).
  { unfold wp. destruct (getContentById id s) as [o s'].
    simpl. intros (-> & H1 & H2). by exists s'. }
  unfold ContentService.getContentById, resolve.
  destruct (String.eqb id "") eqn:Hid.
  { wp_step. apply String.eqb_eq in Hid.
    split; [done|]. split; [apply read_only_refl|done]. }
  wp_step. wp_step. wp_step. rewrite Hff.
  wp_step. wp_step. simpl. rewrite Hff.
  wp_step. wp_step. simpl. rewrite Hff.
  destruct (select_content id (tables s)) as [r|] eqn:Hr; simpl.
  - wp_step. wp_step. simpl. rewrite Hff.
    wp_step. wp_step. simpl. rewrite Hff.
    wp_step.
    match goal with
    | |- wp ?m ?s1 _ =>
        assert (wp m s1 (fun o s2 =>
                  o = Ret (resolve_children parse_children (tables s) r) /\
                  read_only s1 s2 /\ in_txn s2 = in_txn s1)) as Hch
    end.
    { unfold resolve_children.
      destruct (row_children r) as [raw|];
        [destruct (String.eqb (row_type r) "collection")|].
      - eapply wp_mono; [|apply children_block_ok; intros k; apply Hff].
        by intros o s2 (-> & H1 & H2).
      - wp_step. split; [done|]. split; [apply read_only_refl|done].
      - wp_step. split; [done|]. split; [apply read_only_refl|done]. }
    eapply wp_mono; [|exact Hch].
    intros o s2 (-> & H2 & H3).
    wp_step. wp_step.
    assert (faults s2 = faults s) as Hf2 by (destruct H2 as (_ & Hf & _); exact Hf).
    assert (read_only s s2) as Hs2 by solve_read_only.
    destruct (faults s2 (ticks s2)) eqn:E; [by rewrite Hf2, Hff in E|].
    wp_step.
    split; [done|]. split; [solve_read_only|done].
  - wp_step. wp_step. simpl. rewrite Hff. wp_step.
    split; [done|]. split; [solve_read_only|done].
Qed.

(** *** The transaction of [getContentById] *)

Lemma bracket_after_begin (s s0 s1 : store db_tables) closing ev :
  tables s0 = tables s ->
  journal s0 = journal s ++ [EvExec BEGIN_TRANSACTION] ->
  read_only s0 s1 ->
  ev = EvExec closing ->
  tables s1 = tables s /\
  exists evs,
    journal s1 ++ [ev] = journal s ++ evs /\ transaction_bracket closing evs.
Proof.
  intros Ht Hj (Ht1 & _ & _ & evs & Hj1) ->. split; [congruence|].
  exists (EvExec BEGIN_TRANSACTION :: evs ++ [EvExec closing]).
  split; [|by exists evs].
  rewrite Hj1, Hj, <-!app_assoc. done.
Qed.

Lemma rollback_bracket (s s0 s1 : store db_tables) :
  tables s0 = tables s ->
  journal s0 = journal s ++ [EvExec BEGIN_TRANSACTION] ->
  read_only s0 s1 ->
  wp (bind (try_catch (exec ROLLBACK) (fun _ => ret tt)) (fun _ => ret None)) s1
    (fun o s' =>
       exists r : option Content,
         o = Ret r /\ tables s' = tables s /\
         (exists evs,
            journal s' = journal s ++ evs /\
            transaction_bracket (closing_of r) evs) /\
         (is_Some r -> in_txn s' = false)).
Proof.
  intros Ht Hj Hro. wp_step. wp_step. wp_step.
  destruct (bracket_after_begin s s0 s1 ROLLBACK _ Ht Hj Hro eq_refl)
    as (Ht1 & evs & Hj1 & Hbr).
  destruct (faults s1 (ticks s1)); repeat wp_step;
    (exists None; split; [done|]; split; [exact Ht1|];
     split; [by exists evs|by intros [? [=]]]).
Qed.

(** On a handle with no transaction open, whichever requests fail, a call
    of [getContentById] with a truthy id returns, leaves the tables as they
    are, asks for [BEGIN] first and for [COMMIT] or [ROLLBACK] last:
    [COMMIT] exactly when it returns a content, and then no transaction is
    left open. *)
Theorem getContentById_transaction_bracket id s :
  id <> "" ->
  in_txn s = false ->
  exists r s' evs,
    getContentById id s = (Ret r, s') /\
    tables s' = tables s /\
    journal s' = journal s ++ evs /\
    transaction_bracket (closing_of r) evs /\
    (is_Some r -> in_txn s' = false).
Proof.
  intros Hid Hclosed.
  cut (wp (getContentById id) s (fun o s' =>
         exists r : option Content,
           o = Ret r /\ tables s' = tables s /\
           (exists evs,
              journal s' = journal s ++ evs /\
              transaction_bracket (closing_of r) evs) /\
           (is_Some r -> in_txn s' = false))).
  { unfold wp. destruct (getContentById id s) as [o s'].
    simpl. intros (r & -> & Ht & (evs & Hj & Hbr) & Hin). by exists r, s', evs. }
  unfold ContentService.getContentById.
  apply String.eqb_neq in Hid. rewrite Hid.
  wp_step. wp_step. wp_step.
  destruct (faults s (ticks s)).
  { eapply (rollback_bracket s (requested (EvExec BEGIN_TRANSACTION) s));
      [done|done|apply read_only_refl]. }
  set (s0 := mkStore (tables s) true (journal s ++ [EvExec BEGIN_TRANSACTION])
               (S (ticks s)) (faults s)).
  assert (tables s0 = tables s) as Ht0 by done.
  assert (journal s0 = journal s ++ [EvExec BEGIN_TRANSACTION]) as Hj0 by done.
  wp_step. wp_step. simpl.
  destruct (faults s (S (ticks s)));
    [eapply (rollback_bracket s s0); [done|done|solve_read_only]|].
  wp_step. wp_step. simpl.
  destruct (faults s (S (S (ticks s))));
    [eapply (rollback_bracket s s0); [done|done|solve_read_only]|].
  destruct (select_content id (tables s)) as [r|] eqn:Hr.
  - wp_step. wp_step. simpl.
    destruct (faults s (S (S (S (ticks s)))));
      [eapply (rollback_bracket s s0); [done|done|solve_read_only]|].
    wp_step. wp_step. simpl.
    destruct (faults s (S (S (S (S (ticks s))))));
      [eapply (rollback_bracket s s0); [done|done|solve_read_only]|].
    wp_step.
    match goal with
    | |- wp ?m ?s1 _ =>
        assert (wp m s1 (fun o s2 =>
                  read_only s1 s2 /\ exists ch, o = Ret ch)) as Hch
    end.
    { destruct (row_children r) as [raw|];
        [destruct (String.eqb (row_type r) "collection")|].
      - wp_step. eapply wp_mono; [|apply load_children_read_only].
        intros [ch|e] s2 [H1 H2]; [by eauto|].
        wp_step. by eauto.
      - wp_step. split; [apply read_only_refl|by eauto].
      - wp_step. split; [apply read_only_refl|by eauto]. }
    eapply wp_mono; [|exact Hch].
    intros o s2 [H2 [ch ->]].
    wp_step. wp_step.
    assert (read_only s0 s2) as Hs2 by solve_read_only.
    destruct (faults s2 (ticks s2)).
    { eapply (rollback_bracket s s0); [done|done|solve_read_only]. }
    wp_step.
    destruct (bracket_after_begin s s0 s2 COMMIT _ Ht0 Hj0 Hs2 eq_refl)
      as (Ht2 & evs & Hj2 & Hbr).
    eexists. split; [done|]. split; [exact Ht2|].
    split; [by exists evs|done].
  - wp_step. wp_step. simpl.
    match goal with
    | |- context [requested ?ev (requested ?ev' s0)] =>
        set (s3 := requested ev (requested ev' s0))
    end.
    assert (read_only s0 s3) as Hs3 by (subst s3; solve_read_only).
    destruct (faults s (S (S (S (ticks s))))).
    { eapply (rollback_bracket s s0); [done|done|solve_read_only]. }
    wp_step.
    destruct (bracket_after_begin s s0 s3 ROLLBACK _ Ht0 Hj0 Hs3 eq_refl)
      as (Ht3 & evs & Hj3 & Hbr).
    exists None. split; [done|]. split; [exact Ht3|].
    split; [by exists evs|by intros [? [=]]].
Qed.

(** *** The children block of [getContentById] *)

Lemma at_children_block_eq id (s : store db_tables) :
  requested (EvStep SelectTagsOfContent [PStr id])
    (requested (EvPrepare SelectTagsOfContent)
       (requested (EvStep SelectContentById [PStr id])
          (requested (EvPrepare SelectContentById)
             (mkStore (tables s) true (journal s ++ [EvExec BEGIN_TRANSACTION])
                (S (ticks s)) (faults s)))))
  = at_children_block id s.
Proof.
  unfold at_children_block, requested. simpl. f_equal.
  by rewrite <-!app_assoc.
Qed.

Lemma next_succeed_5 (s : store db_tables) :
  next_succeed 5 s ->
  faults s (ticks s) = false /\
  faults s (S (ticks s)) = false /\
  faults s (S (S (ticks s))) = false /\
  faults s (S (S (S (ticks s)))) = false /\
  faults s (S (S (S (S (ticks s))))) = false.
Proof.
  intros H.
  pose proof (H 0%nat ltac:(lia)) as H0. pose proof (H 1%nat ltac:(lia)) as H1.
  pose proof (H 2%nat ltac:(lia)) as H2. pose proof (H 3%nat ltac:(lia)) as H3.
  pose proof (H 4%nat ltac:(lia)) as H4.
  rewrite Nat.add_0_r in H0.
  replace (ticks s + 1)%nat with (S (ticks s)) in H1 by lia.
  replace (ticks s + 2)%nat with (S (S (ticks s))) in H2 by lia.
  replace (ticks s + 3)%nat with (S (S (S (ticks s)))) in H3 by lia.
  replace (ticks s + 4)%nat with (S (S (S (S (ticks s))))) in H4 by lia.
  done.
Qed.

(** Whatever goes wrong inside the children block, malformed JSON or a
    failure of the store, the content is returned with an empty children
    array, provided the commit goes through. *)
Theorem children_failure_degrades id s r raw e s2 :
  id <> "" ->
  next_succeed 5 s ->
  select_content id (tables s) = Some r ->
  row_type r = "collection" ->
  row_children r = Some raw ->
  load_children raw (at_children_block id s) = (Throw e, s2) ->
  faults s (ticks s2) = false ->
  exists s',
    getContentById id s
    = (Ret (Some (mkContent r (select_tags id (tables s)) (Resolved []))), s') /\
    tables s' = tables s /\
    in_txn s' = false.
Proof.
  intros Hid (H0 & H1 & H2 & H3 & H4)%next_succeed_5 Hr Hty Hch Hload Hcommit.
  cut (wp (getContentById id) s (fun o s' =>
         o = Ret (Some (mkContent r (select_tags id (tables s)) (Resolved []))) /\
         tables s' = tables s /\ in_txn s' = false)).
  { unfold wp. destruct (getContentById id s) as [o s'].
    simpl. intros (-> & Ht & Hin). by exists s'. }
  unfold ContentService.getContentById.
  apply String.eqb_neq in Hid. rewrite Hid.
  wp_step. wp_step. wp_step. rewrite H0.
  wp_step. wp_step. simpl. rewrite H1.
  wp_step. wp_step. simpl. rewrite H2, Hr.
  wp_step. wp_step. simpl. rewrite H3.
  wp_step. wp_step. simpl. rewrite H4.
  rewrite Hch, Hty. simpl.
  rewrite at_children_block_eq.
  pose proof (wp_elim _ _ _ _ _
                (load_children_read_only parse_children raw (at_children_block id s))
                Hload) as ((Ht2 & Hf2 & _) & Hin2).
  wp_step. wp_step. unfold wp at 1. rewrite Hload. simpl.
  wp_step. wp_step. wp_step.
  rewrite Hf2. simpl. rewrite Hcommit.
  wp_step. by rewrite Ht2.
Qed.

(** *** [getContentBySlug] *)

Lemma select_by_slug_some slug ty t r :
  select_by_slug slug ty t = Some r ->
  r ∈ content t /\
  row_slug r = slug /\
  row_status r = "published" /\
  (forall x, ty = Some x -> row_type r = x).
Proof.
  unfold select_by_slug. intros [Hin H]%find_some.
  apply andb_true_iff in H as [H Hst]. apply andb_true_iff in H as [Hsl Hty].
  apply String.eqb_eq in Hsl, Hst.
  split; [by apply list_elem_of_In|]. split; [done|]. split; [done|].
  intros x ->. by apply String.eqb_eq in Hty.
Qed.

Lemma select_content_first r t :
  r ∈ content t ->
  exists r', select_content (row_id r) t = Some r' /\ r' ∈ content t
             /\ row_id r' = row_id r.
Proof.
  unfold select_content. intros Hin.
  destruct (List.find _ (content t)) as [r'|] eqn:E.
  - exists r'. split; [done|]. apply find_some in E as [E1 E2].
    split; [by apply list_elem_of_In|by apply String.eqb_eq in E2].
  - exfalso. apply list_elem_of_In in Hin.
    pose proof (find_none _ _ E _ Hin) as H. simpl in H.
    by rewrite String.eqb_refl in H.
Qed.

Lemma unique_by_id (l : list content_row) r r' :
  NoDup (map row_id l) -> r ∈ l -> r' ∈ l -> row_id r = row_id r' -> r = r'.
Proof.
  induction l as [|x l IH]; [by intros _ ?%elem_of_nil|].
  simpl. intros [Hx Hl]%list.NoDup_cons [->|Hr]%elem_of_cons [->|Hr']%elem_of_cons Hid.
  - done.
  - exfalso. apply Hx. rewrite Hid. apply list_elem_of_fmap. by exists r'.
  - exfalso. apply Hx. rewrite <-Hid. apply list_elem_of_fmap. by exists r.
  - by apply IH.
Qed.

(** [getContentBySlug] never throws and writes nothing; on a falsy slug it
    returns [null] without a request to the store. *)
Theorem getContentBySlug_never_throws slug type s :
  getContentBySlug "" type s = (Ret None, s) /\
  exists r s', getContentBySlug slug type s = (Ret r, s') /\ read_only s s'.
Proof.
  split; [done|].
  cut (wp (getContentBySlug slug type) s (fun o s' =>
         (exists r, o = Ret r) /\ read_only s s')).
  { unfold wp. destruct (getContentBySlug slug type s) as [o s'].
    simpl. intros [[r ->] H]. by exists r, s'. }
  unfold ContentServiceReads.getContentBySlug.
  destruct (String.eqb slug "").
  { wp_step. split; [by eauto|apply read_only_refl]. }
  wp_step. cbv zeta. wp_step. wp_step.
  destruct (faults s (ticks s)); [wp_step; split; [by eauto|solve_read_only]|].
  wp_step. wp_step. simpl.
  destruct (faults s (S (ticks s))); [wp_step; split; [by eauto|solve_read_only]|].
  destruct (select_by_slug _ _ _) as [r0|].
  - match goal with |- wp _ ?s1 _ => set (s2 := s1) end.
    destruct (getContentById_returns parse_children (row_id r0) s2)
      as (r & s' & E & Hro & _).
    unfold wp. rewrite E. simpl.
    split; [by eauto|]. subst s2. solve_read_only.
  - wp_step. split; [by eauto|solve_read_only].
Qed.

(** With unique ids, what [getContentBySlug] returns is a published row
    with the slug (and the type) asked for, whatever fails; when nothing
    fails it returns one exactly when the first such row has a truthy id. *)
Theorem getContentBySlug_published_only slug type s :
  NoDup (map row_id (content (tables s))) ->
  exists r s',
    getContentBySlug slug type s = (Ret r, s') /\
    (forall c, r = Some c ->
       content_row_of c ∈ content (tables s) /\
       row_slug (content_row_of c) = slug /\
       row_status (content_row_of c) = "published" /\
       (truthy_str type = true -> type = Some (row_type (content_row_of c)))) /\
    (fault_free s ->
       is_Some r <->
       slug <> "" /\
       exists r0,
         select_by_slug slug (if truthy_str type then type else None) (tables s)
         = Some r0 /\
         row_id r0 <> "").
Proof.
  intros Hnd.
  cut (wp (getContentBySlug slug type) s (fun o s' =>
         exists r, o = Ret r /\
         (forall c, r = Some c ->
            content_row_of c ∈ content (tables s) /\
            row_slug (content_row_of c) = slug /\
            row_status (content_row_of c) = "published" /\
            (truthy_str type = true -> type = Some (row_type (content_row_of c)))) /\
         (fault_free s ->
            is_Some r <->
            slug <> "" /\
            exists r0,
              select_by_slug slug (if truthy_str type then type else None) (tables s)
              = Some r0 /\
              row_id r0 <> ""))).
  { unfold wp. destruct (getContentBySlug slug type s) as [o s'].
    simpl. intros (r & -> & H). by exists r, s'. }
  assert (forall P : Prop, (is_Some (@None Content) <-> P) <-> ~ P) as Hnone.
  { intros P. split.
    - intros H HP. apply H in HP. by destruct HP.
    - intros H. split; [by intros [? [=]]|done]. }
  unfold ContentServiceReads.getContentBySlug.
  destruct (String.eqb slug "") eqn:Hslug.
  { wp_step. exists None. split; [done|]. split; [done|].
    intros _. apply Hnone. apply String.eqb_eq in Hslug. by intros [? _]. }
  apply String.eqb_neq in Hslug.
  wp_step. cbv zeta. wp_step. wp_step.
  destruct (faults s (ticks s)) eqn:F0.
  { wp_step. exists None. split; [done|]. split; [done|].
    intros Hff. by rewrite Hff in F0. }
  wp_step. wp_step. simpl.
  destruct (faults s (S (ticks s))) eqn:F1.
  { wp_step. exists None. split; [done|]. split; [done|].
    intros Hff. by rewrite Hff in F1. }
  destruct (select_by_slug _ _ _) as [r0|] eqn:Hsel.
  - match goal with |- wp _ ?s1 _ => set (s2 := s1) end.
    apply select_by_slug_some in Hsel as (Hin & Hsl & Hst & Hty).
    destruct (getContentById_returns parse_children (row_id r0) s2)
      as (r & s' & E & Hro & Hagg).
    unfold wp. rewrite E. simpl. exists r. split; [done|]. split.
    + intros c ->. destruct (Hagg c eq_refl) as (Hcid & Hc & _).
      change (tables s2) with (tables s) in Hc.
      destruct (select_content_first r0 (tables s) Hin) as (r' & Hr' & Hin' & Hid').
      assert (r' = r0) as -> by (by eapply unique_by_id).
      rewrite Hr' in Hc. injection Hc as <-.
      split; [done|]. split; [done|]. split; [done|].
      intros Htr. rewrite Htr in Hty.
      destruct type as [x|]; [|done]. by rewrite (Hty x eq_refl).
    + intros Hff.
      assert (fault_free s2) as Hff2 by (intros k; apply Hff).
      destruct (getContentById_fault_free (row_id r0) s2 Hff2) as (s3 & E3 & _).
      rewrite E in E3. injection E3 as -> _.
      change (tables s2) with (tables s).
      unfold resolve.
      destruct (String.eqb (row_id r0) "") eqn:Hid0.
      * apply Hnone. apply String.eqb_eq in Hid0.
        intros (_ & r1 & [= <-] & Hne). done.
      * apply String.eqb_neq in Hid0.
        destruct (select_content_first r0 (tables s) Hin) as (r' & -> & _).
        simpl. split; [|by eauto]. intros _. split; [done|]. by exists r0.
  - wp_step. exists None. split; [done|]. split; [done|].
    intros _. apply Hnone. by intros (_ & r1 & [=] & _).
Qed.

(** *** [getContentByTag], [getContentByType], [searchBlogPosts] *)

Lemma getFilteredContent_same_statement f f' s :
  searching trim f = false ->
  searching trim f' = false ->
  list_query trim f [] = list_query trim f' [] ->
  getFilteredContent f s = getFilteredContent f' s.
Proof.
  intros Hf Hf' Hq. unfold ContentService.getFilteredContent.
  rewrite Hf, Hf'. unfold bind, ret. by rewrite Hq.
Qed.

(** An empty tag slug and an empty type are no filter: both methods then
    run the same listing, that of the published rows. *)
Theorem empty_tag_is_no_filter limit offset s :
  getContentByTag "" limit offset s = getContentByType "" limit offset s /\
  exists b,
    list_query trim (by_tag_filters "" limit offset) [] = Some b /\
    whereConditions b = ["c.status = 'published'"] /\
    params b = pagination_params (by_tag_filters "" limit offset).
Proof.
  split.
  - unfold ContentServiceReads.getContentByTag, ContentServiceReads.getContentByType.
    unfold bind.
    by rewrite (getFilteredContent_same_statement
                  (by_tag_filters "" limit offset) (by_type_filters "" limit offset)).
  - assert (exists b, list_query trim (by_tag_filters "" limit offset) [] = Some b)
      as [b Hb] by (by eexists).
    exists b. split; [done|].
    apply list_query_normal_form in Hb as ->. by split.
Qed.

(** The statement of [getContentByTag] for a non-empty slug: published
    rows only, one placeholder for the slug, and the pagination that the
    truthiness of [limit] and [offset] leaves. *)
Theorem getContentByTag_statement tagSlug limit offset s :
  tagSlug <> "" ->
  let lim := default 10 limit in
  let off := default 0 offset in
  let text :=
    list_select +:+ tags_join
      +:+ " WHERE c.status = 'published' AND t.slug IN (?)"
      +:+ " ORDER BY c.published_at DESC, c.created_at DESC"
      +:+ (if bool_decide (lim = 0) then ""
           else " LIMIT ?" +:+ (if bool_decide (off = 0) then "" else " OFFSET ?")) in
  let bound :=
    PStr tagSlug ::
      (if bool_decide (lim = 0) then []
       else PNum lim :: (if bool_decide (off = 0) then [] else [PNum off])) in
  list_query trim (by_tag_filters tagSlug limit offset) []
    = Some (mkBuilder text bound ["c.status = 'published'"; "t.slug IN (?)"] []) /\
  exists evs,
    journal (snd (getContentByTag tagSlug limit offset s))
    = journal s ++ EvPrepare (Built text) :: evs.
Proof.
  intros Hne lim off text bound.
  assert (list_query trim (by_tag_filters tagSlug limit offset) []
          = Some (mkBuilder text bound
                    ["c.status = 'published'"; "t.slug IN (?)"] [])) as Hq.
  { destruct (list_query trim (by_tag_filters tagSlug limit offset) [])
      as [b|] eqn:E; [|done].
    apply list_query_normal_form in E as ->. f_equal.
    assert (tag_slugs (by_tag_filters tagSlug limit offset) = [tagSlug]) as Hsl.
    { unfold tag_slugs, by_tag_filters. simpl.
      apply String.eqb_neq in Hne. by rewrite Hne. }
    unfold tag_conditions, tag_params, join_text, group_text.
    rewrite !Hsl. simpl.
    unfold pagination_text, pagination_params. simpl.
    fold lim off. subst text bound.
    assert (forall n : Z, negb (n =? 0) = negb (bool_decide (n = 0))) as Hz.
    { intros n. case_bool_decide as Hn; [by subst|]. by apply Z.eqb_neq in Hn as ->. }
    rewrite !Hz.
    destruct (bool_decide (lim = 0)), (bool_decide (off = 0)); simpl;
      f_equal; rewrite ?append_nil_r; reflexivity. }
  split; [exact Hq|].
  unfold ContentServiceReads.getContentByTag, ContentService.getFilteredContent.
  assert (searching trim (by_tag_filters tagSlug limit offset) = false) as ->
    by done.
  unfold bind at 1 2. unfold ret at 1. rewrite Hq. cbv [query params].
  match goal with
  | |- context [bind (prepare ?st) ?k s] =>
      assert (wp (bind (prepare st) k) s (fun _ s' =>
                exists evs, journal s' = journal s ++ EvPrepare st :: evs)) as Hwp
  end.
  { wp_step. wp_step.
    destruct (faults s (ticks s)); [by exists []|].
    wp_step. wp_step. simpl.
    destruct (faults s (S (ticks s))).
    { eexists. by rewrite <-app_assoc. }
    wp_step.
    match goal with
    | |- wp (for_each _ ?ids) ?s2 _ =>
        destruct (hydrate_all parse_children ids s2)
          as (hydrated & s3 & E & (_ & _ & _ & evs & Hj) & _)
    end.
    unfold wp at 1. rewrite E. cbn [fst snd]. wp_step.
    rewrite Hj. simpl. eexists. by rewrite <-!app_assoc. }
  unfold wp in Hwp.
  match goal with
  | |- context [bind (prepare ?st) ?k s] => destruct (bind (prepare st) k s) as [[a|e] s']
  end; exact Hwp.
Qed.

(** [searchBlogPosts] lists published rows of type 'blog', latest first
    and without pagination; the tags filter is there when tags are
    given. *)
Theorem searchBlogPosts_statement searchTerm tags ids b :
  list_query trim (blog_filters searchTerm tags) ids = Some b ->
  let f := blog_filters searchTerm tags in
  let slugs := default [] tags in
  whereConditions b =
    search_conditions trim f ids
      ++ ["c.status = 'published'"; "c.type = ?"]
      ++ (if bool_decide (slugs = []) then []
          else ["t.slug IN (" +:+ placeholders slugs +:+ ")"]) /\
  params b =
    search_params trim f ids ++ [PStr "blog"] ++ map PStr slugs
      ++ (if bool_decide (1 < length slugs)%nat
          then [PNum (Z.of_nat (length slugs))] else []) /\
  exists head,
    query b = head +:+ " ORDER BY c.published_at DESC, c.created_at DESC".
Proof.
  intros Hb f slugs.
  apply list_query_normal_form in Hb as ->. cbv [whereConditions params query].
  fold f.
  assert (tag_slugs f = slugs) as Hsl.
  { unfold tag_slugs, f, blog_filters. fold slugs. simpl.
    case_bool_decide as Hlen; [done|]. destruct slugs; [done|simpl in Hlen; lia]. }
  unfold tag_conditions, tag_params. rewrite !Hsl.
  assert (bool_decide (0 < length slugs)%nat = negb (bool_decide (slugs = []))) as ->.
  { destruct slugs; [done|]. apply bool_decide_eq_true_2. simpl. lia. }
  split; [by destruct (bool_decide (slugs = []))|].
  split.
  { change (status_params f) with (@nil param).
    change (type_params f) with [PStr "blog"].
    change (pagination_params f) with (@nil param).
    by rewrite <-!app_assoc, !app_nil_r. }
  change (order_by f) with "c.published_at DESC, c.created_at DESC".
  change (pagination_text f) with "".
  match goal with
  | |- context [?a +:+ ?b +:+ ?c +:+ group_text f +:+ _] =>
      exists (a +:+ b +:+ c +:+ group_text f)
  end.
  rewrite append_nil_r, !append_assoc. reflexivity.
Qed.

End ServiceReadsFacts.

(** ** [ContentService]: more on the mutations *)

Section ServiceMutationsMore.
Import ContentService ContentServiceSpec ContentServiceReads ContentServiceReadsSpec.

Variable parse_children : string -> parsed.

Local Abbreviation getContentById := (getContentById parse_children).

(** The tag loop when no request fails and no pair is present: the pairs
    are appended, nothing else changes. *)
Lemma insert_loop_tables id tags s :
  fault_free s ->
  NoDup tags ->
  (forall tag, tag ∈ tags -> (id, tag) ∉ content_to_tags (tables s)) ->
  exists s',
    for_each
      (fun tag =>
         write InsertContentTag [PStr id; PStr tag] (insert_content_tag id tag))
      tags s
    = (Ret (map (fun _ => tt) tags), s') /\
    tables s' =
      mkTables (content (tables s)) (tag_table (tables s))
        (content_to_tags (tables s) ++ map (pair id) tags) /\
    faults s' = faults s.
Proof.
  revert s. induction tags as [|tag tags IH]; intros s Hff Hnd Hfresh.
  - exists s. simpl. rewrite app_nil_r. by destruct (tables s).
  - apply list.NoDup_cons in Hnd as [Hnotin Hnd].
    assert (has_pair id tag (content_to_tags (tables s)) = false) as Hp.
    { apply not_true_is_false. intros H%has_pair_elem_str.
      eapply Hfresh; [|exact H]. by apply elem_of_cons; left. }
    set (s1 := mkStore
                 (mkTables (content (tables s)) (tag_table (tables s))
                    (content_to_tags (tables s) ++ [(id, tag)]))
                 (in_txn s)
                 ((journal s ++ [EvStep InsertContentTag [PStr id; PStr tag]])
                    ++ [EvRowInserted (PStr id) (PStr tag)])
                 (S (ticks s)) (faults s)).
    assert (write InsertContentTag [PStr id; PStr tag]
              (insert_content_tag id tag) s = (Ret tt, s1)) as E1.
    { apply write_ok; [apply Hff|]. unfold insert_content_tag. by rewrite Hp. }
    destruct (IH s1) as (s' & E & Ht & Hf).
    + intros k. apply Hff.
    + done.
    + intros tag' Htag' Hin. simpl in Hin.
      apply elem_of_app in Hin as [Hin|Hin].
      * eapply Hfresh; [|exact Hin]. by apply elem_of_cons; right.
      * apply list_elem_of_singleton in Hin as [= <-]. done.
    + exists s'. split.
      { simpl. rewrite (bind_ret_eq _ _ _ _ _ E1).
        by rewrite (bind_ret_eq _ _ _ _ _ E). }
      split; [|done]. rewrite Ht. simpl. by rewrite <-app_assoc.
Qed.

Lemma insert_tags_tables id tags s :
  fault_free s ->
  NoDup tags ->
  (forall tag, tag ∈ tags -> (id, tag) ∉ content_to_tags (tables s)) ->
  exists s',
    insert_tags id tags s = (Ret tt, s') /\
    tables s' =
      mkTables (content (tables s)) (tag_table (tables s))
        (content_to_tags (tables s) ++ map (pair id) tags) /\
    faults s' = faults s.
Proof.
  intros Hff Hnd Hfresh. unfold insert_tags.
  case_bool_decide as Hlen.
  - rewrite (bind_ret_eq _ _ _ _ _ (prepare_ok _ _ (Hff _))).
    destruct (insert_loop_tables id tags (requested (EvPrepare InsertContentTag) s))
      as (s' & E & Ht & Hf); [intros k; apply Hff|done|done|].
    exists s'. by rewrite (bind_ret_eq _ _ _ _ _ E).
  - destruct tags; [|simpl in Hlen; lia].
    exists s. simpl. rewrite app_nil_r. by destruct (tables s).
Qed.

(** The row that [addContent] inserts. *)
Lemma addContent_tables id now data s :
  fault_free s ->
  NoDup (data_tags data) ->
  (forall tag, tag ∈ data_tags data -> (id, tag) ∉ content_to_tags (tables s)) ->
  exists s',
    addContent id now data s = (Ret id, s') /\
    tables s' =
      mkTables
        (content (tables s) ++
           [mkRow id (title data) (slug data) (description data) (data_type data)
              (data_status data) (body data) None now now
              (if String.eqb (data_status data) "published" then Some now else None)
              0 0])
        (tag_table (tables s))
        (content_to_tags (tables s) ++ map (pair id) (data_tags data)) /\
    faults s' = faults s.
Proof.
  intros Hff Hnd Hfresh. unfold addContent.
  rewrite (bind_ret_eq _ _ _ _ _ (prepare_ok _ _ (Hff _))).
  erewrite bind_ret_eq; [|apply write_ok; [apply Hff|reflexivity]].
  match goal with
  | |- context [bind (insert_tags id _) _ ?s1] =>
      destruct (insert_tags_tables id (data_tags data) s1) as (s' & E & Ht & Hf);
        [intros k; apply Hff|done|done|]
  end.
  exists s'. by rewrite (bind_ret_eq _ _ _ _ _ E).
Qed.

Lemma select_tags_elem id t tg :
  tg ∈ select_tags id t <-> tg ∈ tag_table t /\ (id, tag_id tg) ∈ content_to_tags t.
Proof.
  unfold select_tags. rewrite list_elem_of_In, in_flat_map. split.
  - intros (tg' & Htg' & Hin). apply in_map_iff in Hin as ([c x] & -> & Hin).
    apply filter_In in Hin as [Hin Hp]. simpl in Hp.
    apply andb_true_iff in Hp as [->%String.eqb_eq ->%String.eqb_eq].
    split; by apply list_elem_of_In.
  - intros [Htg Hp]. exists tg. split; [by apply list_elem_of_In|].
    apply in_map_iff. exists (id, tag_id tg). split; [done|].
    apply filter_In. split; [by apply list_elem_of_In|].
    simpl. by rewrite !String.eqb_refl.
Qed.

Lemma find_app_none {A} (p : A -> bool) (l l' : list A) :
  List.find p l = None -> List.find p (l ++ l') = List.find p l'.
Proof.
  induction l as [|x l IH]; [done|]. simpl. destruct (p x); [done|exact IH].
Qed.

(** What [addContent] wrote is what [getContentById] reads back. *)
Theorem addContent_then_getContentById id now data s :
  fault_free s ->
  id <> "" ->
  select_content id (tables s) = None ->
  (forall tag, (id, tag) ∉ content_to_tags (tables s)) ->
  NoDup (data_tags data) ->
  exists s1 c s2,
    addContent id now data s = (Ret id, s1) /\
    getContentById id s1 = (Ret (Some c), s2) /\
    (let r := content_row_of c in
     row_id r = id /\ row_title r = title data /\ row_slug r = slug data /\
     row_description r = description data /\ row_type r = data_type data /\
     row_status r = data_status data /\ row_body r = body data /\
     row_created_at r = now /\ row_updated_at r = now /\
     row_published_at r
       = (if String.eqb (data_status data) "published" then Some now else None) /\
     row_likes r = 0 /\ row_saves r = 0) /\
    (forall tg,
       tg ∈ content_tags c <->
       tg ∈ tag_table (tables s) /\ tag_id tg ∈ data_tags data).
Proof.
  intros Hff Hid Hfresh Hpairs Hnd.
  destruct (addContent_tables id now data s Hff Hnd) as (s1 & E1 & Ht1 & Hf1);
    [by intros tag _|].
  assert (fault_free s1) as Hff1 by (intros k; rewrite Hf1; apply Hff).
  destruct (getContentById_fault_free parse_children id s1 Hff1) as (s2 & E2 & _).
  unfold resolve in E2. apply String.eqb_neq in Hid. rewrite Hid in E2.
  assert (select_content id (tables s1)
          = Some (mkRow id (title data) (slug data) (description data)
                    (data_type data) (data_status data) (body data) None now now
                    (if String.eqb (data_status data) "published"
                     then Some now else None) 0 0)) as Hsel.
  { rewrite Ht1. unfold select_content in *. simpl.
    rewrite (find_app_none _ _ _ Hfresh). simpl. by rewrite String.eqb_refl. }
  rewrite Hsel in E2. simpl in E2.
  eexists s1, _, s2. split; [exact E1|]. split; [exact E2|].
  split; [by repeat split|].
  intros tg. simpl. rewrite select_tags_elem, Ht1. simpl.
  rewrite elem_of_app, map_elem. split.
  - intros [Htg [Hp|(tag & [= <-] & Htag)]]; [by apply Hpairs in Hp|done].
  - intros [Htg Htag]. split; [done|]. right. by exists (tag_id tg).
Qed.

Lemma update_row_again id data now now' r :
  update_row id data now' (update_row id data now r)
  = touch id now' (update_row id data now r).
Proof.
  unfold update_row, touch.
  destruct (String.eqb (row_id r) id) eqn:E; simpl; rewrite E; [|done].
  f_equal. unfold published_at_case. simpl.
  by destruct (String.eqb (data_status data) "published").
Qed.

Lemma updateContent_tables now id data s :
  fault_free s ->
  NoDup (data_tags data) ->
  exists s',
    updateContent now id data s = (Ret tt, s') /\
    tables s' =
      mkTables (map (update_row id data now) (content (tables s)))
        (tag_table (tables s))
        (List.filter (fun p => negb (String.eqb (fst p) id)) (content_to_tags (tables s))
           ++ map (pair id) (data_tags data)) /\
    faults s' = faults s.
Proof.
  intros Hff Hnd. unfold updateContent.
  rewrite (bind_ret_eq _ _ _ _ _ (prepare_ok _ _ (Hff _))).
  erewrite bind_ret_eq; [|apply write_ok; [apply Hff|reflexivity]].
  erewrite bind_ret_eq; [|apply prepare_ok; apply Hff].
  erewrite bind_ret_eq; [|apply write_ok; [apply Hff|reflexivity]].
  match goal with
  | |- context [insert_tags id _ ?s1] =>
      destruct (insert_tags_tables id (data_tags data) s1) as (s' & E & Ht & Hf);
        [intros k; apply Hff|done| |]
  end.
  { intros tag _ Hin. simpl in Hin. apply filter_elem in Hin as [_ Hin].
    simpl in Hin. by rewrite String.eqb_refl in Hin. }
  exists s'. split; [exact E|]. split; [|done]. by rewrite Ht.
Qed.

Lemma filter_own_pairs id (l : list string) :
  List.filter (fun p : string * string => negb (String.eqb (fst p) id))
    (map (pair id) l) = [].
Proof.
  induction l as [|x l IH]; [done|]. simpl. by rewrite String.eqb_refl.
Qed.

Lemma filter_filter_same {A} (p : A -> bool) (l : list A) :
  List.filter p (List.filter p l) = List.filter p l.
Proof.
  induction l as [|x l IH]; [done|].
  simpl. destruct (p x) eqn:E; simpl; rewrite ?E, IH; done.
Qed.

(** Running [updateContent] again with the same data changes nothing but
    [updated_at]: the publication date of the first run stays. *)
Theorem updateContent_repeated now now' id data s :
  fault_free s ->
  NoDup (data_tags data) ->
  exists s1 s2,
    updateContent now id data s = (Ret tt, s1) /\
    updateContent now' id data s1 = (Ret tt, s2) /\
    tables s2 =
      mkTables (map (touch id now') (content (tables s1)))
        (tag_table (tables s1)) (content_to_tags (tables s1)).
Proof.
  intros Hff Hnd.
  destruct (updateContent_tables now id data s Hff Hnd) as (s1 & E1 & Ht1 & Hf1).
  assert (fault_free s1) as Hff1 by (intros k; rewrite Hf1; apply Hff).
  destruct (updateContent_tables now' id data s1 Hff1 Hnd) as (s2 & E2 & Ht2 & Hf2).
  exists s1, s2. split; [done|]. split; [done|].
  rewrite Ht2, Ht1. simpl. f_equal.
  - rewrite !map_map. apply map_ext. intros r. apply update_row_again.
  - rewrite filter_app, filter_own_pairs, app_nil_r.
    by rewrite filter_filter_same.
Qed.

(** [addContent] opens no transaction: once its [INSERT] has run the row
    stays, whatever the tag inserts do afterwards. *)
Theorem addContent_not_atomic id now data s :
  faults s (ticks s) = false ->
  faults s (S (ticks s)) = false ->
  exists o s' evs,
    addContent id now data s = (o, s') /\
    mkRow id (title data) (slug data) (description data) (data_type data)
      (data_status data) (body data) None now now
      (if String.eqb (data_status data) "published" then Some now else None)
      0 0 ∈ content (tables s') /\
    journal s' = journal s ++ evs /\
    Forall (fun ev => forall c, ev <> EvExec c) evs.
Proof.
  intros H0 H1.
  set (row := mkRow id (title data) (slug data) (description data) (data_type data)
                (data_status data) (body data) None now now
                (if String.eqb (data_status data) "published" then Some now else None)
                0 0).
  cut (wp (addContent id now data) s (fun _ s' =>
         row ∈ content (tables s') /\
         exists evs, journal s' = journal s ++ evs /\
                     Forall (fun ev => forall c, ev <> EvExec c) evs)).
  { unfold wp. destruct (addContent id now data s) as [o s'].
    simpl. intros (Hrow & evs & Hj & Hev). by exists o, s', evs. }
  unfold addContent. fold row.
  wp_step. wp_step. rewrite H0. wp_step. wp_step. simpl. rewrite H1.
  cbn [insert_content]. wp_step.
  set (I := fun s' : store db_tables =>
              row ∈ content (tables s') /\
              exists evs, journal s' = journal s ++ evs /\
                          Forall (fun ev => forall c, ev <> EvExec c) evs).
  match goal with
  | |- wp _ ?s1 _ => assert (I s1) as HI
  end.
  { split; [simpl; apply elem_of_app; right; by apply list_elem_of_singleton|].
    eexists. split; [simpl; rewrite app_nil_r, <-app_assoc; reflexivity|].
    by repeat constructor. }
  assert (forall ev s1, (forall c, ev <> EvExec c) -> I s1 -> I (requested ev s1))
    as Hreq.
  { intros ev s1 Hev (Hrow & evs & Hj & Hevs). split; [done|].
    exists (evs ++ [ev]). split; [simpl; by rewrite Hj, <-app_assoc|].
    apply Forall_app. split; [done|by constructor]. }
  eapply wp_mono with (Q := fun _ s' => I s').
  { intros [a|e] s' HI'; [by wp_step|exact HI']. }
  unfold insert_tags. case_bool_decide; [|by wp_step].
  wp_step. wp_step.
  match goal with |- context [faults ?s1 (ticks ?s1)] => destruct (faults s1 (ticks s1)) end;
    [by apply Hreq|].
  wp_step.
  eapply wp_mono with (Q := fun _ s' => I s').
  { intros [a|e] s' HI'; [by wp_step|exact HI']. }
  apply wp_for_each; [|by apply Hreq].
  intros tag s1 HI1. wp_step.
  destruct (faults s1 (ticks s1)); [by apply Hreq|].
  unfold insert_content_tag.
  destruct (has_pair id tag (content_to_tags (tables s1))); [by apply Hreq|].
  destruct HI1 as (Hrow & evs & Hj & Hevs). split; [done|].
  eexists. split; [simpl; rewrite Hj, <-!app_assoc; reflexivity|].
  apply Forall_app. split; [done|]. by repeat constructor.
Qed.

End ServiceMutationsMore.

(** ** The function-style module: reads *)

Section DbReadsFacts.
Import Db DbReads DbReadsSpec.

Variable eval_listing : string -> list param -> db_tables -> list PreviewContent.
Variable has_liked has_saved : string -> Z -> db_tables -> bool.
Variable J : Type.
Variable parse : string -> option J.
Variable empty_array : J.

Local Abbreviation add_user_liked_and_saved :=
  (add_user_liked_and_saved has_liked has_saved).
Local Abbreviation flag_row := (flag_row has_liked has_saved).
Local Abbreviation flagged := (flagged has_liked has_saved).
Local Abbreviation decorate := (decorate has_liked has_saved).
Local Abbreviation get_content := (get_content eval_listing has_liked has_saved).
Local Abbreviation get_admin_content :=
  (get_admin_content eval_listing has_liked has_saved).
Local Abbreviation get_content_by_ids := (get_content_by_ids eval_listing).
Local Abbreviation get_content_by_id := (get_content_by_id J parse empty_array).

(** *** The type filter *)

(** What is left of a type consists of letters, digits, [_] and [-]; a
    type that consists of them is left as it is, so sanitizing twice is
    sanitizing once. *)
Theorem sanitize_type_spec (type : string) :
  Forall (fun a => type_char a = true) (String.list_ascii_of_string (sanitize_type type)) /\
  (Forall (fun a => type_char a = true) (String.list_ascii_of_string type) ->
   sanitize_type type = type) /\
  sanitize_type (sanitize_type type) = sanitize_type type /\
  (String.length (sanitize_type type) <= String.length type)%nat.
Proof.
  assert (forall s,
            Forall (fun a => type_char a = true)
              (String.list_ascii_of_string (sanitize_type s))) as Hall.
  { induction s as [|a s IH]; [constructor|].
    simpl. destruct (type_char a) eqn:E; [by constructor|done]. }
  assert (forall s,
            Forall (fun a => type_char a = true) (String.list_ascii_of_string s) ->
            sanitize_type s = s) as Hfix.
  { induction s as [|a s IH]; [done|].
    simpl. intros [Ha Hs]%list.Forall_cons. rewrite Ha. f_equal. by apply IH. }
  split; [apply Hall|]. split; [apply Hfix|]. split; [apply Hfix, Hall|].
  induction type as [|a s IH]; [done|].
  simpl. destruct (type_char a); simpl; lia.
Qed.

(** *** Reads keep the tables *)

Lemma wp_fold_m {T A B} (f : B -> A -> M T B) (I : store T -> Prop) xs b s :
  (forall b x s1, I s1 -> wp (f b x) s1 (fun _ s2 => I s2)) ->
  I s ->
  wp (fold_m f xs b) s (fun _ s' => I s').
Proof.
  intros Hf. revert b s. induction xs as [|x xs IH]; intros b s HI; simpl.
  - by wp_step.
  - wp_step. eapply wp_mono; [|by apply Hf].
    intros [b'|e] s1 H1; [by apply IH|done].
Qed.

Lemma add_tags_read_only rows s :
  wp (add_tags rows) s (fun _ s' => read_only s s').
Proof.
  unfold add_tags.
  apply (wp_for_each _ (fun s' => read_only s s')); [|apply read_only_refl].
  intros c s1 H1. wp_step. wp_step.
  destruct (faults s1 (ticks s1)); [solve_read_only|].
  wp_step.
  eapply wp_mono;
    [|apply (wp_for_each _ (fun s' => read_only s s'))].
  - intros [tags|e] s2 H2; [by wp_step|done].
  - intros tag_id s2 H2. wp_step.
    destruct (faults s2 (ticks s2)); solve_read_only.
  - solve_read_only.
Qed.

Lemma flag_row_read_only user_id rows id s0 s :
  read_only s0 s ->
  wp (flag_row user_id rows id) s (fun _ s' => read_only s0 s').
Proof.
  intros H0. unfold DbReads.flag_row. wp_step.
  assert (forall rows1 s1,
            read_only s0 s1 ->
            wp match find_position id rows1 with
               | Some savedContent =>
                   bind (read (Built get_user_has_saved_content)
                           [PStr user_id; PNum id] (has_saved user_id id))
                     (fun hit => ret (alter (set_saved hit) savedContent rows1))
               | None => ret rows1
               end s1 (fun _ s' => read_only s0 s')) as Hsaved.
  { intros rows1 s1 H1. destruct (find_position id rows1); [|by wp_step].
    wp_step. wp_step. destruct (faults s1 (ticks s1)); [solve_read_only|].
    wp_step. solve_read_only. }
  destruct (find_position id rows).
  - wp_step. wp_step. destruct (faults s (ticks s)); [solve_read_only|].
    wp_step. apply Hsaved. solve_read_only.
  - wp_step. by apply Hsaved.
Qed.

Lemma add_user_liked_and_saved_read_only user_id rows s :
  wp (add_user_liked_and_saved user_id rows) s (fun _ s' => read_only s s').
Proof.
  unfold DbReads.add_user_liked_and_saved.
  destruct (String.eqb user_id ""); [wp_step; apply read_only_refl|].
  apply (wp_fold_m _ (fun s' => read_only s s')); [|apply read_only_refl].
  intros b x s1 H1. by apply flag_row_read_only.
Qed.

Lemma decorate_read_only user_id content s0 s :
  read_only s0 s ->
  wp (decorate user_id content) s (fun _ s' => read_only s0 s').
Proof.
  intros H0. unfold DbReads.decorate. wp_step.
  eapply wp_mono; [|apply add_tags_read_only].
  intros [content'|e] s1 H1; [|solve_read_only].
  destruct (truthy_str user_id); [|wp_step; solve_read_only].
  eapply wp_mono; [|apply add_user_liked_and_saved_read_only].
  intros o s2 H2. solve_read_only.
Qed.

(** *** The listings *)

(** [get_content] and [get_admin_content] check the page window before
    anything else: outside it they throw and the store is not asked. *)
Theorem page_window_checked_first limit offset types user_id s :
  (let lim := default 15 limit in
   let off := default 0 offset in
   (lim < 0 \/ 100 < lim ->
    get_content limit offset types user_id s = (Ret (inl "Invalid limit"), s)) /\
   (0 <= lim <= 100 -> off < 0 ->
    get_content limit offset types user_id s = (Ret (inl "Invalid offset"), s))) /\
  (let lim := default 50 limit in
   let off := default 0 offset in
   (lim < 0 \/ 200 < lim ->
    get_admin_content limit offset user_id s = (Ret (inl "Invalid limit"), s)) /\
   (0 <= lim <= 200 -> off < 0 ->
    get_admin_content limit offset user_id s = (Ret (inl "Invalid offset"), s))).
Proof.
  unfold DbReads.get_content, DbReads.get_admin_content. cbv zeta.
  repeat split.
  - intros [H|H].
    + by apply Z.ltb_lt in H as ->.
    + apply Z.ltb_lt in H as ->. by rewrite orb_true_r.
  - intros [H1 H2] H3.
    apply Z.ltb_ge in H1 as ->. apply Z.ltb_ge in H2 as ->.
    by apply Z.ltb_lt in H3 as ->.
  - intros [H|H].
    + by apply Z.ltb_lt in H as ->.
    + apply Z.ltb_lt in H as ->. by rewrite orb_true_r.
  - intros [H1 H2] H3.
    apply Z.ltb_ge in H1 as ->. apply Z.ltb_ge in H2 as ->.
    by apply Z.ltb_lt in H3 as ->.
Qed.

Lemma count_placeholders_typed_listing (sanitizedTypes : list string) :
  count_placeholders (typed_listing sanitizedTypes)
  = (length sanitizedTypes + 2)%nat.
Proof.
  unfold typed_listing, tab_line.
  rewrite !count_placeholders_app, count_placeholders_list.
  assert (count_placeholders (preview_select 3) = 0%nat) as -> by reflexivity.
  simpl. lia.
Qed.

(** Inside the window [get_content] first prepares its statement and,
    if that succeeded, runs it with the sanitized types, the limit and the
    offset; the statement has one placeholder for each of them. *)
Theorem get_content_statement limit offset types user_id s :
  let lim := default 15 limit in
  let off := default 0 offset in
  let sanitized := map sanitize_type (default [] types) in
  let text :=
    if bool_decide (0 < length sanitized)%nat
    then typed_listing sanitized else plain_listing in
  let bound := map PStr sanitized ++ [PNum lim; PNum off] in
  0 <= lim <= 100 ->
  0 <= off ->
  count_placeholders text = length bound /\
  exists evs,
    journal (snd (get_content limit offset types user_id s))
    = journal s ++ EvPrepare (Built text) :: evs /\
    (faults s (ticks s) = false ->
     exists evs', evs = EvStep (Built text) bound :: evs').
Proof.
  intros lim off sanitized text bound [Hl1 Hl2] Ho.
  split.
  { subst text bound. rewrite length_app, length_map. simpl.
    case_bool_decide as Hlen.
    - apply count_placeholders_typed_listing.
    - destruct sanitized; [reflexivity|simpl in Hlen; lia]. }
  cut (wp (get_content limit offset types user_id) s (fun _ s' =>
         exists evs,
           journal s' = journal s ++ EvPrepare (Built text) :: evs /\
           (faults s (ticks s) = false ->
            exists evs', evs = EvStep (Built text) bound :: evs'))).
  { unfold wp. by destruct (get_content limit offset types user_id s). }
  unfold DbReads.get_content. cbv zeta. fold lim off sanitized.
  apply Z.ltb_ge in Hl1 as ->. apply Z.ltb_ge in Hl2 as ->.
  apply Z.ltb_ge in Ho as ->. simpl.
  assert (forall (m : M db_tables (list PreviewContent)),
            m = bind (prepare (Built text))
                  (fun _ => read (Built text) bound (eval_listing text bound)) ->
            wp (bind m (fun content =>
                  bind (decorate user_id content)
                    (fun content => ret (@inr string _ content))))
              s (fun _ s' =>
                   exists evs,
                     journal s' = journal s ++ EvPrepare (Built text) :: evs /\
                     (faults s (ticks s) = false ->
                      exists evs', evs = EvStep (Built text) bound :: evs'))) as Hrun.
  { intros m ->. wp_step. wp_step. wp_step.
    destruct (faults s (ticks s)) eqn:F0; [by exists []|].
    wp_step. simpl.
    destruct (faults s (S (ticks s))).
    { eexists. split; [by rewrite <-app_assoc|]. by eauto. }
    wp_step.
    eapply wp_mono; [|apply decorate_read_only; apply read_only_refl].
    intros o s2 (_ & _ & _ & evs & Hj).
    assert (exists evs0,
              journal s2 = journal s ++ EvPrepare (Built text) :: evs0 /\
              (false = false ->
               exists evs', evs0 = EvStep (Built text) bound :: evs')) as Hdone.
    { rewrite Hj. simpl. eexists. split; [by rewrite <-!app_assoc|]. by eauto. }
    destruct o; [by wp_step|done]. }
  apply Hrun. subst text bound.
  case_bool_decide as Hlen; [done|].
  destruct sanitized; [done|simpl in Hlen; lia].
Qed.

(** *** Flags of the user *)

Lemma find_position_lookup id rows i :
  find_position id rows = Some i ->
  exists c, rows !! i = Some c /\ preview_id c = id.
Proof.
  revert i. induction rows as [|c rows IH]; intros i; simpl; [done|].
  destruct (preview_id c =? id) eqn:E.
  - intros [= <-]. exists c. split; [done|]. by apply Z.eqb_eq.
  - destruct (find_position id rows) as [j|]; [|done].
    intros [= <-]. by apply IH.
Qed.

Lemma find_position_ids id rows rows' :
  map preview_id rows' = map preview_id rows ->
  find_position id rows' = find_position id rows.
Proof.
  revert rows'. induction rows as [|c rows IH]; intros [|c' rows'] H;
    simplify_eq/=; [done|].
  rewrite H. by rewrite (IH rows').
Qed.

Lemma find_position_elem c rows :
  c ∈ rows -> is_Some (find_position (preview_id c) rows).
Proof.
  induction rows as [|c' rows IH]; [by intros ?%elem_of_nil|].
  intros [->|H]%elem_of_cons; simpl.
  - rewrite Z.eqb_refl. by eauto.
  - destruct (preview_id c' =? preview_id c); [by eauto|].
    destruct (IH H) as [i ->]. by eauto.
Qed.

Lemma alter_ids (g : PreviewContent -> PreviewContent) i rows :
  (forall c, preview_id (g c) = preview_id c) ->
  map preview_id (alter g i rows) = map preview_id rows.
Proof.
  intros Hg. apply list_eq. intros j.
  change (map preview_id) with (fmap (M:=list) preview_id).
  rewrite !list_lookup_fmap.
  rewrite list_lookup_alter.
  case_decide; subst; destruct (rows !! j) as [c|]; simpl; try done.
  by rewrite Hg.
Qed.

(** One iteration on a store without failures: the row found gets both
    flags. *)
Lemma flag_row_ok user_id rows id s :
  fault_free s ->
  exists s',
    flag_row user_id rows id s
    = (Ret (match find_position id rows with
            | Some i =>
                alter (fun c => set_saved (has_saved user_id id (tables s))
                                  (set_liked (has_liked user_id id (tables s)) c))
                  i rows
            | None => rows
            end), s') /\
    read_only s s'.
Proof.
  intros Hff. unfold DbReads.flag_row.
  destruct (find_position id rows) as [i|] eqn:Hi.
  - erewrite bind_ret_eq;
      [|erewrite bind_ret_eq; [reflexivity|apply read_ok, Hff]].
    rewrite (find_position_ids id rows) by (by apply alter_ids). rewrite Hi.
    erewrite bind_ret_eq; [|apply read_ok; apply Hff].
    eexists. split.
    { unfold ret. simpl. rewrite list_alter_alter_eq. reflexivity. }
    solve_read_only.
  - rewrite (bind_ret_eq _ _ _ _ _ (eq_refl : ret rows s = (Ret rows, s))).
    rewrite Hi. eexists. split; [reflexivity|apply read_only_refl].
Qed.

(** The rows after the loop has visited the ids [ids]. *)
Lemma flag_loop_ok user_id ids rows s :
  fault_free s ->
  exists rows' s',
    fold_m (flag_row user_id) ids rows s = (Ret rows', s') /\
    read_only s s' /\
    map preview_id rows' = map preview_id rows /\
    forall i c, rows !! i = Some c ->
      rows' !! i =
        Some (if existsb (fun id => bool_decide (find_position id rows = Some i)) ids
              then flagged user_id (tables s) c else c).
Proof.
  intros Hff. revert rows s Hff. induction ids as [|id ids IH]; intros rows s Hff.
  - exists rows, s. split; [done|]. split; [apply read_only_refl|]. by split.
  - destruct (flag_row_ok user_id rows id s Hff) as (s1 & E1 & Hro1).
    set (rows1 := match find_position id rows with
                  | Some i =>
                      alter (fun c => set_saved (has_saved user_id id (tables s))
                                        (set_liked (has_liked user_id id (tables s)) c))
                        i rows
                  | None => rows
                  end) in *.
    assert (map preview_id rows1 = map preview_id rows) as Hids1.
    { subst rows1. destruct (find_position id rows); [|done]. by apply alter_ids. }
    assert (fault_free s1) as Hff1.
    { eapply fault_free_later; [|exact Hff]. apply Hro1. }
    destruct (IH rows1 s1 Hff1) as (rows' & s' & E & Hro & Hids & Hrows).
    exists rows', s'. split; [simpl; by rewrite (bind_ret_eq _ _ _ _ _ E1)|].
    split; [solve_read_only|]. split; [congruence|].
    intros i c Hc.
    assert (tables s1 = tables s) as Ht1 by apply Hro1.
    assert (rows1 !! i =
            Some (if bool_decide (find_position id rows = Some i)
                  then flagged user_id (tables s) c else c)) as Hc1.
    { subst rows1. destruct (find_position id rows) as [j|] eqn:Hj.
      - case_bool_decide as Hij.
        + injection Hij as ->. rewrite list_lookup_alter, decide_True, Hc by done.
          simpl.
          destruct (find_position_lookup _ _ _ Hj) as (c' & Hc' & <-).
          by simplify_eq.
        + rewrite list_lookup_alter, decide_False by congruence. done.
      - by rewrite bool_decide_eq_false_2. }
    rewrite (Hrows i _ Hc1). f_equal. rewrite Ht1. simpl.
    assert (existsb (fun id0 => bool_decide (find_position id0 rows1 = Some i)) ids
            = existsb (fun id0 => bool_decide (find_position id0 rows = Some i)) ids)
      as ->.
    { clear -Hids1. induction ids as [|id0 ids IHids]; [done|]. simpl.
      by rewrite IHids, (find_position_ids id0 rows rows1). }
    destruct (bool_decide (find_position id rows = Some i)); simpl;
      destruct (existsb _ ids); done.
Qed.

Lemma visited_first rows i c :
  rows !! i = Some c ->
  existsb (fun id => bool_decide (find_position id rows = Some i))
    (map preview_id rows)
  = bool_decide (find_position (preview_id c) rows = Some i).
Proof.
  intros Hc. apply eq_true_iff_eq. rewrite existsb_exists, bool_decide_eq_true.
  split.
  - intros (id & _ & H%bool_decide_eq_true).
    destruct (find_position_lookup _ _ _ H) as (c' & Hc' & <-). by simplify_eq.
  - intros H. exists (preview_id c). split; [|by apply bool_decide_eq_true].
    apply in_map. apply list_elem_of_In. by eapply list_elem_of_lookup_2.
Qed.

(** Without a user nothing is asked and nothing is set.  With one, and no
    failure, each row that is the first of the array with its id gets both
    flags from the store; a later row with the same id is left as it was. *)
Theorem add_user_liked_and_saved_first_occurrence user_id rows s :
  add_user_liked_and_saved "" rows s = (Ret rows, s) /\
  (fault_free s ->
   user_id <> "" ->
   exists rows' s',
     add_user_liked_and_saved user_id rows s = (Ret rows', s') /\
     read_only s s' /\
     length rows' = length rows /\
     forall i c, rows !! i = Some c ->
       rows' !! i =
         Some (if bool_decide (find_position (preview_id c) rows = Some i)
               then flagged user_id (tables s) c else c)).
Proof.
  split; [done|]. intros Hff Hne.
  unfold DbReads.add_user_liked_and_saved.
  apply String.eqb_neq in Hne. rewrite Hne.
  destruct (flag_loop_ok user_id (map preview_id rows) rows s Hff)
    as (rows' & s' & E & Hro & Hids & Hrows).
  exists rows', s'. split; [done|]. split; [done|].
  split; [by rewrite <-(length_map preview_id rows'), Hids, length_map|].
  intros i c Hc. by rewrite (Hrows i c Hc), (visited_first rows i c Hc).
Qed.

Lemma find_position_nodup rows i c :
  NoDup (map preview_id rows) ->
  rows !! i = Some c ->
  find_position (preview_id c) rows = Some i.
Proof.
  revert i. induction rows as [|c' rows IH]; intros i; [done|].
  simpl. intros [Hc' Hnd]%list.NoDup_cons. destruct i as [|i]; simpl.
  - intros [= ->]. by rewrite Z.eqb_refl.
  - intros Hc. destruct (preview_id c' =? preview_id c) eqn:E.
    + exfalso. apply Hc'. apply Z.eqb_eq in E. rewrite E.
      apply list_elem_of_fmap. exists c. split; [done|].
      by eapply list_elem_of_lookup_2.
    + by rewrite (IH i Hnd Hc).
Qed.

(** The loop on rows with distinct ids. *)
Lemma flag_distinct_rows user_id rows s :
  fault_free s ->
  user_id <> "" ->
  NoDup (map preview_id rows) ->
  exists s',
    add_user_liked_and_saved user_id rows s
    = (Ret (map (flagged user_id (tables s)) rows), s') /\
    read_only s s'.
Proof.
  intros Hff Hne Hnd. unfold DbReads.add_user_liked_and_saved.
  apply String.eqb_neq in Hne. rewrite Hne.
  destruct (flag_loop_ok user_id (map preview_id rows) rows s Hff)
    as (rows' & s' & E & Hro & Hids & Hrows).
  exists s'. split; [|done]. rewrite E. f_equal. f_equal.
  apply list_eq. intros i. rewrite list_lookup_fmap.
  destruct (rows !! i) as [c|] eqn:Hc; simpl.
  - rewrite (Hrows i c Hc), (visited_first rows i c Hc).
    by rewrite bool_decide_eq_true_2 by (by apply find_position_nodup).
  - apply lookup_ge_None. apply lookup_ge_None in Hc.
    by rewrite <-(length_map preview_id rows'), Hids, length_map.
Qed.

(** When the ids of the rows are distinct, as those of a listing are,
    every row gets both flags. *)
Theorem add_user_liked_and_saved_distinct user_id rows s :
  fault_free s ->
  user_id <> "" ->
  NoDup (map preview_id rows) ->
  exists s',
    add_user_liked_and_saved user_id rows s
    = (Ret (map (flagged user_id (tables s)) rows), s') /\
    read_only s s'.
Proof.
  intros Hff Hne Hnd. unfold DbReads.add_user_liked_and_saved.
  apply String.eqb_neq in Hne. rewrite Hne.
  destruct (flag_loop_ok user_id (map preview_id rows) rows s Hff)
    as (rows' & s' & E & Hro & Hids & Hrows).
  exists s'. split; [|done]. rewrite E. f_equal. f_equal.
  apply list_eq. intros i. rewrite list_lookup_fmap.
  destruct (rows !! i) as [c|] eqn:Hc; simpl.
  - rewrite (Hrows i c Hc), (visited_first rows i c Hc).
    by rewrite bool_decide_eq_true_2 by (by apply find_position_nodup).
  - apply lookup_ge_None. apply lookup_ge_None in Hc.
    by rewrite <-(length_map preview_id rows'), Hids, length_map.
Qed.

(** *** Lookups *)

(** [get_content_by_ids] asks nothing for no id; otherwise it binds one
    id for each placeholder, and once the statement is prepared a failure
    of the store gives the empty array, as no match does. *)
Theorem get_content_by_ids_failures contentIds s :
  get_content_by_ids [] s = (Ret [], s) /\
  count_placeholders (by_ids_listing contentIds) = length (map PNum contentIds) /\
  (contentIds <> [] ->
   (faults s (ticks s) = true ->
    exists s', get_content_by_ids contentIds s
               = (Throw (StoreFailure (ticks s)), s')) /\
   (faults s (ticks s) = false ->
    faults s (S (ticks s)) = true ->
    exists s', get_content_by_ids contentIds s = (Ret [], s')) /\
   (faults s (ticks s) = false ->
    faults s (S (ticks s)) = false ->
    exists s',
      get_content_by_ids contentIds s
      = (Ret (eval_listing (by_ids_listing contentIds) (map PNum contentIds)
                (tables s)), s'))).
Proof.
  split; [done|]. split.
  { unfold by_ids_listing, space_line.
    rewrite !count_placeholders_app, count_placeholders_list, length_map.
    simpl. lia. }
  intros Hne. unfold DbReads.get_content_by_ids.
  rewrite bool_decide_eq_false_2 by (by destruct contentIds).
  split; [|split].
  - intros F0. rewrite (bind_throw_eq _ _ _ _ _ (prepare_fails _ _ F0)). by eauto.
  - intros F0 F1. rewrite (bind_ret_eq _ _ _ _ _ (prepare_ok _ _ F0)).
    erewrite try_catch_throw_eq; [|by apply read_fails]. by eauto.
  - intros F0 F1. rewrite (bind_ret_eq _ _ _ _ _ (prepare_ok _ _ F0)).
    erewrite try_catch_ret_eq; [|by apply read_ok]. by eauto.
Qed.

(** [get_content_by_id] on a store without failures: the decoded row. *)
Lemma get_content_by_id_ok id s :
  fault_free s ->
  exists s',
    get_content_by_id id s
    = (Ret (select_by_id id (tables s) ≫= decode parse empty_array), s') /\
    read_only s s'.
Proof.
  intros Hff.
  cut (wp (get_content_by_id id) s (fun o s' =>
         o = Ret (select_by_id id (tables s) ≫= decode parse empty_array) /\
         read_only s s')).
  { unfold wp. destruct (get_content_by_id id s) as [o s'].
    simpl. intros [-> H]. by exists s'. }
  unfold DbReads.get_content_by_id.
  wp_step. wp_step. rewrite Hff. wp_step. wp_step. wp_step. simpl. rewrite Hff.
  destruct (select_by_id id (tables s)) as [r|]; simpl;
    [|wp_step; split; [done|solve_read_only]].
  unfold decode, json_parse.
  destruct (truthy_str (row_children r)).
  - wp_step. destruct (parse (default "" (row_children r))) as [children|].
    + wp_step. wp_step.
      destruct (parse (default "{}" (row_metadata r))) as [metadata|];
        repeat wp_step; (split; [done|solve_read_only]).
    + repeat wp_step. split; [done|solve_read_only].
  - wp_step. wp_step. wp_step.
    destruct (parse (default "{}" (row_metadata r))) as [metadata|];
      repeat wp_step; (split; [done|solve_read_only]).
Qed.

(** A row whose [children] or [metadata] is not JSON is reported as no
    row: the failure of [JSON.parse] is caught like one of the store. *)
Theorem get_content_by_id_malformed_is_null id s r :
  fault_free s ->
  select_by_id id (tables s) = Some r ->
  (truthy_str (row_children r) = true /\
   parse (default "" (row_children r)) = None) \/
  parse (default "{}" (row_metadata r)) = None ->
  exists s', get_content_by_id id s = (Ret None, s') /\ read_only s s'.
Proof.
  intros Hff Hr Hbad.
  destruct (get_content_by_id_ok id s Hff) as (s' & E & Hro).
  exists s'. split; [|done]. rewrite E, Hr. simpl. unfold decode.
  destruct Hbad as [[-> ->]|Hm]; [done|].
  rewrite Hm. by destruct (if truthy_str _ then _ else _).
Qed.

End DbReadsFacts.

(** ** The function-style module: writes and lookups together *)

Section DbRoundTrips.
Import Db DbReads DbReadsSpec.

Variable DRAFT : string.
Variable stringify_ids : list Z -> string.
Variable now : string.
Variable default_published_at : option string.
Variable default_likes default_saves : Z.
Variable J : Type.
Variable parse : string -> option J.
Variable empty_array : J.

Local Abbreviation create_content :=
  (create_content DRAFT stringify_ids now default_published_at
     default_likes default_saves).
Local Abbreviation update_content := (update_content stringify_ids now).
Local Abbreviation get_content_by_id := (get_content_by_id J parse empty_array).

Lemma find_filter_none {A} (p : A -> bool) (l : list A) :
  List.find p (List.filter (fun x => negb (p x)) l) = None.
Proof.
  induction l as [|x l IH]; [done|].
  simpl. destruct (p x) eqn:E; simpl; [done|]. by rewrite E.
Qed.

(** [delete_content] reports whether a row had the id, and afterwards
    [get_content_by_id] finds none; the other rows are kept. *)
Theorem delete_then_get_content_by_id id s :
  fault_free s ->
  exists b s1 s2,
    delete_content id s = (Ret b, s1) /\
    (b = true <-> exists r, r ∈ content (tables s) /\ row_id r = id) /\
    content (tables s1)
      = List.filter (fun r => negb (row_id r =? id)) (content (tables s)) /\
    get_content_by_id id s1 = (Ret None, s2).
Proof.
  intros Hff. unfold delete_content.
  rewrite (bind_ret_eq _ _ _ _ _ (prepare_ok _ _ (Hff _))).
  erewrite try_catch_ret_eq;
    [|erewrite bind_ret_eq; [reflexivity|apply write_ok; [apply Hff|reflexivity]]].
  match goal with
  | |- context [(Ret ?b0, ?s0)] => set (s1 := s0); set (b := b0)
  end.
  assert (fault_free s1) as Hff1 by (intros k; apply Hff).
  destruct (get_content_by_id_ok J parse empty_array id s1 Hff1) as (s2 & E2 & _).
  exists b, s1, s2. split; [done|]. split; [|split; [done|]].
  - subst b. rewrite Z.ltb_lt. cbn [tables requested]. split.
    + intros Hlen.
      destruct (List.filter (fun r => row_id r =? id) (content (tables s)))
        as [|r l] eqn:E; [simpl in Hlen; lia|].
      assert (In r (List.filter (fun r => row_id r =? id) (content (tables s))))
        as Hin by (rewrite E; by left).
      apply filter_In in Hin as [Hin Hid]. exists r.
      split; [by apply list_elem_of_In|by apply Z.eqb_eq].
    + intros (r & Hin & Hid).
      assert (In r (List.filter (fun r => row_id r =? id) (content (tables s))))
        as Hin'.
      { apply filter_In. split; [by apply list_elem_of_In|by apply Z.eqb_eq]. }
      destruct (List.filter (fun r => row_id r =? id) (content (tables s)));
        [destruct Hin'|simpl; lia].
  - rewrite E2. f_equal. f_equal. unfold select_by_id. subst s1. simpl.
    by rewrite (find_filter_none (fun r => row_id r =? id)).
Qed.

Lemma update_content_tags_frame contentId tags s :
  wp (update_content_tags contentId tags) s (fun _ s' =>
    content (tables s') = content (tables s) /\ faults s' = faults s).
Proof.
  unfold update_content_tags.
  wp_step. wp_step. destruct (faults s (ticks s)); [done|].
  wp_step. wp_step. simpl. destruct (faults s (S (ticks s))); [done|].
  wp_step. wp_step. wp_step. simpl.
  destruct (faults s (S (S (ticks s)))); [by wp_step|].
  unfold run_with_object. case_bool_decide; [by wp_step|].
  simpl. wp_step. simpl.
  destruct (faults s (S (S (S (ticks s))))); try wp_step; done.
Qed.

(** [create_content] on a store without failures. *)
Lemma create_content_ok input s :
  fault_free s ->
  let id := last_rowid (tables s) + 1 in
  exists s1,
    create_content input s = (Ret (Some id), s1) /\
    content (tables s1)
      = content (tables s) ++
        [mkRow id (title input) (type input) (Some (default DRAFT (status input)))
           (body input) (rendered_body input) (slug input) (description input)
           (metadata input) (stringify_ids <$> children input) now now
           default_published_at default_likes default_saves] /\
    faults s1 = faults s.
Proof.
  intros Hff id. unfold Db.create_content.
  rewrite (bind_ret_eq _ _ _ _ _ (prepare_ok _ _ (Hff _))).
  match goal with
  | |- context [try_catch (bind (write ?st ?args ?sem) ?k) ?h ?s0] =>
      assert (exists s1, write st args sem s0 = (Ret id, s1) /\
                content (tables s1)
                = content (tables s) ++
                  [mkRow id (title input) (type input)
                     (Some (default DRAFT (status input)))
                     (body input) (rendered_body input) (slug input)
                     (description input) (metadata input)
                     (stringify_ids <$> children input) now now
                     default_published_at default_likes default_saves] /\
                faults s1 = faults s) as (s1 & E1 & Hc1 & Hf1)
  end.
  { eexists. split; [apply write_ok; [apply Hff|reflexivity]|]. by split. }
  assert (fault_free s1) as Hff1 by (intros k; rewrite Hf1; apply Hff).
  destruct (update_content_tags_returns id (default [] (tags input)) s1
              (Hff1 _) (Hff1 _)) as (s2 & E2).
  destruct (wp_elim _ _ _ _ _
              (update_content_tags_frame id (default [] (tags input)) s1) E2)
    as [Hc2 Hf2].
  exists s2. split; [|split; [congruence|congruence]].
  erewrite try_catch_ret_eq; [reflexivity|].
  rewrite (bind_ret_eq _ _ _ _ _ E1). by rewrite (bind_ret_eq _ _ _ _ _ E2).
Qed.

(** What [create_content] inserted is what [get_content_by_id] finds
    under the id returned, when row ids are handed out past the largest
    one in use. *)
Theorem create_then_get_content_by_id input s :
  fault_free s ->
  Forall (fun r => row_id r <= last_rowid (tables s)) (content (tables s)) ->
  let id := last_rowid (tables s) + 1 in
  let row :=
    mkRow id (title input) (type input) (Some (default DRAFT (status input)))
      (body input) (rendered_body input) (slug input) (description input)
      (metadata input) (stringify_ids <$> children input) now now
      default_published_at default_likes default_saves in
  exists s1 s2,
    create_content input s = (Ret (Some id), s1) /\
    get_content_by_id id s1 = (Ret (decode parse empty_array row), s2).
Proof.
  intros Hff Hids id row.
  destruct (create_content_ok input s Hff) as (s1 & E1 & Hc1 & Hf1).
  assert (fault_free s1) as Hff1 by (intros k; rewrite Hf1; apply Hff).
  destruct (get_content_by_id_ok J parse empty_array id s1 Hff1) as (s2 & E2 & _).
  exists s1, s2. split; [exact E1|]. rewrite E2. f_equal. f_equal.
  unfold select_by_id. rewrite Hc1.
  assert (List.find (fun r => row_id r =? id) (content (tables s)) = None) as Hnone.
  { clear -Hids. subst id.
    induction (content (tables s)) as [|r l IH]; [done|].
    apply list.Forall_cons in Hids as [Hr Hl]. simpl.
    destruct (row_id r =? last_rowid (tables s) + 1) eqn:E; [|by apply IH].
    apply Z.eqb_eq in E. lia. }
  rewrite (find_app_none _ _ _ Hnone). simpl. by rewrite Z.eqb_refl.
Qed.

(** [update_content] without tags, or with none, removes every tag of the
    content and leaves the tags of the others. *)
Theorem update_content_without_tags_clears input id s :
  fault_free s ->
  default [] (tags input) = [] ->
  exists b s',
    update_content input id s = (Ret b, s') /\
    (forall t, (id, t) ∉ content_to_tags (tables s')) /\
    (forall c t, c <> id ->
       (c, t) ∈ content_to_tags (tables s') <-> (c, t) ∈ content_to_tags (tables s)).
Proof.
  intros Hff Hnone. unfold Db.update_content. rewrite Hnone.
  rewrite (bind_ret_eq _ _ _ _ _ (prepare_ok _ _ (Hff _))).
  match goal with
  | |- context [try_catch (bind (write ?st ?args ?sem) ?k) ?h ?s0] =>
      assert (exists changes s1,
                write st args sem s0 = (Ret changes, s1) /\
                content_to_tags (tables s1) = content_to_tags (tables s) /\
                faults s1 = faults s) as (changes & s1 & E1 & Hp1 & Hf1)
  end.
  { eexists _, _. split; [apply write_ok; [apply Hff|reflexivity]|]. by split. }
  assert (fault_free s1) as Hff1 by (intros k; rewrite Hf1; apply Hff).
  destruct (update_content_tags_clears id s1 Hff1) as (s2 & E2 & _ & Hp2).
  exists (0 <? changes), s2. split.
  { erewrite try_catch_ret_eq; [reflexivity|].
    rewrite (bind_ret_eq _ _ _ _ _ E1). by rewrite (bind_ret_eq _ _ _ _ _ E2). }
  rewrite Hp2, Hp1. split.
  - intros t [_ H]%filter_elem. simpl in H. by rewrite Z.eqb_refl in H.
  - intros c t Hne. rewrite filter_elem. simpl. split; [by intros [? _]|].
    intros Hin. split; [done|]. by apply negb_true_iff, Z.eqb_neq.
Qed.

(** When the tag statements cannot be prepared, [create_content] returns
    [null] and [update_content] returns [false] although the row has been
    written. *)
Theorem tag_statement_failure_after_write input id s :
  faults s (ticks s) = false ->
  faults s (S (ticks s)) = false ->
  faults s (S (S (ticks s))) = true ->
  (exists s',
     create_content input s = (Ret None, s') /\
     content (tables s')
       = content (tables s) ++
         [mkRow (last_rowid (tables s) + 1) (title input) (type input)
            (Some (default DRAFT (status input)))
            (body input) (rendered_body input) (slug input) (description input)
            (metadata input) (stringify_ids <$> children input) now now
            default_published_at default_likes default_saves]) /\
  (exists s',
     update_content input id s = (Ret false, s') /\
     content (tables s')
       = map (update_row stringify_ids now input id) (content (tables s))).
Proof.
  intros F0 F1 F2. split.
  - unfold Db.create_content.
    rewrite (bind_ret_eq _ _ _ _ _ (prepare_ok _ _ F0)).
    eexists. split.
    + erewrite try_catch_throw_eq; [reflexivity|].
      erewrite bind_ret_eq; [|apply write_ok; [exact F1|reflexivity]].
      erewrite bind_throw_eq; [reflexivity|].
      unfold update_content_tags.
      erewrite bind_throw_eq; [reflexivity|]. by apply prepare_fails.
    + done.
  - unfold Db.update_content.
    rewrite (bind_ret_eq _ _ _ _ _ (prepare_ok _ _ F0)).
    eexists. split.
    + erewrite try_catch_throw_eq; [reflexivity|].
      erewrite bind_ret_eq; [|apply write_ok; [exact F1|reflexivity]].
      erewrite bind_throw_eq; [reflexivity|].
      unfold update_content_tags.
      erewrite bind_throw_eq; [reflexivity|]. by apply prepare_fails.
    + done.
Qed.

End DbRoundTrips.

Section DbListingFacts.
Import Db DbReads DbReadsSpec.

Variable eval_listing : string -> list param -> db_tables -> list PreviewContent.
Variable has_liked has_saved : string -> Z -> db_tables -> bool.

Local Abbreviation decorate := (decorate has_liked has_saved).
Local Abbreviation decorated := (decorated has_liked has_saved).
Local Abbreviation get_content := (get_content eval_listing has_liked has_saved).

(** A loop of reads on a store without failures. *)
Lemma for_each_reads {T A B} (f : A -> M T B) (g : A -> T -> B) xs (s : store T) :
  (forall x s1, fault_free s1 ->
     exists s2, f x s1 = (Ret (g x (tables s1)), s2) /\ read_only s1 s2) ->
  fault_free s ->
  exists s',
    for_each f xs s = (Ret (map (fun x => g x (tables s)) xs), s') /\
    read_only s s'.
Proof.
  intros Hf. revert s. induction xs as [|x xs IH]; intros s Hff.
  - exists s. split; [done|apply read_only_refl].
  - destruct (Hf x s Hff) as (s1 & E1 & Hro1).
    assert (fault_free s1) as Hff1 by (eapply fault_free_later; [apply Hro1|done]).
    destruct (IH s1 Hff1) as (s' & E & Hro).
    exists s'. split; [|by eapply read_only_trans].
    simpl. rewrite (bind_ret_eq _ _ _ _ _ E1), (bind_ret_eq _ _ _ _ _ E).
    destruct Hro1 as [-> _]. done.
Qed.

Lemma add_tags_ok rows s :
  fault_free s ->
  exists s',
    add_tags rows s
    = (Ret (map (fun c => with_tags c (tags_of (preview_id c) (tables s))) rows), s') /\
    read_only s s'.
Proof.
  intros Hff. unfold add_tags.
  apply (for_each_reads _ (fun c t => with_tags c (tags_of (preview_id c) t)));
    [|done].
  intros c s1 Hff1.
  rewrite (bind_ret_eq _ _ _ _ _ (read_ok _ _ _ _ (Hff1 _))).
  match goal with
  | |- context [bind (for_each ?f ?xs) _ ?s2] =>
      destruct (for_each_reads f (fun tag_id t => select_tag tag_id t) xs s2)
        as (s3 & E3 & Hro3)
  end.
  { intros tag_id s2 Hff2. eexists.
    split; [rewrite read_ok by apply Hff2; reflexivity|solve_read_only]. }
  { intros k. apply Hff1. }
  exists s3. rewrite (bind_ret_eq _ _ _ _ _ E3). split; [done|solve_read_only].
Qed.

(** On a store without failures, and inside the window, [get_content]
    returns the rows of its listing in order, each with its tags and, for
    a user, with both flags. *)
Theorem get_content_decorates limit offset types user_id s :
  let lim := default 15 limit in
  let off := default 0 offset in
  let sanitized := map sanitize_type (default [] types) in
  let text :=
    if bool_decide (0 < length sanitized)%nat
    then typed_listing sanitized else plain_listing in
  let bound := map PStr sanitized ++ [PNum lim; PNum off] in
  let listing := eval_listing text bound (tables s) in
  fault_free s ->
  0 <= lim <= 100 ->
  0 <= off ->
  NoDup (map preview_id listing) ->
  exists s',
    get_content limit offset types user_id s
    = (Ret (inr (map (decorated user_id (tables s)) listing)), s') /\
    read_only s s'.
Proof.
  intros lim off sanitized text bound listing Hff [Hl1 Hl2] Ho Hnd.
  unfold DbReads.get_content. cbv zeta. fold lim off sanitized.
  apply Z.ltb_ge in Hl1 as ->. apply Z.ltb_ge in Hl2 as ->.
  apply Z.ltb_ge in Ho as ->. simpl.
  assert (exists s1,
            (if bool_decide (0 < length sanitized)%nat
             then bind (prepare (Built (typed_listing sanitized)))
                    (fun _ => read (Built (typed_listing sanitized))
                                (map PStr sanitized ++ [PNum lim; PNum off])
                                (eval_listing (typed_listing sanitized)
                                   (map PStr sanitized ++ [PNum lim; PNum off])))
             else bind (prepare (Built plain_listing))
                    (fun _ => read (Built plain_listing) [PNum lim; PNum off]
                                (eval_listing plain_listing [PNum lim; PNum off])))
              s
            = (Ret listing, s1) /\ read_only s s1) as (s1 & E1 & Hro1).
  { subst listing text bound. case_bool_decide as Hlen.
    - rewrite (bind_ret_eq _ _ _ _ _ (prepare_ok _ _ (Hff _))).
      eexists. split; [rewrite read_ok by apply Hff; reflexivity|solve_read_only].
    - destruct sanitized; [|simpl in Hlen; lia].
      rewrite (bind_ret_eq _ _ _ _ _ (prepare_ok _ _ (Hff _))).
      eexists. split; [rewrite read_ok by apply Hff; reflexivity|solve_read_only]. }
  rewrite (bind_ret_eq _ _ _ _ _ E1).
  assert (fault_free s1) as Hff1 by (eapply fault_free_later; [apply Hro1|done]).
  assert (tables s1 = tables s) as Ht1 by apply Hro1.
  destruct (add_tags_ok listing s1 Hff1) as (s2 & E2 & Hro2).
  assert (fault_free s2) as Hff2 by (eapply fault_free_later; [apply Hro2|done]).
  assert (tables s2 = tables s) as Ht2 by (destruct Hro2 as [-> _]; done).
  assert (exists s3,
            decorate user_id listing s1
            = (Ret (map (decorated user_id (tables s)) listing), s3) /\
            read_only s1 s3) as (s3 & E3 & Hro3).
  { unfold DbReads.decorate. rewrite (bind_ret_eq _ _ _ _ _ E2).
    unfold DbReadsSpec.decorated. rewrite Ht1.
    destruct (truthy_str user_id) eqn:Hu.
    - assert (default "" user_id <> "") as Hne.
      { destruct user_id as [u|]; [|done]. simpl in *. by intros ->. }
      destruct (flag_distinct_rows has_liked has_saved
                  (default "" user_id)
                  (map (fun c => with_tags c (tags_of (preview_id c) (tables s)))
                     listing)
                  s2 Hff2 Hne) as (s3 & E3 & Hro3).
      { by rewrite map_map. }
      exists s3. split; [|solve_read_only].
      rewrite E3. by rewrite map_map, Ht2.
    - exists s2. split; [done|solve_read_only]. }
  rewrite (bind_ret_eq _ _ _ _ _ E3).
  exists s3. split; [done|solve_read_only].
Qed.

End DbListingFacts.

(** ** Examples for the further statements *)

Section MoreExamples.
Import ContentService ContentServiceSpec ContentServiceReads ContentServiceReadsSpec.

Lemma placeholders_match_params_witness :
  let f := mkFilters (Some "svelte") (Some "draft") (Some "recipe")
             (Some (TagMany ["a"; "b"])) None (Some 10) (Some 20) in
  exists b,
    statement_of CountVariant trim_ascii f ["c1"; "c2"] = Some b /\
    count_placeholders (query b) = length (params b).
Proof.
  intros f. eexists. split; [reflexivity|].
  exact (placeholders_match_params trim_ascii CountVariant f ["c1"; "c2"] _ eq_refl).
Defined.

Lemma getContentById_transaction_bracket_witness :
  let s := Fixtures.service_store_failing 2 in
  "c1" <> "" /\
  in_txn s = false /\
  exists r s' evs,
    getContentById Fixtures.parse_children "c1" s = (Ret r, s') /\
    tables s' = tables s /\
    journal s' = journal s ++ evs /\
    transaction_bracket (closing_of r) evs /\
    (is_Some r -> in_txn s' = false).
Proof.
  intros s. assert ("c1" <> "") as Hid by done.
  split; [exact Hid|]. split; [reflexivity|].
  exact (getContentById_transaction_bracket Fixtures.parse_children "c1" s Hid
           eq_refl).
Defined.

Lemma fixture_next_succeed_5 :
  next_succeed 5 (Fixtures.service_store_failing 5).
Proof.
  intros k Hk. simpl.
  destruct k as [|[|[|[|[|k]]]]]; [reflexivity..|lia].
Defined.

Lemma children_failure_degrades_witness :
  let s := Fixtures.service_store_failing 5 in
  next_succeed 5 s /\
  exists e s2 s',
    load_children Fixtures.parse_children Fixtures.c1_children (at_children_block "c1" s)
    = (Throw e, s2) /\
    faults s (ticks s2) = false /\
    getContentById Fixtures.parse_children "c1" s
    = (Ret (Some (mkContent
                    (Fixtures.row "c1" "collection" "draft" (Some Fixtures.c1_children) None)
                    (select_tags "c1" (tables s)) (Resolved []))), s') /\
    tables s' = tables s /\
    in_txn s' = false.
Proof.
  intros s. split; [exact fixture_next_succeed_5|].
  assert ("c1" <> "") as Hid by done.
  destruct (children_failure_degrades Fixtures.parse_children "c1" s
              (Fixtures.row "c1" "collection" "draft" (Some Fixtures.c1_children) None)
              Fixtures.c1_children (StoreFailure 5)
              (requested (EvPrepare SelectChildById) (at_children_block "c1" s))
              Hid fixture_next_succeed_5 eq_refl eq_refl eq_refl eq_refl eq_refl)
    as (s' & E & Ht & Hin).
  exists (StoreFailure 5),
    (requested (EvPrepare SelectChildById) (at_children_block "c1" s)), s'.
  split; [reflexivity|]. split; [reflexivity|]. split; [exact E|].
  split; [exact Ht|exact Hin].
Defined.

Lemma fixture_ids_distinct :
  NoDup (map row_id (content (tables Fixtures.service_store))).
Proof. apply (bool_decide_unpack _). vm_compute. exact I. Defined.

Lemma getContentBySlug_published_only_witness :
  let s := Fixtures.service_store in
  NoDup (map row_id (content (tables s))) /\
  exists r s',
    getContentBySlug Fixtures.parse_children "k1" (Some "recipe") s = (Ret r, s') /\
    (forall c, r = Some c -> row_status (content_row_of c) = "published").
Proof.
  intros s. split; [exact fixture_ids_distinct|].
  destruct (getContentBySlug_published_only Fixtures.parse_children "k1"
              (Some "recipe") s fixture_ids_distinct)
    as (r & s' & E & Hsound & _).
  exists r, s'. split; [exact E|].
  intros c Hc. exact (proj1 (proj2 (proj2 (Hsound c Hc)))).
Defined.

Lemma getContentByTag_statement_witness :
  let s := Fixtures.service_store in
  "ui" <> "" /\
  list_query trim_ascii (by_tag_filters "ui" (Some 0) None) []
  = Some (mkBuilder
            (list_select +:+ tags_join
               +:+ " WHERE c.status = 'published' AND t.slug IN (?)"
               +:+ " ORDER BY c.published_at DESC, c.created_at DESC")
            [PStr "ui"] ["c.status = 'published'"; "t.slug IN (?)"] []).
Proof.
  intros s. assert ("ui" <> "") as Hne by done.
  split; [exact Hne|].
  exact (proj1 (getContentByTag_statement trim_ascii Fixtures.parse_children
                  Fixtures.search_adapter Fixtures.eval_list_query
                  "ui" (Some 0) None s Hne)).
Defined.

Lemma searchBlogPosts_statement_witness :
  exists b,
    list_query trim_ascii (blog_filters "  " (Some ["svelte"; "kit"])) [] = Some b /\
    params b = [PStr "blog"; PStr "svelte"; PStr "kit"; PNum 2].
Proof.
  eexists. split; [reflexivity|].
  exact (proj1 (proj2 (searchBlogPosts_statement trim_ascii "  "
                         (Some ["svelte"; "kit"]) [] _ eq_refl))).
Defined.

Lemma fixture_fault_free : fault_free Fixtures.service_store.
Proof. intros k. reflexivity. Defined.

Lemma addContent_then_getContentById_witness :
  let s := Fixtures.service_store in
  let data := Fixtures.service_data "published" ["1"; "4"] in
  fault_free s /\
  "c9" <> "" /\
  select_content "c9" (tables s) = None /\
  (forall tag, ("c9", tag) ∉ content_to_tags (tables s)) /\
  NoDup (data_tags data) /\
  exists s1 c s2,
    addContent "c9" "2024-02-02" data s = (Ret "c9", s1) /\
    getContentById Fixtures.parse_children "c9" s1 = (Ret (Some c), s2) /\
    row_published_at (content_row_of c) = Some "2024-02-02".
Proof.
  intros s data.
  assert ("c9" <> "") as Hid by done.
  assert (forall tag, ("c9", tag) ∉ content_to_tags (tables s)) as Hpairs.
  { intros tag Hin. simpl in Hin.
    repeat (apply elem_of_cons in Hin as [Hin|Hin]; [discriminate|]).
    by apply elem_of_nil in Hin. }
  assert (NoDup (data_tags data)) as Hnd.
  { apply (bool_decide_unpack _). vm_compute. exact I. }
  split; [exact fixture_fault_free|]. split; [exact Hid|].
  split; [reflexivity|]. split; [exact Hpairs|]. split; [exact Hnd|].
  destruct (addContent_then_getContentById Fixtures.parse_children "c9"
              "2024-02-02" data s fixture_fault_free Hid eq_refl Hpairs Hnd)
    as (s1 & c & s2 & E1 & E2 & Hrow & _).
  exists s1, c, s2. split; [exact E1|]. split; [exact E2|].
  exact (proj1 (proj2 (proj2 (proj2 (proj2 (proj2 (proj2 (proj2 (proj2 (proj2 Hrow)))))))))).
Defined.

Lemma updateContent_repeated_witness :
  let s := Fixtures.service_store in
  let data := Fixtures.service_data "published" ["2"; "3"; "4"] in
  fault_free s /\
  NoDup (data_tags data) /\
  exists s1 s2,
    updateContent "2024-02-02" "c1" data s = (Ret tt, s1) /\
    updateContent "2024-03-03" "c1" data s1 = (Ret tt, s2) /\
    tables s2 =
      mkTables (map (touch "c1" "2024-03-03") (content (tables s1)))
        (tag_table (tables s1)) (content_to_tags (tables s1)).
Proof.
  intros s data.
  assert (NoDup (data_tags data)) as Hnd.
  { apply (bool_decide_unpack _). vm_compute. exact I. }
  split; [exact fixture_fault_free|]. split; [exact Hnd|].
  exact (updateContent_repeated "2024-02-02" "2024-03-03" "c1" data s
           fixture_fault_free Hnd).
Defined.

Lemma addContent_not_atomic_witness :
  let s := Fixtures.service_store_failing 3 in
  let data := Fixtures.service_data "draft" ["1"; "4"] in
  faults s (ticks s) = false /\
  faults s (S (ticks s)) = false /\
  fst (addContent "c9" "2024-02-02" data s) = Throw (StoreFailure 3) /\
  exists o s' evs,
    addContent "c9" "2024-02-02" data s = (o, s') /\
    mkRow "c9" (title data) (slug data) (description data) (data_type data)
      (data_status data) (body data) None "2024-02-02" "2024-02-02"
      (if String.eqb (data_status data) "published" then Some "2024-02-02" else None)
      0 0 ∈ content (tables s') /\
    journal s' = journal s ++ evs /\
    Forall (fun ev => forall c, ev <> EvExec c) evs.
Proof.
  intros s data. split; [reflexivity|]. split; [reflexivity|].
  split; [reflexivity|].
  exact (addContent_not_atomic "c9" "2024-02-02" data s eq_refl eq_refl).
Defined.

End MoreExamples.

Section ReadExamples.
Import Db DbReads DbReadsSpec.

Lemma db_fixture_fault_free : fault_free Fixtures.db_store.
Proof. intros k. reflexivity. Defined.

Lemma sanitize_type_spec_witness :
  Forall (fun a => type_char a = true) (String.list_ascii_of_string "blog-post_2") /\
  sanitize_type "blog-post_2" = "blog-post_2" /\
  sanitize_type "blog'; DROP TABLE content; --" = "blogDROPTABLEcontent--".
Proof.
  assert (Forall (fun a => type_char a = true)
            (String.list_ascii_of_string "blog-post_2")) as Hclean.
  { simpl. repeat constructor. }
  split; [exact Hclean|].
  split; [exact (proj1 (proj2 (sanitize_type_spec "blog-post_2")) Hclean)|].
  reflexivity.
Defined.

Lemma page_window_checked_first_witness :
  let s := Fixtures.db_store_failing 0 in
  (101 < 0 \/ 100 < 101) /\
  get_content ReadFixtures.eval_listing ReadFixtures.has_liked
    ReadFixtures.has_saved (Some 101) None None None s
  = (Ret (inl "Invalid limit"), s).
Proof.
  intros s. assert (101 < 0 \/ 100 < 101) as Hout by (right; lia).
  split; [exact Hout|].
  exact (proj1 (proj1 (page_window_checked_first ReadFixtures.eval_listing
                         ReadFixtures.has_liked ReadFixtures.has_saved
                         (Some 101) None None None s)) Hout).
Defined.

Lemma get_content_statement_witness :
  let s := Fixtures.db_store in
  let types := Some ["blog post"; "recipe"] in
  0 <= 10 <= 100 /\ 0 <= 0 /\
  count_placeholders (typed_listing ["blogpost"; "recipe"]) = 4%nat /\
  exists evs,
    journal (snd (get_content ReadFixtures.eval_listing ReadFixtures.has_liked
                    ReadFixtures.has_saved (Some 10) None types (Some "u1") s))
    = journal s ++ EvPrepare (Built (typed_listing ["blogpost"; "recipe"])) :: evs /\
    (faults s (ticks s) = false ->
     exists evs',
       evs = EvStep (Built (typed_listing ["blogpost"; "recipe"]))
               [PStr "blogpost"; PStr "recipe"; PNum 10; PNum 0] :: evs').
Proof.
  intros s types.
  assert (0 <= 10 <= 100) as Hl by lia. assert (0 <= 0) as Ho by lia.
  split; [exact Hl|]. split; [exact Ho|].
  exact (get_content_statement ReadFixtures.eval_listing ReadFixtures.has_liked
           ReadFixtures.has_saved (Some 10) None types (Some "u1") s Hl Ho).
Defined.

Lemma fixture_listing_distinct :
  NoDup (map preview_id (ReadFixtures.eval_listing plain_listing
                           [PNum 15; PNum 0] (tables Fixtures.db_store))).
Proof. apply (bool_decide_unpack _). vm_compute. exact I. Defined.

Lemma get_content_decorates_witness :
  let s := Fixtures.db_store in
  fault_free s /\
  0 <= 15 <= 100 /\ 0 <= 0 /\
  exists s',
    get_content ReadFixtures.eval_listing ReadFixtures.has_liked
      ReadFixtures.has_saved None None None (Some "u1") s
    = (Ret (inr (map (decorated ReadFixtures.has_liked ReadFixtures.has_saved
                        (Some "u1") (tables s))
                   [ReadFixtures.preview 7; ReadFixtures.preview 8])), s') /\
    read_only s s'.
Proof.
  intros s. assert (0 <= 15 <= 100) as Hl by lia. assert (0 <= 0) as Ho by lia.
  split; [exact db_fixture_fault_free|]. split; [exact Hl|]. split; [exact Ho|].
  exact (get_content_decorates ReadFixtures.eval_listing ReadFixtures.has_liked
           ReadFixtures.has_saved None None None (Some "u1") s
           db_fixture_fault_free Hl Ho fixture_listing_distinct).
Defined.

Lemma add_user_liked_and_saved_first_occurrence_witness :
  let s := Fixtures.db_store in
  let rows := [ReadFixtures.preview 7; ReadFixtures.preview 8; ReadFixtures.preview 7] in
  fault_free s /\
  "u1" <> "" /\
  exists rows' s',
    add_user_liked_and_saved ReadFixtures.has_liked ReadFixtures.has_saved "u1" rows s
    = (Ret rows', s') /\
    map liked rows' = [Some true; Some false; None].
Proof.
  intros s rows. assert ("u1" <> "") as Hne by done.
  split; [exact db_fixture_fault_free|]. split; [exact Hne|].
  destruct (proj2 (add_user_liked_and_saved_first_occurrence ReadFixtures.has_liked
                     ReadFixtures.has_saved "u1" rows s)
              db_fixture_fault_free Hne)
    as (rows' & s' & E & _ & Hlen & Hrows).
  exists rows', s'. split; [exact E|].
  pose proof (Hrows 0%nat _ eq_refl) as H0.
  pose proof (Hrows 1%nat _ eq_refl) as H1.
  pose proof (Hrows 2%nat _ eq_refl) as H2.
  destruct rows' as [|r0 [|r1 [|r2 [|r3 rows']]]]; try discriminate Hlen.
  simpl in H0, H1, H2.
  injection H0 as ->. injection H1 as ->. injection H2 as ->.
  reflexivity.
Defined.

Lemma add_user_liked_and_saved_distinct_witness :
  let s := Fixtures.db_store in
  let rows := [ReadFixtures.preview 7; ReadFixtures.preview 8] in
  fault_free s /\
  "u1" <> "" /\
  NoDup (map preview_id rows) /\
  exists s',
    add_user_liked_and_saved ReadFixtures.has_liked ReadFixtures.has_saved "u1" rows s
    = (Ret (map (flagged ReadFixtures.has_liked ReadFixtures.has_saved "u1" (tables s))
              rows), s') /\
    read_only s s'.
Proof.
  intros s rows. assert ("u1" <> "") as Hne by done.
  assert (NoDup (map preview_id rows)) as Hnd.
  { apply (bool_decide_unpack _). vm_compute. exact I. }
  split; [exact db_fixture_fault_free|]. split; [exact Hne|]. split; [exact Hnd|].
  exact (add_user_liked_and_saved_distinct ReadFixtures.has_liked
           ReadFixtures.has_saved "u1" rows s db_fixture_fault_free Hne Hnd).
Defined.

Lemma get_content_by_ids_failures_witness :
  let s := Fixtures.db_store_failing 1 in
  [7; 8] <> [] /\
  faults s (ticks s) = false /\
  faults s (S (ticks s)) = true /\
  exists s', get_content_by_ids ReadFixtures.eval_listing [7; 8] s = (Ret [], s').
Proof.
  intros s. assert ([7; 8] <> @nil Z) as Hne by done.
  split; [exact Hne|]. split; [reflexivity|]. split; [reflexivity|].
  exact (proj1 (proj2 (proj2 (proj2
           (get_content_by_ids_failures ReadFixtures.eval_listing [7; 8] s)) Hne))
           eq_refl eq_refl).
Defined.

Lemma malformed_fixture_fault_free : fault_free ReadFixtures.malformed_store.
Proof. intros k. reflexivity. Defined.

Lemma get_content_by_id_malformed_is_null_witness :
  let s := ReadFixtures.malformed_store in
  fault_free s /\
  is_Some (select_by_id 5 (tables s)) /\
  exists s',
    get_content_by_id ReadFixtures.json ReadFixtures.parse_json
      ReadFixtures.empty_array 5 s = (Ret None, s') /\
    read_only s s'.
Proof.
  intros s. split; [exact malformed_fixture_fault_free|].
  split; [by eexists|].
  exact (get_content_by_id_malformed_is_null ReadFixtures.json
           ReadFixtures.parse_json ReadFixtures.empty_array 5 s _
           malformed_fixture_fault_free eq_refl (or_introl (conj eq_refl eq_refl))).
Defined.

Lemma delete_then_get_content_by_id_witness :
  let s := Fixtures.db_store in
  fault_free s /\
  exists b s1 s2,
    delete_content 1 s = (Ret b, s1) /\
    (b = true <-> exists r, r ∈ content (tables s) /\ row_id r = 1) /\
    content (tables s1)
      = List.filter (fun r => negb (row_id r =? 1)) (content (tables s)) /\
    get_content_by_id ReadFixtures.json ReadFixtures.parse_json
      ReadFixtures.empty_array 1 s1 = (Ret None, s2).
Proof.
  intros s. split; [exact db_fixture_fault_free|].
  exact (delete_then_get_content_by_id ReadFixtures.json
           ReadFixtures.parse_json ReadFixtures.empty_array 1 s
           db_fixture_fault_free).
Defined.

Lemma db_fixture_rowids :
  Forall (fun r => row_id r <= last_rowid (tables Fixtures.db_store))
    (content (tables Fixtures.db_store)).
Proof. simpl. repeat constructor. simpl. lia. Defined.

Lemma create_then_get_content_by_id_witness :
  let s := Fixtures.db_store in
  let input :=
    mkInput "title" "recipe" None None None "slug" None None (Some [3; 4]) None in
  fault_free s /\
  Forall (fun r => row_id r <= last_rowid (tables s)) (content (tables s)) /\
  exists s1 s2 c,
    create_content "draft" Fixtures.stringify_ids "2024-02-02" None 0 0 input s
    = (Ret (Some 2), s1) /\
    get_content_by_id ReadFixtures.json ReadFixtures.parse_json
      ReadFixtures.empty_array 2 s1 = (Ret (Some c), s2) /\
    row_status (parsed_row c) = Some "draft" /\
    row_children (parsed_row c) = Some "[3,4]" /\
    parsed_children c = ReadFixtures.Numbers [3; 4] /\
    parsed_metadata c = ReadFixtures.EmptyObject.
Proof.
  intros s input.
  split; [exact db_fixture_fault_free|]. split; [exact db_fixture_rowids|].
  destruct (create_then_get_content_by_id "draft" Fixtures.stringify_ids
              "2024-02-02" None 0 0 ReadFixtures.json ReadFixtures.parse_json
              ReadFixtures.empty_array input s
              db_fixture_fault_free db_fixture_rowids)
    as (s1 & s2 & E1 & E2).
  exists s1, s2. eexists. split; [exact E1|]. split; [exact E2|].
  split; [reflexivity|]. split; [reflexivity|]. split; reflexivity.
Defined.

Lemma update_content_without_tags_clears_witness :
  let s := Fixtures.db_store in
  let input := Fixtures.db_input (Some "draft") None in
  fault_free s /\
  default [] (tags input) = [] /\
  exists b s',
    update_content Fixtures.stringify_ids "2024-02-02" input 1 s = (Ret b, s') /\
    (forall t, (1, t) ∉ content_to_tags (tables s')) /\
    (forall c t, c <> 1 ->
       (c, t) ∈ content_to_tags (tables s') <-> (c, t) ∈ content_to_tags (tables s)).
Proof.
  intros s input.
  split; [exact db_fixture_fault_free|]. split; [reflexivity|].
  exact (update_content_without_tags_clears Fixtures.stringify_ids "2024-02-02"
           input 1 s db_fixture_fault_free eq_refl).
Defined.

Lemma tag_statement_failure_after_write_witness :
  let s := Fixtures.db_store_failing 2 in
  let input := Fixtures.db_input (Some "published") (Some [1; 2]) in
  faults s (ticks s) = false /\
  faults s (S (ticks s)) = false /\
  faults s (S (S (ticks s))) = true /\
  exists s',
    create_content "draft" Fixtures.stringify_ids "2024-02-02" None 0 0 input s
    = (Ret None, s') /\
    length (content (tables s')) = 2%nat.
Proof.
  intros s input. split; [reflexivity|]. split; [reflexivity|].
  split; [reflexivity|].
  destruct (proj1 (tag_statement_failure_after_write "draft" Fixtures.stringify_ids
                     "2024-02-02" None 0 0 input 1 s eq_refl eq_refl eq_refl))
    as (s' & E & Hc).
  exists s'. split; [exact E|]. by rewrite Hc.
Defined.

End ReadExamples.

(** ** Failures of the listing *)

Section ListingFailures.
Import ContentService ContentServiceSpec.

Variable trim : string -> string.
Variable parse_children : string -> parsed.
Variable search_adapter : db_tables -> string -> list string.
Variable eval_list_query : string -> list param -> db_tables -> list string.
Variable eval_count_query : string -> list param -> db_tables -> option Z.

Local Abbreviation getFilteredContent :=
  (getFilteredContent trim parse_children search_adapter eval_list_query).
Local Abbreviation getFilteredContentCount :=
  (getFilteredContentCount trim search_adapter eval_count_query).

(** [getFilteredContent] and [getFilteredContentCount] have no handler
    around their own statement: when preparing or running it fails, the
    failure reaches the caller, from both. *)
Theorem filtered_content_failures f s k :
  list_query trim f (candidates trim search_adapter f (tables s)) <> None ->
  (k = ticks s \/ (k = S (ticks s) /\ faults s (ticks s) = false)) ->
  faults s k = true ->
  (exists s', getFilteredContent f s = (Throw (StoreFailure k), s')) /\
  (exists s', getFilteredContentCount f s = (Throw (StoreFailure k), s')).
Proof.
  intros Hq Hk Hfail.
  unfold ContentService.getFilteredContent, ContentService.getFilteredContentCount.
  unfold candidates in Hq.
  assert (forall s0 : store db_tables,
            tables s0 = tables s -> faults s0 = faults s -> ticks s0 = ticks s ->
            forall (st : statement) (args : list param) A B
                   (sem : db_tables -> A) (rest : A -> M db_tables B),
            exists s',
              bind (prepare st) (fun _ => bind (read st args sem) rest) s0
              = (Throw (StoreFailure k), s')) as Hrun.
  { intros s0 Ht Hf Hn st args A B sem rest.
    destruct Hk as [->|[-> F0]].
    - rewrite (bind_throw_eq _ _ _ _ _
                 (prepare_fails st s0 ltac:(by rewrite Hf, Hn))).
      rewrite Hn. by eauto.
    - rewrite (bind_ret_eq _ _ _ _ _
                 (prepare_ok st s0 ltac:(by rewrite Hf, Hn))).
      erewrite bind_throw_eq;
        [|apply read_fails; simpl; by rewrite Hf, Hn].
      simpl. rewrite Hn. by eauto. }
  destruct (searching trim f) eqn:Hs.
  - set (q := search_query trim f) in *.
    set (ids := search_adapter (tables s) q) in *.
    rewrite !(bind_ret_eq _ _ _ _ _
                (eq_refl : search_call search_adapter q s
                           = (Ret ids, searched q s))).
    destruct (list_query trim f ids) as [b|] eqn:Hb; [|done].
    assert (bool_decide (ids = []) = false) as Hne.
    { unfold list_query in Hb. rewrite Hs in Hb. simpl in Hb.
      by destruct (bool_decide (ids = [])). }
    rewrite Hne. simpl. split; by apply Hrun.
  - rewrite !(bind_ret_eq _ _ _ _ _ (eq_refl : ret [] s = (Ret [], s))).
    destruct (list_query trim f []) as [b|] eqn:Hb; [|done].
    simpl. split; by apply Hrun.
Qed.

End ListingFailures.

Section LastExamples.
Import ContentService ContentServiceSpec.

Lemma filtered_content_failures_witness :
  let s := Fixtures.service_store_failing 1 in
  list_query trim_ascii no_filters
    (candidates trim_ascii Fixtures.search_adapter no_filters (tables s)) <> None /\
  faults s 1%nat = true /\
  (exists s',
     getFilteredContent trim_ascii Fixtures.parse_children Fixtures.search_adapter
       Fixtures.eval_list_query no_filters s = (Throw (StoreFailure 1), s')) /\
  (exists s',
     getFilteredContentCount trim_ascii Fixtures.search_adapter
       Fixtures.eval_count_query no_filters s = (Throw (StoreFailure 1), s')).
Proof.
  intros s.
  assert (list_query trim_ascii no_filters
            (candidates trim_ascii Fixtures.search_adapter no_filters (tables s))
          <> None) as Hq by done.
  split; [exact Hq|]. split; [reflexivity|].
  exact (filtered_content_failures trim_ascii Fixtures.parse_children
           Fixtures.search_adapter Fixtures.eval_list_query
           Fixtures.eval_count_query no_filters s 1%nat Hq
           (or_intror (conj eq_refl eq_refl)) eq_refl).
Defined.

Lemma updateContent_deletes_then_inserts_witness :
  let s := Fixtures.service_store in
  let new := ["2"; "3"; "4"] in
  fault_free s /\
  NoDup new /\
  exists s' evs,
    updateContent "2024-02-02" "c1" (Fixtures.service_data "draft" new) s
    = (Ret tt, s') /\
    journal s' = journal s ++ evs /\
    (forall t, ("c1", t) ∈ content_to_tags (tables s') <-> t ∈ new) /\
    common_pairs_rewritten PStr "c1" new (content_to_tags (tables s)) evs.
Proof.
  intros s new.
  assert (fault_free s) as Hff by (by intros k).
  assert (NoDup new) as Hnd.
  { apply (bool_decide_unpack _). vm_compute. exact I. }
  split; [exact Hff|]. split; [exact Hnd|].
  destruct (updateContent_deletes_then_inserts "2024-02-02" "c1"
              (Fixtures.service_data "draft" new) s Hff Hnd)
    as (s' & evs & E & Hj & [Hown _] & Hr).
  exists s', evs. split; [exact E|]. split; [exact Hj|]. split; [|exact Hr].
  intros t. rewrite (Hown t). simpl. split; [by intros [? _]|by auto].
Defined.

End LastExamples.
